(** * EnhancedTick: a shallow embedding of the batching tick scheduler

    Source: Source/EnhancedTick/Public/EnhancedTickSystem.h and
            Source/EnhancedTick/Private/EnhancedTickSystem.cpp.

    Conventions of the embedding.

    - [UObject*] and [UClass*] are numbers; the null pointer is [0].
    - A [FTickEntityData*] held by the spatial grid is the address of a slot
      of a batch's [TickEntities] array: the batch (its [UClass*] key in
      [TypeBatches]) and the index.  The array storage is taken not to move;
      a slot index at or past [Num()] is a dangling pointer, and reading
      through it yields nothing.
    - A [FComponentTypeBatch*] held by [GroupedBatches] is the key of the
      batch in [TypeBatches].
    - [TMap]s are association lists in insertion order, the order in which
      an Unreal [TMap] without removals is iterated.
    - Positions, distances and the grid cell size are floating point; their
      operations are the fields of the class [FloatOps] and nothing is
      assumed of them except where a statement says so.
    - Durations and the application clock are finite and are taken in [Q].
    - Everything the engine provides (liveness, reflection, clocks, the
      worker count, [TArray::Sort]) is a field of the record [Engine]. *)

From Stdlib Require Import String.
From Stdlib Require Import ZArith QArith Qround List Bool Lia Permutation Sorted.
Import ListNotations.
Local Open Scope Z_scope.

(** ** Engine-side vocabulary *)

Abbreviation UObject := nat (only parsing).
Abbreviation UClass := nat (only parsing).

Inductive ETickingGroup :=
| TG_PrePhysics | TG_StartPhysics | TG_DuringPhysics | TG_EndPhysics
| TG_PostPhysics | TG_PostUpdateWork | TG_LastDemotable | TG_NewlySpawned.

Definition ETickingGroup_eqb (a b : ETickingGroup) : bool :=
  match a, b with
  | TG_PrePhysics, TG_PrePhysics | TG_StartPhysics, TG_StartPhysics
  | TG_DuringPhysics, TG_DuringPhysics | TG_EndPhysics, TG_EndPhysics
  | TG_PostPhysics, TG_PostPhysics | TG_PostUpdateWork, TG_PostUpdateWork
  | TG_LastDemotable, TG_LastDemotable | TG_NewlySpawned, TG_NewlySpawned => true
  | _, _ => false
  end.

(** The engine classes the source tests objects and classes against. *)
Inductive EngineClass :=
| UActorComponent | AActor | USceneComponent | UPrimitiveComponent
| UCharacterMovementComponent | UAIPerceptionComponent.

(** ** ETickBatchFlags (uint8 bit flags) *)

Definition FlagNone : Z := 0.
Definition UseParallel : Z := Z.shiftl 1 0.
Definition CacheHot : Z := Z.shiftl 1 1.
Definition Conditional : Z := Z.shiftl 1 2.
Definition HighPrio : Z := Z.shiftl 1 3.
Definition LowPrio : Z := Z.shiftl 1 4.
Definition SpatialAware : Z := Z.shiftl 1 5.
Definition StateDependent : Z := Z.shiftl 1 6.

Definition EnumHasAnyFlags (Flags Contains : Z) : bool :=
  negb (Z.land Flags Contains =? 0).

(** [Flags |= F] and [Flags &= ~F]. *)
Definition SetFlag (Flags F : Z) : Z := Z.lor Flags F.
Definition ClearFlag (Flags F : Z) : Z := Z.land Flags (Z.lxor F 255).

(** int32 arithmetic of the statistics counters, two's complement. *)
Definition int32 (x : Z) : Z := (x + 2147483648) mod 4294967296 - 2147483648.

Definition Qltb (a b : Q) : bool := negb (Qle_bool b a).

(** ** Floating point *)

Class FloatOps := {
  FVector : Type;
  float : Type;
  ZeroVector : FVector;
  VecX : FVector -> float;
  VecY : FVector -> float;
  VecZ : FVector -> float;
  (** [FVector::Distance], narrowed to [float] as both callers do. *)
  Distance : FVector -> FVector -> float;
  (** [operator<] and [operator<=] on [float]. *)
  flt : float -> float -> bool;
  fle : float -> float -> bool;
  fdiv : float -> float -> float;
  (** [FMath::FloorToInt] and [FMath::CeilToInt], int32 results. *)
  FloorToInt : float -> Z;
  CeilToInt : float -> Z;
  (** a literal such as [2000.0f] *)
  float_lit : Z -> float
}.

(** What IEEE comparison gives, NaN included: [<] is a strict partial
    order. *)
Definition flt_strict `{FloatOps} : Prop :=
  (forall a, flt a a = false) /\
  (forall a b c, flt a b = true -> flt b c = true -> flt a c = true).

Section Model.

Context {FO : FloatOps}.

(** ** The engine, as seen during one frame *)

Record Engine := {
  (** [IsValid(Object)] for a non-null object, and for a class. *)
  ObjectIsValid : UObject -> bool;
  ClassIsValid : UClass -> bool;
  GetClass : UObject -> UClass;
  IsChildOf : UClass -> EngineClass -> bool;
  ClassName : UClass -> string;
  (** [Class->GetName().Contains(TEXT(...))]. *)
  NameContains : UClass -> string -> bool;
  IsActive : UObject -> bool;
  IsActorTickEnabled : UObject -> bool;
  GetOwner : UObject -> UObject;
  GetActorLocation : UObject -> FVector;
  ComponentTickGroup : UObject -> ETickingGroup;
  ActorTickGroup : UObject -> ETickingGroup;
  (** [FApp::GetCurrentTime()], seconds. *)
  CurrentTime : Q;
  (** [(EndTime - StartTime) * 1.0e9] measured around the tick of the batch
      of a class. *)
  ElapsedNs : UClass -> Q;
  NumberOfWorkerThreadsToSpawn : Z;
  (** [TArray::Sort] with a predicate. *)
  ArraySort : (UClass -> UClass -> bool) -> list UClass -> list UClass
}.

Definition IsValid (w : Engine) (o : UObject) : bool :=
  negb (Nat.eqb o 0) && ObjectIsValid w o.

(** [Object->IsA<T>()] and [Cast<T>(Object) != nullptr]. *)
Definition IsA (w : Engine) (o : UObject) (T : EngineClass) : bool :=
  IsChildOf w (GetClass w o) T.

Definition Cast (w : Engine) (T : EngineClass) (o : UObject) : bool :=
  negb (Nat.eqb o 0) && IsA w o T.

(** ** FTickEntityData *)

Record FTickEntityData := {
  Object : UObject;
  (** whether the [TFunction] is bound *)
  TickFunction : bool;
  Position : FVector;
  SpatialBucketId : Z;
  Priority : Z;
  bEnabled : bool
}.

Definition GetDistance (a b : FTickEntityData) : float :=
  Distance (Position a) (Position b).

Definition set_bEnabled (e : FTickEntityData) (v : bool) : FTickEntityData :=
  {| Object := Object e; TickFunction := TickFunction e; Position := Position e;
     SpatialBucketId := SpatialBucketId e; Priority := Priority e; bEnabled := v |}.

Definition set_SpatialBucketId (e : FTickEntityData) (v : Z) : FTickEntityData :=
  {| Object := Object e; TickFunction := TickFunction e; Position := Position e;
     SpatialBucketId := v; Priority := Priority e; bEnabled := bEnabled e |}.

(** ** FComponentTypeBatch *)

(** The callables the source binds to [BatchTickFunction]. *)
Inductive BatchDispatcher :=
| GenericTick            (* DetermineBestTickFunction, default lambda *)
| CharacterMovementTick  (* DetermineBestTickFunction / OptimizeCharacterMovementBatch *)
| ActorTick              (* the lambda of the actor branch of the flush *)
| AIPerceptionTick.      (* OptimizeAIPerceptionBatch *)

Record FComponentTypeBatch := {
  TypeName : string;
  Flags : Z;
  BatchLock : bool;
  TickEntities : list FTickEntityData;
  BatchTickFunction : option BatchDispatcher;
  TickGroup : ETickingGroup;
  AverageTickTimeNs : Q;
  LastFrameTickCount : Z;
  bSortByCacheLocality : bool
}.

Definition DefaultBatch : FComponentTypeBatch :=
  {| TypeName := EmptyString; Flags := FlagNone; BatchLock := true;
     TickEntities := []; BatchTickFunction := None; TickGroup := TG_PrePhysics;
     AverageTickTimeNs := 0; LastFrameTickCount := 0;
     bSortByCacheLocality := true |}.

Definition set_TickEntities (b : FComponentTypeBatch) (l : list FTickEntityData) :=
  {| TypeName := TypeName b; Flags := Flags b; BatchLock := BatchLock b;
     TickEntities := l; BatchTickFunction := BatchTickFunction b;
     TickGroup := TickGroup b; AverageTickTimeNs := AverageTickTimeNs b;
     LastFrameTickCount := LastFrameTickCount b;
     bSortByCacheLocality := bSortByCacheLocality b |}.

Definition set_Flags (b : FComponentTypeBatch) (f : Z) :=
  {| TypeName := TypeName b; Flags := f; BatchLock := BatchLock b;
     TickEntities := TickEntities b; BatchTickFunction := BatchTickFunction b;
     TickGroup := TickGroup b; AverageTickTimeNs := AverageTickTimeNs b;
     LastFrameTickCount := LastFrameTickCount b;
     bSortByCacheLocality := bSortByCacheLocality b |}.

Definition set_BatchTickFunction (b : FComponentTypeBatch) (f : option BatchDispatcher) :=
  {| TypeName := TypeName b; Flags := Flags b; BatchLock := BatchLock b;
     TickEntities := TickEntities b; BatchTickFunction := f;
     TickGroup := TickGroup b; AverageTickTimeNs := AverageTickTimeNs b;
     LastFrameTickCount := LastFrameTickCount b;
     bSortByCacheLocality := bSortByCacheLocality b |}.

Definition set_AverageTickTimeNs (b : FComponentTypeBatch) (q : Q) :=
  {| TypeName := TypeName b; Flags := Flags b; BatchLock := BatchLock b;
     TickEntities := TickEntities b; BatchTickFunction := BatchTickFunction b;
     TickGroup := TickGroup b; AverageTickTimeNs := q;
     LastFrameTickCount := LastFrameTickCount b;
     bSortByCacheLocality := bSortByCacheLocality b |}.

Definition set_LastFrameTickCount (b : FComponentTypeBatch) (n : Z) :=
  {| TypeName := TypeName b; Flags := Flags b; BatchLock := BatchLock b;
     TickEntities := TickEntities b; BatchTickFunction := BatchTickFunction b;
     TickGroup := TickGroup b; AverageTickTimeNs := AverageTickTimeNs b;
     LastFrameTickCount := n;
     bSortByCacheLocality := bSortByCacheLocality b |}.

Definition set_bSortByCacheLocality (b : FComponentTypeBatch) (v : bool) :=
  {| TypeName := TypeName b; Flags := Flags b; BatchLock := BatchLock b;
     TickEntities := TickEntities b; BatchTickFunction := BatchTickFunction b;
     TickGroup := TickGroup b; AverageTickTimeNs := AverageTickTimeNs b;
     LastFrameTickCount := LastFrameTickCount b;
     bSortByCacheLocality := v |}.

(** The first-creation block of the flush: name, group, flags, callable. *)
Definition InitBatch (b : FComponentTypeBatch) (n : string) (g : ETickingGroup)
    (f : Z) (d : BatchDispatcher) : FComponentTypeBatch :=
  {| TypeName := n; Flags := f; BatchLock := BatchLock b;
     TickEntities := TickEntities b; BatchTickFunction := Some d;
     TickGroup := g; AverageTickTimeNs := AverageTickTimeNs b;
     LastFrameTickCount := LastFrameTickCount b;
     bSortByCacheLocality := bSortByCacheLocality b |}.

Definition CanTickInParallel (b : FComponentTypeBatch) : bool :=
  EnumHasAnyFlags (Flags b) UseParallel.

Definition Num {A : Type} (l : list A) : Z := Z.of_nat (List.length l).

(** [TArray::RemoveAt(Index)]. *)
Definition RemoveAt {A : Type} (i : nat) (l : list A) : list A :=
  firstn i l ++ skipn (S i) l.

(** [Entity.bEnabled && IsValid(Entity.Object)], the filter of both tick
    paths and of the sort. *)
Definition IsActiveEntity (w : Engine) (e : FTickEntityData) : bool :=
  bEnabled e && IsValid w (Object e).

(** *** SortForCacheLocality *)

(** The inner [for] loop: [i] runs over the tail of [ValidEntities]. *)
Fixpoint FindClosest (LastAdded : FTickEntityData) (rest : list FTickEntityData)
    (i BestIdx : nat) (BestDistance : float) : nat :=
  match rest with
  | [] => BestIdx
  | x :: tl =>
      let Dist := GetDistance LastAdded x in
      if flt Dist BestDistance
      then FindClosest LastAdded tl (S i) i Dist
      else FindClosest LastAdded tl (S i) BestIdx BestDistance
  end.

(** The [while (ValidEntities.Num() > 0)] loop; [n] bounds the number of
    iterations and is the length of [ValidEntities] at the call. The result
    is what is appended to [SortedEntities]. *)
Fixpoint ChainNearest (n : nat) (LastAdded : FTickEntityData)
    (ValidEntities : list FTickEntityData) : list FTickEntityData :=
  match n with
  | O => []
  | S n' =>
      match ValidEntities with
      | [] => []
      | v0 :: tl =>
          let BestIdx := FindClosest LastAdded tl 1 0 (GetDistance LastAdded v0) in
          let Best := nth BestIdx ValidEntities v0 in
          Best :: ChainNearest n' Best (RemoveAt BestIdx ValidEntities)
      end
  end.

Definition SortForCacheLocality (w : Engine) (b : FComponentTypeBatch)
    : FComponentTypeBatch :=
  if Num (TickEntities b) <? 2 then b
  else
    let ValidEntities := filter (IsActiveEntity w) (TickEntities b) in
    if Num ValidEntities <? 2 then b
    else
      match ValidEntities with
      | [] => b
      | v0 :: rest =>
          set_TickEntities b (v0 :: ChainNearest (List.length rest) v0 rest)
      end.

(** *** The batch callables *)

(** Each callable walks the view it is given. [DispatcherCalls] tells
    whether it calls the update of an entity (the bound [TickFunction],
    [TickComponent] or [Tick]); [RunDispatcher] lists, in order, the
    descriptors for which it does. *)
Definition DispatcherCalls (w : Engine) (d : BatchDispatcher) (e : FTickEntityData)
    : bool :=
  match d with
  | GenericTick =>
      TickFunction e || Cast w UActorComponent (Object e) || Cast w AActor (Object e)
  | CharacterMovementTick =>
      Cast w UCharacterMovementComponent (Object e) && bEnabled e
  | ActorTick => Cast w AActor (Object e)
  | AIPerceptionTick =>
      Cast w UAIPerceptionComponent (Object e) && bEnabled e
  end.

Definition RunDispatcher (w : Engine) (d : BatchDispatcher)
    (Entities : list FTickEntityData) : list FTickEntityData :=
  filter (DispatcherCalls w d) Entities.

(** *** TickBatch *)

Definition TickBatch (w : Engine) (Elapsed : Q) (b : FComponentTypeBatch)
    : FComponentTypeBatch * list FTickEntityData :=
  let b := set_LastFrameTickCount b 0 in
  match BatchTickFunction b with
  | None => (b, [])
  | Some f =>
      if Num (TickEntities b) =? 0 then (b, [])
      else
        let b := if bSortByCacheLocality b then SortForCacheLocality w b else b in
        if EnumHasAnyFlags (Flags b) LowPrio && Qltb (CurrentTime w) 30
        then (b, [])
        else
          let ActiveEntities := filter (IsActiveEntity w) (TickEntities b) in
          if Num ActiveEntities =? 0 then (b, [])
          else
            let invoked := RunDispatcher w f ActiveEntities in
            let b := set_AverageTickTimeNs b
                       (Elapsed / inject_Z (Num ActiveEntities)) in
            (set_LastFrameTickCount b (Num ActiveEntities), invoked)
  end.

(** *** TickBatchParallel *)

(** The thread-safety check over the active entities. *)
Definition MightBeUnsafe (w : Engine) (e : FTickEntityData) : bool :=
  negb (Nat.eqb (Object e) 0)
  && (IsA w (Object e) UPrimitiveComponent
      || IsA w (Object e) USceneComponent
      || IsA w (Object e) UCharacterMovementComponent).

(** [FMath::Max(1, FMath::CeilToInt(float(Num) / NumThreads))]; the float
    quotient of two int32 is exact enough for the ceiling below 2^24
    entities, which is assumed. *)
Definition EntitiesPerThread (n NumThreads : Z) : Z :=
  Z.max 1 ((n + NumThreads - 1) / NumThreads).

(** The view of one task: [ActiveEntities[StartIdx .. EndIdx)]. *)
Definition ThreadView {A : Type} (ActiveEntities : list A) (PerThread ThreadIdx : Z)
    : list A :=
  let StartIdx := ThreadIdx * PerThread in
  let EndIdx := Z.min (StartIdx + PerThread) (Num ActiveEntities) in
  if StartIdx >=? EndIdx then []
  else firstn (Z.to_nat (EndIdx - StartIdx)) (skipn (Z.to_nat StartIdx) ActiveEntities).

(** One view per [ThreadIdx] in [0 .. NumThreads - 1]. *)
Definition ThreadViews {A : Type} (ActiveEntities : list A) (NumThreads : Z)
    : list (list A) :=
  let PerThread := EntitiesPerThread (Num ActiveEntities) NumThreads in
  map (fun k => ThreadView ActiveEntities PerThread (Z.of_nat k))
      (seq 0 (Z.to_nat NumThreads)).

(** What one task calls: every entity of its view with a bound callable. *)
Definition RunTask (view : list FTickEntityData) : list FTickEntityData :=
  filter TickFunction view.

(** The invocations are listed task by task; the tasks really run
    concurrently, so only membership of the list is meaningful. *)
Definition TickBatchParallel (w : Engine) (Elapsed : Q) (b : FComponentTypeBatch)
    : FComponentTypeBatch * list FTickEntityData :=
  let b := set_LastFrameTickCount b 0 in
  match BatchTickFunction b with
  | None => TickBatch w Elapsed b
  | Some _ =>
      if (Num (TickEntities b) =? 0) || negb (CanTickInParallel b)
      then TickBatch w Elapsed b
      else
        let b := if bSortByCacheLocality b then SortForCacheLocality w b else b in
        let ActiveEntities := filter (IsActiveEntity w) (TickEntities b) in
        if Num ActiveEntities =? 0 then (b, [])
        else if existsb (MightBeUnsafe w) ActiveEntities then TickBatch w Elapsed b
        else
          let b := set_LastFrameTickCount b (Num ActiveEntities) in
          let views := ThreadViews ActiveEntities (NumberOfWorkerThreadsToSpawn w) in
          let invoked := List.concat (map RunTask views) in
          (set_AverageTickTimeNs b (Elapsed / inject_Z (Num ActiveEntities)), invoked)
  end.

(** ** Pointers into batch storage *)

Inductive EntityPtr :=
| NullEntity
| SlotAt (c : UClass) (i : nat).

Definition EntityPtr_eqb (p q : EntityPtr) : bool :=
  match p, q with
  | NullEntity, NullEntity => true
  | SlotAt c i, SlotAt d j => Nat.eqb c d && Nat.eqb i j
  | _, _ => false
  end.

Definition BatchMap := list (UClass * FComponentTypeBatch).

Fixpoint FindBatch (c : UClass) (tb : BatchMap) : option FComponentTypeBatch :=
  match tb with
  | [] => None
  | (k, b) :: tl => if Nat.eqb k c then Some b else FindBatch c tl
  end.

(** Writing through a reference obtained with [Find] or [FindOrAdd]. *)
Fixpoint UpdateBatch (c : UClass) (f : FComponentTypeBatch -> FComponentTypeBatch)
    (tb : BatchMap) : BatchMap :=
  match tb with
  | [] => []
  | (k, b) :: tl =>
      if Nat.eqb k c then (k, f b) :: tl else (k, b) :: UpdateBatch c f tl
  end.

(** [TypeBatches.FindOrAdd(Class)]: a missing key gets a default-constructed
    batch, appended. *)
Definition FindOrAddBatch (c : UClass) (tb : BatchMap) : BatchMap :=
  match FindBatch c tb with
  | Some _ => tb
  | None => tb ++ [(c, DefaultBatch)]
  end.

Fixpoint UpdateNth {A : Type} (i : nat) (f : A -> A) (l : list A) : list A :=
  match l, i with
  | [], _ => []
  | x :: tl, O => f x :: tl
  | x :: tl, S i' => x :: UpdateNth i' f tl
  end.

(** Reading [*Entity]. *)
Definition Deref (tb : BatchMap) (p : EntityPtr) : option FTickEntityData :=
  match p with
  | NullEntity => None
  | SlotAt c i =>
      match FindBatch c tb with
      | Some b => nth_error (TickEntities b) i
      | None => None
      end
  end.

(** Writing a field of [*Entity]. *)
Definition WriteEntity (tb : BatchMap) (p : EntityPtr)
    (f : FTickEntityData -> FTickEntityData) : BatchMap :=
  match p with
  | NullEntity => tb
  | SlotAt c i =>
      UpdateBatch c (fun b => set_TickEntities b (UpdateNth i f (TickEntities b))) tb
  end.

(** ** FSpatialEntityBatch *)

Definition CellMap := list (Z * list EntityPtr).

Record FSpatialEntityBatch := {
  GridCellSize : float;
  GridCells : CellMap;
  AllSpatialEntities : list EntityPtr;
  SpatialLock : bool
}.

Definition set_Grid (sp : FSpatialEntityBatch) (cells : CellMap)
    (all : list EntityPtr) : FSpatialEntityBatch :=
  {| GridCellSize := GridCellSize sp; GridCells := cells;
     AllSpatialEntities := all; SpatialLock := SpatialLock sp |}.

Fixpoint FindCell (g : Z) (cells : CellMap) : option (list EntityPtr) :=
  match cells with
  | [] => None
  | (k, v) :: tl => if k =? g then Some v else FindCell g tl
  end.

(** [GridCells.FindOrAdd(GridCell).Add(Entity)]. *)
Fixpoint CellAdd (g : Z) (p : EntityPtr) (cells : CellMap) : CellMap :=
  match cells with
  | [] => [(g, [p])]
  | (k, v) :: tl => if k =? g then (k, v ++ [p]) :: tl else (k, v) :: CellAdd g p tl
  end.

Fixpoint CellSet (g : Z) (v' : list EntityPtr) (cells : CellMap) : CellMap :=
  match cells with
  | [] => []
  | (k, v) :: tl => if k =? g then (k, v') :: tl else (k, v) :: CellSet g v' tl
  end.

(** [GridCells.Remove(GridCell)]. *)
Definition CellRemoveKey (g : Z) (cells : CellMap) : CellMap :=
  filter (fun kv => negb (fst kv =? g)) cells.

(** [TArray::Remove(Item)]: every occurrence goes. *)
Definition RemoveItem (p : EntityPtr) (l : list EntityPtr) : list EntityPtr :=
  filter (fun q => negb (EntityPtr_eqb q p)) l.

Definition PackCell (X Y Z0 : Z) : Z :=
  (Z.lor (Z.lor (Z.shiftl (Z.land X 63) 10) (Z.shiftl (Z.land Y 63) 4))
         (Z.land Z0 15)) mod 65536.

Definition CalculateGridCell (CellSize : float) (P : FVector) : Z :=
  let CellX := FloorToInt (fdiv (VecX P) CellSize) in
  let CellY := FloorToInt (fdiv (VecY P) CellSize) in
  let CellZ := FloorToInt (fdiv (VecZ P) CellSize) in
  PackCell CellX CellY CellZ.

(** [AddEntity] writes the bucket id through the pointer, so it returns the
    batch storage too. The two branches on [SpatialLock.Get()] are the same
    code with and without the lock. *)
Definition AddEntity (tb : BatchMap) (sp : FSpatialEntityBatch) (p : EntityPtr)
    : BatchMap * FSpatialEntityBatch :=
  match Deref tb p with
  | None => (tb, sp)
  | Some e =>
      if Nat.eqb (Object e) 0 then (tb, sp)
      else
        let GridCell := CalculateGridCell (GridCellSize sp) (Position e) in
        (WriteEntity tb p (fun e => set_SpatialBucketId e GridCell),
         set_Grid sp (CellAdd GridCell p (GridCells sp))
                  (AllSpatialEntities sp ++ [p]))
  end.

Definition RemoveEntity (tb : BatchMap) (sp : FSpatialEntityBatch) (p : EntityPtr)
    : FSpatialEntityBatch :=
  match Deref tb p with
  | None => sp
  | Some e =>
      if Nat.eqb (Object e) 0 then sp
      else
        let GridCell := SpatialBucketId e in
        let cells :=
          match FindCell GridCell (GridCells sp) with
          | None => GridCells sp
          | Some Cell =>
              let Cell' := RemoveItem p Cell in
              if Num Cell' =? 0 then CellRemoveKey GridCell (GridCells sp)
              else CellSet GridCell Cell' (GridCells sp)
          end in
        set_Grid sp cells (RemoveItem p (AllSpatialEntities sp))
  end.

(** The descriptors whose callable [TickAllGrids] calls, cell by cell. *)
Definition TickCell (w : Engine) (tb : BatchMap) (Entities : list EntityPtr)
    : list FTickEntityData :=
  flat_map (fun p =>
    match Deref tb p with
    | None => []
    | Some e =>
        if IsValid w (Object e) && (bEnabled e && TickFunction e) then [e] else []
    end) Entities.

Definition TickAllGrids (w : Engine) (tb : BatchMap) (sp : FSpatialEntityBatch)
    : list FTickEntityData :=
  flat_map (fun kv => TickCell w tb (snd kv)) (GridCells sp).

(** The integers [lo, lo+1, ..., hi]. *)
Definition ZRange (lo hi : Z) : list Z :=
  map (fun k => lo + Z.of_nat k) (seq 0 (Z.to_nat (hi - lo + 1))).

(** The body of the three nested loops for one offset. *)
Definition NeighbourCell (CenterGridId CenterX CenterY CenterZ dx dy dz : Z)
    : list Z :=
  let NbX := CenterX + dx in
  let NbY := CenterY + dy in
  let NbZ := CenterZ + dz in
  if (NbX <? 0) || (NbX >? 63) || (NbY <? 0) || (NbY >? 63)
     || (NbZ <? 0) || (NbZ >? 15)
  then []
  else
    let NbGridId := PackCell NbX NbY NbZ in
    if negb (NbGridId =? CenterGridId) then [NbGridId] else [].

Definition NearbyGrids (CellSize : float) (P : FVector) (Radius : float) : list Z :=
  let CenterGridId := CalculateGridCell CellSize P in
  let GridRadius := CeilToInt (fdiv Radius CellSize) in
  let CenterX := Z.land (Z.shiftr CenterGridId 10) 63 in
  let CenterY := Z.land (Z.shiftr CenterGridId 4) 63 in
  let CenterZ := Z.land CenterGridId 15 in
  let offs := ZRange (- GridRadius) GridRadius in
  CenterGridId ::
  flat_map (fun dx =>
    flat_map (fun dy =>
      flat_map (fun dz =>
        NeighbourCell CenterGridId CenterX CenterY CenterZ dx dy dz) offs) offs) offs.

(** The test applied to each member of a scanned cell. *)
Definition IsNearby (tb : BatchMap) (P : FVector) (Radius : float) (p : EntityPtr)
    : bool :=
  match Deref tb p with
  | None => false
  | Some e =>
      bEnabled e && negb (Nat.eqb (Object e) 0)
      && fle (Distance P (Position e)) Radius
  end.

Definition GetNearbyEntities (tb : BatchMap) (sp : FSpatialEntityBatch)
    (P : FVector) (Radius : float) : list EntityPtr :=
  flat_map (fun GridId =>
    match FindCell GridId (GridCells sp) with
    | None => []
    | Some GridEntities => filter (IsNearby tb P Radius) GridEntities
    end) (NearbyGrids (GridCellSize sp) P Radius).

(** ** UEnhancedTickSystem *)

Record FTickStats := {
  TotalRegisteredEntities : Z;
  ActiveEntities : Z;
  ParallelBatchCount : Z;
  SpatialBatchCount : Z;
  TotalTickTimeMs : Q;
  CacheMissCount : Z
}.

Definition GroupMap := list (ETickingGroup * list UClass).

Record UEnhancedTickSystem := {
  TypeBatches : BatchMap;
  SpatialBatch : FSpatialEntityBatch;
  GroupedBatches : GroupMap;
  BatchesLock : bool;
  PendingRegistrations : list (UObject * Z);
  PendingUnregistrations : list UObject;
  FrameCounter : Z;
  bDebugMode : bool;
  bVerboseDebug : bool;
  Stats : FTickStats
}.

(** The state after the parts of a step that touch batches, grid, phase
    lists and counters. *)
Definition set_Core (s : UEnhancedTickSystem) (tb : BatchMap)
    (sp : FSpatialEntityBatch) (gb : GroupMap) (st : FTickStats) :=
  {| TypeBatches := tb; SpatialBatch := sp; GroupedBatches := gb;
     BatchesLock := BatchesLock s;
     PendingRegistrations := PendingRegistrations s;
     PendingUnregistrations := PendingUnregistrations s;
     FrameCounter := FrameCounter s; bDebugMode := bDebugMode s;
     bVerboseDebug := bVerboseDebug s; Stats := st |}.

Definition set_TypeBatches (s : UEnhancedTickSystem) (tb : BatchMap) :=
  set_Core s tb (SpatialBatch s) (GroupedBatches s) (Stats s).

Definition set_Pending (s : UEnhancedTickSystem) (regs : list (UObject * Z))
    (unregs : list UObject) :=
  {| TypeBatches := TypeBatches s; SpatialBatch := SpatialBatch s;
     GroupedBatches := GroupedBatches s; BatchesLock := BatchesLock s;
     PendingRegistrations := regs; PendingUnregistrations := unregs;
     FrameCounter := FrameCounter s; bDebugMode := bDebugMode s;
     bVerboseDebug := bVerboseDebug s; Stats := Stats s |}.

Definition set_FrameCounter (s : UEnhancedTickSystem) (n : Z) :=
  {| TypeBatches := TypeBatches s; SpatialBatch := SpatialBatch s;
     GroupedBatches := GroupedBatches s; BatchesLock := BatchesLock s;
     PendingRegistrations := PendingRegistrations s;
     PendingUnregistrations := PendingUnregistrations s;
     FrameCounter := n; bDebugMode := bDebugMode s;
     bVerboseDebug := bVerboseDebug s; Stats := Stats s |}.

Definition ZeroStats : FTickStats :=
  {| TotalRegisteredEntities := 0; ActiveEntities := 0; ParallelBatchCount := 0;
     SpatialBatchCount := 0; TotalTickTimeMs := 0; CacheMissCount := 0 |}.

Definition TickOrder : list ETickingGroup :=
  [TG_PrePhysics; TG_StartPhysics; TG_DuringPhysics; TG_EndPhysics;
   TG_PostPhysics; TG_PostUpdateWork; TG_LastDemotable].

(** The constructor followed by [Initialize]. *)
Definition NewSystem : UEnhancedTickSystem :=
  {| TypeBatches := [];
     SpatialBatch := {| GridCellSize := float_lit 2000; GridCells := [];
                        AllSpatialEntities := []; SpatialLock := true |};
     GroupedBatches := map (fun g => (g, [])) TickOrder;
     BatchesLock := true;
     PendingRegistrations := []; PendingUnregistrations := [];
     FrameCounter := 0; bDebugMode := false; bVerboseDebug := false;
     Stats := ZeroStats |}.

Fixpoint FindGroup (g : ETickingGroup) (gb : GroupMap) : option (list UClass) :=
  match gb with
  | [] => None
  | (k, v) :: tl => if ETickingGroup_eqb k g then Some v else FindGroup g tl
  end.

(** [GroupedBatches.FindOrAdd(Group).Add(&Batch)]. *)
Fixpoint GroupAdd (g : ETickingGroup) (c : UClass) (gb : GroupMap) : GroupMap :=
  match gb with
  | [] => [(g, [c])]
  | (k, v) :: tl =>
      if ETickingGroup_eqb k g then (k, v ++ [c]) :: tl else (k, v) :: GroupAdd g c tl
  end.

(** *** Registration entry points: they only enqueue *)

Definition RegisterComponent (w : Engine) (s : UEnhancedTickSystem)
    (Component : UObject) (F : Z) : UEnhancedTickSystem :=
  if negb (IsValid w Component) then s
  else
    let F :=
      if (IsA w Component USceneComponent || IsA w Component UPrimitiveComponent
          || IsA w Component UCharacterMovementComponent)
         && EnumHasAnyFlags F UseParallel
      then ClearFlag F UseParallel else F in
    set_Pending s (PendingRegistrations s ++ [(Component, F)])
                (PendingUnregistrations s).

Definition UnregisterComponent (w : Engine) (s : UEnhancedTickSystem)
    (Component : UObject) : UEnhancedTickSystem :=
  if negb (IsValid w Component) then s
  else set_Pending s (PendingRegistrations s) (PendingUnregistrations s ++ [Component]).

(** *** The flush *)

Definition bump_TotalRegistered (st : FTickStats) (d : Z) : FTickStats :=
  {| TotalRegisteredEntities := int32 (TotalRegisteredEntities st + d);
     ActiveEntities := ActiveEntities st;
     ParallelBatchCount := ParallelBatchCount st;
     SpatialBatchCount := SpatialBatchCount st;
     TotalTickTimeMs := TotalTickTimeMs st; CacheMissCount := CacheMissCount st |}.

Definition IsEmpty (n : string) : bool :=
  match n with EmptyString => true | _ => false end.

(** The part common to the component and the actor branch, once the class,
    the tick group, the callable of a new batch and the descriptor are
    known. *)
Definition AddToBatch (s : UEnhancedTickSystem) (w : Engine) (Class : UClass)
    (Group : ETickingGroup) (d : BatchDispatcher) (F : Z)
    (EntityData : FTickEntityData) : UEnhancedTickSystem :=
  let tb := FindOrAddBatch Class (TypeBatches s) in
  let fresh :=
    match FindBatch Class tb with
    | Some Batch => IsEmpty (TypeName Batch)
    | None => false
    end in
  let tb :=
    if fresh
    then UpdateBatch Class (fun b => InitBatch b (ClassName w Class) Group F d) tb
    else tb in
  let gb :=
    if fresh
    then match FindBatch Class tb with
         | Some Batch => GroupAdd (TickGroup Batch) Class (GroupedBatches s)
         | None => GroupedBatches s
         end
    else GroupedBatches s in
  let last :=
    match FindBatch Class tb with
    | Some Batch => List.length (TickEntities Batch)
    | None => O
    end in
  let tb := UpdateBatch Class
              (fun b => set_TickEntities b (TickEntities b ++ [EntityData])) tb in
  let '(tb, sp) :=
    if EnumHasAnyFlags F SpatialAware && SpatialLock (SpatialBatch s)
    then AddEntity tb (SpatialBatch s) (SlotAt Class last)
    else (tb, SpatialBatch s) in
  set_Core s tb sp gb (bump_TotalRegistered (Stats s) 1).

(** One iteration of the loop over [PendingRegistrations]. *)
Definition ProcessRegistration (w : Engine) (s : UEnhancedTickSystem)
    (RegPair : UObject * Z) : UEnhancedTickSystem :=
  let '(Obj, F) := RegPair in
  if negb (IsValid w Obj) then s
  else if Cast w UActorComponent Obj then
    let ComponentClass := GetClass w Obj in
    if negb (negb (Nat.eqb ComponentClass 0) && ClassIsValid w ComponentClass) then s
    else
      let Pos := if negb (Nat.eqb (GetOwner w Obj) 0)
                 then GetActorLocation w (GetOwner w Obj) else ZeroVector in
      AddToBatch s w ComponentClass (ComponentTickGroup w Obj)
        (if IsChildOf w ComponentClass UCharacterMovementComponent
         then CharacterMovementTick else GenericTick) F
        {| Object := Obj; TickFunction := true; Position := Pos;
           SpatialBucketId :=
             CalculateGridCell (GridCellSize (SpatialBatch s)) Pos;
           Priority :=
             if ETickingGroup_eqb (ComponentTickGroup w Obj) TG_PostPhysics
             then 200 else 100;
           bEnabled := IsActive w Obj |}
  else if Cast w AActor Obj then
    let ActorClass := GetClass w Obj in
    if negb (negb (Nat.eqb ActorClass 0) && ClassIsValid w ActorClass) then s
    else
      let Pos := GetActorLocation w Obj in
      AddToBatch s w ActorClass (ActorTickGroup w Obj) ActorTick F
        {| Object := Obj; TickFunction := true; Position := Pos;
           SpatialBucketId :=
             CalculateGridCell (GridCellSize (SpatialBatch s)) Pos;
           Priority := 100;
           bEnabled := IsActorTickEnabled w Obj |}
  else s.

(** The index of the first descriptor of [Obj], the [i] at which the inner
    loop of the unregistration breaks. *)
Fixpoint FindObject (Obj : UObject) (l : list FTickEntityData) (i : nat)
    : option nat :=
  match l with
  | [] => None
  | e :: tl => if Nat.eqb (Object e) Obj then Some i else FindObject Obj tl (S i)
  end.

(** The body of the loop over [TypeBatches] for one batch. *)
Definition UnregisterFromBatch (Obj : UObject) (s : UEnhancedTickSystem)
    (Class : UClass) : UEnhancedTickSystem :=
  match FindBatch Class (TypeBatches s) with
  | None => s
  | Some Batch =>
      match FindObject Obj (TickEntities Batch) 0 with
      | None => s
      | Some i =>
          let sp :=
            if SpatialLock (SpatialBatch s)
            then RemoveEntity (TypeBatches s) (SpatialBatch s) (SlotAt Class i)
            else SpatialBatch s in
          let tb := UpdateBatch Class
                      (fun b => set_TickEntities b (RemoveAt i (TickEntities b)))
                      (TypeBatches s) in
          set_Core s tb sp (GroupedBatches s) (bump_TotalRegistered (Stats s) (-1))
      end
  end.

(** One iteration of the loop over [PendingUnregistrations]. *)
Definition ProcessUnregistration (w : Engine) (s : UEnhancedTickSystem)
    (Obj : UObject) : UEnhancedTickSystem :=
  if negb (IsValid w Obj) then s
  else fold_left (UnregisterFromBatch Obj) (map fst (TypeBatches s)) s.

Definition ProcessRegistrations (w : Engine) (s : UEnhancedTickSystem)
    : UEnhancedTickSystem :=
  fold_left (ProcessRegistration w) (PendingRegistrations s) s.

Definition ProcessUnregistrations (w : Engine) (s : UEnhancedTickSystem)
    : UEnhancedTickSystem :=
  fold_left (ProcessUnregistration w) (PendingUnregistrations s) s.

Definition ProcessDeferredOperationsImpl (w : Engine) (s : UEnhancedTickSystem)
    : UEnhancedTickSystem :=
  let s := ProcessRegistrations w s in
  let s := ProcessUnregistrations w s in
  set_Pending s [] [].

(** With or without [BatchesLock] the same code runs. *)
Definition ProcessDeferredOperations (w : Engine) (s : UEnhancedTickSystem)
    : UEnhancedTickSystem :=
  ProcessDeferredOperationsImpl w s.

(** *** UpdateConditionalTicks *)

Definition RefreshEnabled (w : Engine) (e : FTickEntityData) : FTickEntityData :=
  if negb (IsValid w (Object e)) then set_bEnabled e false
  else if Cast w UActorComponent (Object e) then set_bEnabled e (IsActive w (Object e))
  else if Cast w AActor (Object e)
       then set_bEnabled e (IsValid w (Object e) && IsActorTickEnabled w (Object e))
  else e.

Definition UpdateConditionalTicks (w : Engine) (s : UEnhancedTickSystem)
    : UEnhancedTickSystem :=
  set_TypeBatches s
    (map (fun kb =>
            if negb (EnumHasAnyFlags (Flags (snd kb)) Conditional) then kb
            else (fst kb,
                  set_TickEntities (snd kb)
                    (map (RefreshEnabled w) (TickEntities (snd kb)))))
         (TypeBatches s)).

(** *** SortBatchesByPriority *)

(** The predicate handed to [Sort]. *)
Definition PriorityBefore (A B : FComponentTypeBatch) : bool :=
  let bAHighPrio := EnumHasAnyFlags (Flags A) HighPrio in
  let bBHighPrio := EnumHasAnyFlags (Flags B) HighPrio in
  if negb (Bool.eqb bAHighPrio bBHighPrio)
  then bAHighPrio && negb bBHighPrio
  else
    let bALowPrio := EnumHasAnyFlags (Flags A) LowPrio in
    let bBLowPrio := EnumHasAnyFlags (Flags B) LowPrio in
    if negb (Bool.eqb bALowPrio bBLowPrio)
    then negb bALowPrio && bBLowPrio
    else Num (TickEntities A) >? Num (TickEntities B).

(** The batch a pointer of a phase list refers to. *)
Definition BatchAt (tb : BatchMap) (c : UClass) : FComponentTypeBatch :=
  match FindBatch c tb with
  | Some b => b
  | None => DefaultBatch
  end.

Definition SortBatchesByPriority (w : Engine) (s : UEnhancedTickSystem)
    : UEnhancedTickSystem :=
  set_Core s (TypeBatches s) (SpatialBatch s)
    (map (fun GroupPair =>
            (fst GroupPair,
             ArraySort w (fun a b => PriorityBefore (BatchAt (TypeBatches s) a)
                                                   (BatchAt (TypeBatches s) b))
                       (snd GroupPair)))
         (GroupedBatches s))
    (Stats s).

(** *** The optimizer *)

Definition set_Counts (st : FTickStats) (par spa : Z) : FTickStats :=
  {| TotalRegisteredEntities := TotalRegisteredEntities st;
     ActiveEntities := ActiveEntities st;
     ParallelBatchCount := par; SpatialBatchCount := spa;
     TotalTickTimeMs := TotalTickTimeMs st; CacheMissCount := CacheMissCount st |}.

(** The first test of [AnalyzeCurrentState]. *)
Definition WorthParallel (b : FComponentTypeBatch) : bool :=
  Qltb 1000 (AverageTickTimeNs b) && (Num (TickEntities b) >? 10).

(** The body of the loop of [AnalyzeCurrentState] on one batch. *)
Definition AnalyzeBatch (b : FComponentTypeBatch) : FComponentTypeBatch :=
  let b := if WorthParallel b then set_Flags b (SetFlag (Flags b) UseParallel) else b in
  let b := if Num (TickEntities b) <? 5 then set_bSortByCacheLocality b false else b in
  if Qltb (AverageTickTimeNs b) 100 && negb (EnumHasAnyFlags (Flags b) HighPrio)
  then set_Flags b (SetFlag (Flags b) LowPrio)
  else b.

Definition AnalyzeCurrentState (s : UEnhancedTickSystem) : UEnhancedTickSystem :=
  set_Core s
    (map (fun kb => (fst kb, AnalyzeBatch (snd kb))) (TypeBatches s))
    (SpatialBatch s) (GroupedBatches s)
    (set_Counts (Stats s)
       (int32 (ParallelBatchCount (Stats s)
               + Num (filter (fun kb => WorthParallel (snd kb)) (TypeBatches s))))
       (SpatialBatchCount (Stats s))).

(** The loop that moves the entities of a newly spatial batch into the
    grid: [&Entity] is the slot of the batch. *)
Definition MoveToGrid (w : Engine) (Class : UClass)
    (st : BatchMap * FSpatialEntityBatch) (i : nat) : BatchMap * FSpatialEntityBatch :=
  match Deref (fst st) (SlotAt Class i) with
  | None => st
  | Some e =>
      if IsActiveEntity w e && SpatialLock (snd st)
      then AddEntity (fst st) (snd st) (SlotAt Class i)
      else st
  end.

Definition HintBatch (w : Engine) (s : UEnhancedTickSystem) (Class : UClass)
    : UEnhancedTickSystem :=
  match FindBatch Class (TypeBatches s) with
  | None => s
  | Some Batch =>
      if negb (negb (Nat.eqb Class 0) && ClassIsValid w Class) then s
      else
        let bIsSpatialComponent :=
          IsChildOf w Class UPrimitiveComponent
          || IsChildOf w Class UAIPerceptionComponent
          || NameContains w Class "Spatial"%string
          || NameContains w Class "Physics"%string in
        if bIsSpatialComponent && negb (EnumHasAnyFlags (Flags Batch) SpatialAware)
        then
          let tb := UpdateBatch Class
                      (fun b => set_Flags b (SetFlag (Flags b) SpatialAware))
                      (TypeBatches s) in
          let '(tb, sp) :=
            fold_left (MoveToGrid w Class)
                      (seq 0 (List.length (TickEntities Batch)))
                      (tb, SpatialBatch s) in
          set_Core s tb sp (GroupedBatches s)
            (set_Counts (Stats s) (ParallelBatchCount (Stats s))
                        (int32 (SpatialBatchCount (Stats s) + 1)))
        else s
  end.

Definition ApplyOptimizationHints (w : Engine) (s : UEnhancedTickSystem)
    : UEnhancedTickSystem :=
  fold_left (HintBatch w) (map fst (TypeBatches s)) s.

Definition OptimizeCharacterMovementBatch (b : FComponentTypeBatch)
    : FComponentTypeBatch :=
  let b := set_BatchTickFunction b (Some CharacterMovementTick) in
  let b := set_Flags b (ClearFlag (Flags b) UseParallel) in
  set_Flags b (SetFlag (Flags b) SpatialAware).

Definition OptimizeAIPerceptionBatch (b : FComponentTypeBatch)
    : FComponentTypeBatch :=
  let b := set_BatchTickFunction b (Some AIPerceptionTick) in
  set_Flags b (SetFlag (Flags b) SpatialAware).

(** The last loop of [OptimizeBatches] on one batch. *)
Definition SpecializeBatch (w : Engine) (Class : UClass) (b : FComponentTypeBatch)
    : FComponentTypeBatch :=
  if IsChildOf w Class UCharacterMovementComponent
  then OptimizeCharacterMovementBatch b
  else if IsChildOf w Class UAIPerceptionComponent
  then OptimizeAIPerceptionBatch b
  else b.

Definition OptimizeBatches (w : Engine) (s : UEnhancedTickSystem)
    : UEnhancedTickSystem :=
  let s := AnalyzeCurrentState s in
  let s := ApplyOptimizationHints w s in
  set_TypeBatches s
    (map (fun kb => (fst kb, SpecializeBatch w (fst kb) (snd kb))) (TypeBatches s)).

(** *** TickGroupBatches and Tick *)

(** One entry per call of [TickBatch] or [TickBatchParallel] made by the
    orchestrator: the batch and the descriptors whose update was called. *)
Definition BatchLog := list (UClass * list FTickEntityData).

Definition UpdateBatchProfilingData (st : FTickStats) (Batch : FComponentTypeBatch)
    (ExecutionTimeMs : Q) : FTickStats :=
  {| TotalRegisteredEntities := TotalRegisteredEntities st;
     ActiveEntities := int32 (ActiveEntities st + LastFrameTickCount Batch);
     ParallelBatchCount := ParallelBatchCount st;
     SpatialBatchCount := SpatialBatchCount st;
     TotalTickTimeMs := TotalTickTimeMs st + ExecutionTimeMs;
     CacheMissCount := CacheMissCount st |}.

(** The body of the loop of [TickGroupBatches] for one batch pointer. *)
Definition TickOneBatch (w : Engine) (acc : UEnhancedTickSystem * BatchLog)
    (c : UClass) : UEnhancedTickSystem * BatchLog :=
  let '(s, log) := acc in
  match FindBatch c (TypeBatches s) with
  | None => acc
  | Some Batch =>
      if EnumHasAnyFlags (Flags Batch) LowPrio
         && negb (Z.rem (FrameCounter s) 3 =? 0)
      then acc
      else
        let '(Batch', invoked) :=
          if CanTickInParallel Batch && (Num (TickEntities Batch) >? 10)
          then TickBatchParallel w (ElapsedNs w c) Batch
          else TickBatch w (ElapsedNs w c) Batch in
        (set_Core s (UpdateBatch c (fun _ => Batch') (TypeBatches s))
                  (SpatialBatch s) (GroupedBatches s)
                  (UpdateBatchProfilingData (Stats s) Batch'
                     (AverageTickTimeNs Batch' / 1000000)),
         log ++ [(c, invoked)])
  end.

Definition TickGroupBatches (w : Engine) (acc : UEnhancedTickSystem * BatchLog)
    (Group : ETickingGroup) : UEnhancedTickSystem * BatchLog :=
  match FindGroup Group (GroupedBatches (fst acc)) with
  | None => acc
  | Some Batches => fold_left (TickOneBatch w) Batches acc
  end.

Record FrameLog := {
  BatchTicks : BatchLog;
  GridTicks : list FTickEntityData
}.

(** The first four steps of [Tick]: counter, flush, conditional refresh,
    sort. *)
Definition BeginFrame (w : Engine) (s : UEnhancedTickSystem) : UEnhancedTickSystem :=
  let s := set_FrameCounter s (Z.rem (FrameCounter s + 1) 1000) in
  let s := ProcessDeferredOperations w s in
  let s := UpdateConditionalTicks w s in
  SortBatchesByPriority w s.

Definition Tick (w : Engine) (s : UEnhancedTickSystem)
    : UEnhancedTickSystem * FrameLog :=
  let s := BeginFrame w s in
  let '(s, log) := fold_left (TickGroupBatches w) TickOrder (s, []) in
  let grid :=
    if negb (Num (GridCells (SpatialBatch s)) =? 0) && SpatialLock (SpatialBatch s)
    then TickAllGrids w (TypeBatches s) (SpatialBatch s)
    else [] in
  let s := if Z.rem (FrameCounter s) 300 =? 0 then OptimizeBatches w s else s in
  (s, {| BatchTicks := log; GridTicks := grid |}).

(** A run of consecutive frames, one engine snapshot per frame; the result
    keeps, for each frame, the state in which its phases started and its
    log. *)
Fixpoint RunFrames (ws : list Engine) (s : UEnhancedTickSystem)
    : list (UEnhancedTickSystem * FrameLog) :=
  match ws with
  | [] => []
  | w :: tl => (BeginFrame w s, snd (Tick w s)) :: RunFrames tl (fst (Tick w s))
  end.

(** The 0-indexed frames of a run in which the orchestrator ticked the
    batch of class [c]. *)
Definition TickedIn (c : UClass) (l : FrameLog) : bool :=
  existsb (fun e => Nat.eqb (fst e) c) (BatchTicks l).

Fixpoint FramesTicking (c : UClass) (k : nat) (logs : list FrameLog) : list nat :=
  match logs with
  | [] => []
  | l :: tl =>
      if TickedIn c l then k :: FramesTicking c (S k) tl
      else FramesTicking c (S k) tl
  end.

(** ** Vocabulary of the statements *)

(** A chain in which every element is a nearest one among those not yet
    placed. *)
Fixpoint Chained (L : FTickEntityData) (l : list FTickEntityData) : Prop :=
  match l with
  | [] => True
  | x :: tl =>
      (forall y, In y l -> flt (GetDistance L y) (GetDistance L x) = false)
      /\ Chained x tl
  end.

(** The batch is due in this frame: it exists and, if it is flagged
    low-priority, the frame counter is a multiple of 3. *)
Definition DueThisFrame (s : UEnhancedTickSystem) (c : UClass) : bool :=
  match FindBatch c (TypeBatches s) with
  | None => false
  | Some Batch =>
      negb (EnumHasAnyFlags (Flags Batch) LowPrio
            && negb (Z.rem (FrameCounter s) 3 =? 0))
  end.

Definition GroupList (s : UEnhancedTickSystem) (g : ETickingGroup) : list UClass :=
  match FindGroup g (GroupedBatches s) with
  | Some l => l
  | None => []
  end.

(** What the phase loop leaves alone. *)
Definition SameSchedule (s s' : UEnhancedTickSystem) : Prop :=
  FrameCounter s' = FrameCounter s
  /\ GroupedBatches s' = GroupedBatches s
  /\ forall c, option_map Flags (FindBatch c (TypeBatches s'))
               = option_map Flags (FindBatch c (TypeBatches s)).

(** What [TArray::Sort] promises for a predicate that is a strict weak
    ordering: the array is rearranged so that no element goes before an
    earlier one. Nothing is promised on the relative order of elements
    neither of which goes before the other. *)
Definition StrictWeak {A : Type} (before : A -> A -> bool) : Prop :=
  (forall x y, before x y = true -> before y x = false)
  /\ (forall x y z, before x y = false -> before y z = false -> before x z = false).

Definition SortContract (w : Engine) : Prop :=
  forall (before : UClass -> UClass -> bool) (l : list UClass),
    StrictWeak before ->
    Permutation (ArraySort w before l) l
    /\ StronglySorted (fun a b => before b a = false) (ArraySort w before l).

(** The objects of the descriptors of the batch of a class, in array
    order; no batch, no descriptors. *)
Definition ObjectsOf (tb : BatchMap) (c : UClass) : list UObject :=
  match FindBatch c tb with
  | Some b => map Object (TickEntities b)
  | None => []
  end.

(** The number of descriptors of an object in the batch of a class. *)
Definition DescriptorsOf (tb : BatchMap) (c : UClass) (o : UObject) : nat :=
  count_occ Nat.eq_dec (ObjectsOf tb c) o.

Fixpoint RemoveFirst (o : UObject) (l : list UObject) : list UObject :=
  match l with
  | [] => []
  | x :: tl => if Nat.eqb x o then tl else x :: RemoveFirst o tl
  end.

(** The flush will build a descriptor for the object: it is live, it is a
    component or an actor, and its class is live. *)
Definition Registrable (w : Engine) (o : UObject) : bool :=
  IsValid w o
  && (Cast w UActorComponent o || Cast w AActor o)
  && (negb (Nat.eqb (GetClass w o) 0) && ClassIsValid w (GetClass w o)).

End Model.

(** ** A concrete arithmetic and a concrete engine, for evaluation *)

(** Positions on the integer lattice, [float] as exact rationals, and the
    distance rounded down to a whole unit. *)
#[export] Instance LatticeFloat : FloatOps := {|
  FVector := Z * Z * Z;
  float := Q;
  ZeroVector := (0, 0, 0);
  VecX := fun p => inject_Z (fst (fst p));
  VecY := fun p => inject_Z (snd (fst p));
  VecZ := fun p => inject_Z (snd p);
  Distance := fun p q =>
    let dx := fst (fst q) - fst (fst p) in
    let dy := snd (fst q) - snd (fst p) in
    let dz := snd q - snd p in
    inject_Z (Z.sqrt (dx * dx + dy * dy + dz * dz));
  flt := Qltb;
  fle := Qle_bool;
  fdiv := Qdiv;
  FloorToInt := Qfloor;
  CeilToInt := Qceiling;
  float_lit := inject_Z
|}.

(** Insertion sort, standing for [TArray::Sort] in the examples. *)
Fixpoint InsertSorted {A : Type} (before : A -> A -> bool) (x : A) (l : list A)
    : list A :=
  match l with
  | [] => [x]
  | y :: tl => if before y x then y :: InsertSorted before x tl else x :: y :: tl
  end.

Fixpoint InsertionSort {A : Type} (before : A -> A -> bool) (l : list A) : list A :=
  match l with
  | [] => []
  | x :: tl => InsertSorted before x (InsertionSort before tl)
  end.

(** Objects 1, 2, 3, ... are live actor components of class 7, attached to
    actor 100; object [n] sits at [(10 n, 0, 0)]; objects from 50 on are
    inactive. The clock reads [now] seconds and the machine has four
    workers. *)
Definition DemoEngine (now : Q) : Engine :=
  {| ObjectIsValid := fun _ => true;
     ClassIsValid := fun _ => true;
     GetClass := fun _ => 7%nat;
     IsChildOf := fun _ T => match T with UActorComponent => true | _ => false end;
     ClassName := fun _ => "UDemoComponent"%string;
     NameContains := fun _ _ => false;
     IsActive := fun o => Nat.ltb o 50;
     IsActorTickEnabled := fun _ => true;
     GetOwner := fun _ => 100%nat;
     GetActorLocation := fun _ => (0, 0, 0);
     ComponentTickGroup := fun _ => TG_PrePhysics;
     ActorTickGroup := fun _ => TG_PrePhysics;
     CurrentTime := now;
     ElapsedNs := fun _ => 5000 # 1;
     NumberOfWorkerThreadsToSpawn := 4;
     ArraySort := @InsertionSort UClass |}.

Definition DemoEntity (o : UObject) (x : Z) (en : bool) : FTickEntityData :=
  {| Object := o; TickFunction := true; Position := (x, 0, 0);
     SpatialBucketId := 0; Priority := 100; bEnabled := en |}.

Definition DemoBatch (F : Z) (l : list FTickEntityData) : FComponentTypeBatch :=
  {| TypeName := "UDemoComponent"%string; Flags := F; BatchLock := true;
     TickEntities := l; BatchTickFunction := Some GenericTick;
     TickGroup := TG_PrePhysics; AverageTickTimeNs := 0;
     LastFrameTickCount := 0; bSortByCacheLocality := true |}.

(** A system holding the given batches, all in the first phase. *)
Definition DemoSystem (tb : BatchMap) : UEnhancedTickSystem :=
  {| TypeBatches := tb;
     SpatialBatch := SpatialBatch NewSystem;
     GroupedBatches := [(TG_PrePhysics, map fst tb)];
     BatchesLock := true;
     PendingRegistrations := []; PendingUnregistrations := [];
     FrameCounter := 0; bDebugMode := false; bVerboseDebug := false;
     Stats := ZeroStats |}.

(** A fresh system in which component 1 has been registered as
    low-priority, and a run of nine frames of it. *)
Definition ThrottleStart : UEnhancedTickSystem :=
  RegisterComponent (DemoEngine 100) NewSystem 1%nat LowPrio.

Definition ThrottleRun : list (UEnhancedTickSystem * FrameLog) :=
  RunFrames (repeat (DemoEngine 100) 9) ThrottleStart.

(** Components 1 and 2, both spatially aware, registered and then both
    unregistered before the flush. *)
Definition TwoInTwoOut : UEnhancedTickSystem :=
  let w := DemoEngine 100 in
  UnregisterComponent w
    (UnregisterComponent w
       (RegisterComponent w (RegisterComponent w NewSystem 1%nat SpatialAware)
                          2%nat SpatialAware)
       1%nat)
    2%nat.


(** Two batches with the same flags: class 1 holds two entities, both
    ticked in the last frame; class 2 holds three, one of them ticked. *)
Definition TieBatches : BatchMap :=
  [(1%nat, set_LastFrameTickCount
             (DemoBatch FlagNone [DemoEntity 1%nat 0 true; DemoEntity 2%nat 0 true]) 2);
   (2%nat, set_LastFrameTickCount
             (DemoBatch FlagNone [DemoEntity 3%nat 0 true; DemoEntity 4%nat 0 false;
                                  DemoEntity 5%nat 0 false]) 1)].

(** A grid over one batch whose only entity is disabled and sits at the
    origin, in cell 0. *)
Definition DisabledInGrid : BatchMap * FSpatialEntityBatch :=
  ([(7%nat, DemoBatch FlagNone [DemoEntity 1%nat 0 false])],
   {| GridCellSize := float_lit 2000; GridCells := [(0, [SlotAt 7 0])];
      AllSpatialEntities := [SlotAt 7 0]; SpatialLock := true |}).

Definition TwentyEntities : list FTickEntityData :=
  map (fun k => DemoEntity (S k) (Z.of_nat k) true) (seq 0 20).

(** ** The cell coordinates packed in a grid id

    [GetNearbyEntities] takes the three coordinates back out of a grid id
    with these shifts and masks. *)
Definition CellXOf (GridId : Z) : Z := Z.land (Z.shiftr GridId 10) 63.
Definition CellYOf (GridId : Z) : Z := Z.land (Z.shiftr GridId 4) 63.
Definition CellZOf (GridId : Z) : Z := Z.land GridId 15.

(** ** UTickAggregatorSubsystem

    Source: Source/TickAggregator/Private/TickAggregatorSubsystem.cpp.
    The subsystem keeps, per tick group, an array of weak pointers to
    components and one to actors, and ticks them phase by phase. *)

Record AggregatorEngine := {
  (** [IsValid(Object)] for a non-null object *)
  AggObjectIsValid : nat -> bool;
  (** [TWeakObjectPtr::Get() != nullptr] *)
  WeakGet : nat -> bool;
  (** [PrimaryComponentTick.TickGroup], [PrimaryActorTick.TickGroup] *)
  AggComponentTickGroup : nat -> ETickingGroup;
  AggActorTickGroup : nat -> ETickingGroup;
  (** [Actor->GetRootComponent() != nullptr] *)
  HasRootComponent : nat -> bool
}.

Definition AggGroupMap := list (ETickingGroup * list nat).

Record UTickAggregatorSubsystem := {
  GroupedComponents : AggGroupMap;
  GroupedActors : AggGroupMap;
  bDebug : bool
}.

Definition AggIsValid (w : AggregatorEngine) (o : nat) : bool :=
  negb (Nat.eqb o 0) && AggObjectIsValid w o.

Definition AllGroups : list ETickingGroup :=
  [TG_PrePhysics; TG_StartPhysics; TG_DuringPhysics; TG_EndPhysics;
   TG_PostPhysics; TG_PostUpdateWork; TG_LastDemotable].

(** The constructor. *)
Definition NewAggregator : UTickAggregatorSubsystem :=
  {| GroupedComponents := map (fun g => (g, [])) AllGroups;
     GroupedActors := map (fun g => (g, [])) AllGroups;
     bDebug := false |}.

Fixpoint AggFind (g : ETickingGroup) (m : AggGroupMap) : option (list nat) :=
  match m with
  | [] => None
  | (k, v) :: tl => if ETickingGroup_eqb k g then Some v else AggFind g tl
  end.

(** The array of a group; a group without an entry has none. *)
Definition AggList (m : AggGroupMap) (g : ETickingGroup) : list nat :=
  match AggFind g m with
  | Some l => l
  | None => []
  end.

(** [TArray::AddUnique]. *)
Definition AddUnique (o : nat) (l : list nat) : list nat :=
  if existsb (Nat.eqb o) l then l else l ++ [o].

(** [Map.FindOrAdd(TickGroup).AddUnique(Object)]. *)
Fixpoint AggAddUnique (g : ETickingGroup) (o : nat) (m : AggGroupMap) : AggGroupMap :=
  match m with
  | [] => [(g, [o])]
  | (k, v) :: tl =>
      if ETickingGroup_eqb k g then (k, AddUnique o v) :: tl
      else (k, v) :: AggAddUnique g o tl
  end.

(** The loop [for (auto& Pair : Map) Pair.Value.Remove(Object)]. *)
Definition AggRemoveAll (o : nat) (m : AggGroupMap) : AggGroupMap :=
  map (fun kv => (fst kv, filter (fun x => negb (Nat.eqb x o)) (snd kv))) m.

Definition GetComponentTickGroup (w : AggregatorEngine) (Component : nat)
    : ETickingGroup :=
  if AggIsValid w Component then AggComponentTickGroup w Component
  else TG_PrePhysics.

Definition GetActorTickGroup (w : AggregatorEngine) (Actor : nat) : ETickingGroup :=
  if AggIsValid w Actor && HasRootComponent w Actor then AggActorTickGroup w Actor
  else TG_PrePhysics.

Definition RegisterTickableComponent (w : AggregatorEngine)
    (s : UTickAggregatorSubsystem) (Component : nat) : UTickAggregatorSubsystem :=
  if AggIsValid w Component
  then {| GroupedComponents :=
            AggAddUnique (GetComponentTickGroup w Component) Component
                         (GroupedComponents s);
          GroupedActors := GroupedActors s; bDebug := bDebug s |}
  else s.

Definition UnregisterTickableComponent (w : AggregatorEngine)
    (s : UTickAggregatorSubsystem) (Component : nat) : UTickAggregatorSubsystem :=
  if AggIsValid w Component
  then {| GroupedComponents := AggRemoveAll Component (GroupedComponents s);
          GroupedActors := GroupedActors s; bDebug := bDebug s |}
  else s.

Definition RegisterTickableActor (w : AggregatorEngine)
    (s : UTickAggregatorSubsystem) (Actor : nat) : UTickAggregatorSubsystem :=
  if AggIsValid w Actor
  then {| GroupedComponents := GroupedComponents s;
          GroupedActors :=
            AggAddUnique (GetActorTickGroup w Actor) Actor (GroupedActors s);
          bDebug := bDebug s |}
  else s.

Definition UnregisterTickableActor (w : AggregatorEngine)
    (s : UTickAggregatorSubsystem) (Actor : nat) : UTickAggregatorSubsystem :=
  if AggIsValid w Actor
  then {| GroupedComponents := GroupedComponents s;
          GroupedActors := AggRemoveAll Actor (GroupedActors s);
          bDebug := bDebug s |}
  else s.

(** The bulk entry points run the same body for every element. *)
Definition RegisterTickableActors (w : AggregatorEngine)
    (s : UTickAggregatorSubsystem) (Actors : list nat) : UTickAggregatorSubsystem :=
  fold_left (RegisterTickableActor w) Actors s.

Definition RegisterTickableComponents (w : AggregatorEngine)
    (s : UTickAggregatorSubsystem) (Components : list nat)
    : UTickAggregatorSubsystem :=
  fold_left (RegisterTickableComponent w) Components s.

Definition ShowDebug (s : UTickAggregatorSubsystem) (Debug : bool)
    : UTickAggregatorSubsystem :=
  {| GroupedComponents := GroupedComponents s; GroupedActors := GroupedActors s;
     bDebug := Debug |}.

(** What a tick calls: [TickComponent] of a component or [Tick] of an
    actor. *)
Inductive AggCall :=
| CallTickComponent (Component : nat)
| CallActorTick (Actor : nat).

(** [TickGroupObjects]: the components of the group whose weak pointer
    still resolves, then the actors. *)
Definition TickGroupObjects (w : AggregatorEngine) (s : UTickAggregatorSubsystem)
    (Group : ETickingGroup) : list AggCall :=
  (match AggFind Group (GroupedComponents s) with
   | Some Components => map CallTickComponent (filter (WeakGet w) Components)
   | None => []
   end)
  ++ (match AggFind Group (GroupedActors s) with
      | Some Actors => map CallActorTick (filter (WeakGet w) Actors)
      | None => []
      end).

Definition AggregatorTick (w : AggregatorEngine) (s : UTickAggregatorSubsystem)
    : list AggCall :=
  flat_map (TickGroupObjects w s) AllGroups.

Definition TickGroupToString (TickGroup : ETickingGroup) : string :=
  match TickGroup with
  | TG_PrePhysics => "PrePhysics"
  | TG_StartPhysics => "StartPhysics"
  | TG_DuringPhysics => "DuringPhysics"
  | TG_EndPhysics => "EndPhysics"
  | TG_PostPhysics => "PostPhysics"
  | TG_PostUpdateWork => "PostUpdateWork"
  | TG_LastDemotable => "LastDemotable"
  | _ => "Unknown"
  end%string.

(** Every list of the map is free of duplicates. *)
Definition AggNoDup (m : AggGroupMap) : Prop :=
  forall k v, In (k, v) m -> NoDup v.

(** An engine for the aggregator in which every object is live; objects
    below 10 tick before physics, the others are filed under
    [TG_NewlySpawned]. *)
Definition DemoAggEngine : AggregatorEngine :=
  {| AggObjectIsValid := fun _ => true;
     WeakGet := fun _ => true;
     AggComponentTickGroup :=
       fun o => if Nat.ltb o 10 then TG_PrePhysics else TG_NewlySpawned;
     AggActorTickGroup := fun _ => TG_PostPhysics;
     HasRootComponent := fun _ => true |}.

(** The keys after are the keys before, followed by new ones, and stay
    free of duplicates. *)
Definition KeysGrow {FO : FloatOps} (tb tb' : BatchMap) : Prop :=
  (exists extra, map fst tb' = map fst tb ++ extra)
  /\ (NoDup (map fst tb) -> NoDup (map fst tb')).

(** An engine like [DemoEngine] in which every class derives from every
    engine class the code asks about. *)
Definition AnyClassEngine : Engine :=
  {| ObjectIsValid := fun _ => true;
     ClassIsValid := fun _ => true;
     GetClass := fun _ => 7%nat;
     IsChildOf := fun _ _ => true;
     ClassName := fun _ => "UDemoMovementComponent"%string;
     NameContains := fun _ _ => false;
     IsActive := fun _ => true;
     IsActorTickEnabled := fun _ => true;
     GetOwner := fun _ => 100%nat;
     GetActorLocation := fun _ => (0, 0, 0);
     ComponentTickGroup := fun _ => TG_PrePhysics;
     ActorTickGroup := fun _ => TG_PrePhysics;
     CurrentTime := 100;
     ElapsedNs := fun _ => 5000 # 1;
     NumberOfWorkerThreadsToSpawn := 4;
     ArraySort := @InsertionSort nat |}.

(** One batch of class 7 holding the given entities, and an empty grid. *)
Definition OneBatch (F : Z) (l : list FTickEntityData) : BatchMap :=
  [(7%nat, DemoBatch F l)].

Definition EmptyGrid : FSpatialEntityBatch := SpatialBatch NewSystem.

(** A grid over one batch whose only entity is enabled and sits in
    cell 0. *)
Definition EnabledInGrid : BatchMap * FSpatialEntityBatch :=
  (OneBatch FlagNone [DemoEntity 1%nat 0 true],
   {| GridCellSize := float_lit 2000; GridCells := [(0, [SlotAt 7 0])];
      AllSpatialEntities := [SlotAt 7 0]; SpatialLock := true |}).

(** An engine like [DemoEngine] whose components are character-movement
    components: their class derives from UActorComponent and from
    UCharacterMovementComponent, and from no scene component. *)
Definition MovementEngine : Engine :=
  {| ObjectIsValid := fun _ => true;
     ClassIsValid := fun _ => true;
     GetClass := fun _ => 7%nat;
     IsChildOf := fun _ T =>
       match T with
       | UActorComponent | UCharacterMovementComponent => true
       | _ => false
       end;
     ClassName := fun _ => "UCharacterMovementComponent"%string;
     NameContains := fun _ _ => false;
     IsActive := fun _ => true;
     IsActorTickEnabled := fun _ => true;
     GetOwner := fun _ => 100%nat;
     GetActorLocation := fun _ => (0, 0, 0);
     ComponentTickGroup := fun _ => TG_PrePhysics;
     ActorTickGroup := fun _ => TG_PrePhysics;
     CurrentTime := 100;
     ElapsedNs := fun _ => 5000 # 1;
     NumberOfWorkerThreadsToSpawn := 4;
     ArraySort := @InsertionSort nat |}.

(** A system whose one batch, of class 7, holds twenty entities and has
    a rolling average of 1500 ns. *)
Definition BusyBatch : FComponentTypeBatch :=
  set_AverageTickTimeNs (DemoBatch FlagNone TwentyEntities) 1500.

Definition BusySystem : UEnhancedTickSystem := DemoSystem [(7%nat, BusyBatch)].

(** * Properties *)

Section ListFacts.

Context {A : Type}.

Lemma filter_all (f : A -> bool) (l : list A) :
  (forall x, In x l -> f x = true) -> filter f l = l.
Proof.
  induction l as [|x l IH]; intros H; simpl; [reflexivity|].
  rewrite (H x (or_introl eq_refl)). f_equal. apply IH.
  intros y Hy. apply H. now right.
Qed.

Lemma RemoveAt_perm (d : A) (i : nat) (l : list A) :
  (i < List.length l)%nat -> Permutation (nth i l d :: RemoveAt i l) l.
Proof.
  revert i. induction l as [|x l IH]; intros i Hi; simpl in Hi; [lia|].
  destruct i as [|i]; unfold RemoveAt; simpl.
  - reflexivity.
  - etransitivity; [apply perm_swap|]. apply perm_skip.
    apply IH. lia.
Qed.

Lemma RemoveAt_length (i : nat) (l : list A) :
  (i < List.length l)%nat -> List.length (RemoveAt i l) = pred (List.length l).
Proof.
  intros Hi. unfold RemoveAt.
  rewrite length_app, length_firstn, length_skipn. lia.
Qed.

Lemma firstn_plus (a c : nat) (l : list A) :
  firstn (a + c) l = firstn a l ++ firstn c (skipn a l).
Proof.
  revert l. induction a as [|a IH]; intros l; simpl; [reflexivity|].
  destruct l as [|x l]; simpl.
  - now rewrite firstn_nil.
  - now rewrite IH.
Qed.

End ListFacts.

Section SortForCacheLocalityFacts.

Context {FO : FloatOps}.

Lemma FindClosest_lt (L : FTickEntityData) (rest : list FTickEntityData) :
  forall i BestIdx B, (BestIdx < i)%nat ->
    (FindClosest L rest i BestIdx B < i + List.length rest)%nat.
Proof.
  induction rest as [|x tl IH]; intros i BestIdx B Hb; simpl.
  - lia.
  - destruct (flt (GetDistance L x) B).
    + specialize (IH (S i) i (GetDistance L x)). lia.
    + specialize (IH (S i) BestIdx B). lia.
Qed.

(** The scan keeps index 0 when nothing is strictly nearer. *)
Lemma FindClosest_stay (L : FTickEntityData) (rest : list FTickEntityData) :
  forall i BestIdx B,
    (forall y, In y rest -> flt (GetDistance L y) B = false) ->
    FindClosest L rest i BestIdx B = BestIdx.
Proof.
  induction rest as [|x tl IH]; intros i BestIdx B H; simpl; [reflexivity|].
  rewrite (H x (or_introl eq_refl)). apply IH.
  intros y Hy. apply H. now right.
Qed.

(** The scan returns an entity than which none is strictly nearer. *)
Lemma FindClosest_min (Hs : flt_strict) (L d : FTickEntityData)
    (rest : list FTickEntityData) :
  forall pre BestIdx,
    (BestIdx < List.length pre)%nat ->
    (forall y, In y pre ->
       flt (GetDistance L y) (GetDistance L (nth BestIdx pre d)) = false) ->
    forall y, In y (pre ++ rest) ->
      flt (GetDistance L y)
          (GetDistance L
             (nth (FindClosest L rest (List.length pre) BestIdx
                     (GetDistance L (nth BestIdx pre d)))
                  (pre ++ rest) d)) = false.
Proof.
  destruct Hs as [Hirr Htr].
  induction rest as [|x tl IH]; intros pre BestIdx Hb Hpre y Hy; simpl.
  - rewrite app_nil_r in *. now apply Hpre.
  - assert (Hnx : nth (List.length pre) (pre ++ [x]) d = x).
    { rewrite app_nth2 by lia. now rewrite Nat.sub_diag. }
    assert (Hold : nth BestIdx (pre ++ [x]) d = nth BestIdx pre d).
    { now rewrite app_nth1 by lia. }
    replace (pre ++ x :: tl) with ((pre ++ [x]) ++ tl) in *
      by (now rewrite <- app_assoc).
    replace (S (List.length pre)) with (List.length (pre ++ [x]))
      by (rewrite length_app; simpl; lia).
    destruct (flt (GetDistance L x) (GetDistance L (nth BestIdx pre d))) eqn:E.
    + rewrite <- Hnx at 2.
      apply IH; [rewrite length_app; simpl; lia | | exact Hy].
      intros z Hz. rewrite Hnx.
      apply in_app_or in Hz. destruct Hz as [Hz|[<-|[]]]; [|apply Hirr].
      destruct (flt (GetDistance L z) (GetDistance L x)) eqn:E2; [|reflexivity].
      rewrite <- (Hpre z Hz). symmetry. eapply Htr; eassumption.
    + rewrite <- Hold.
      apply IH; [rewrite length_app; simpl; lia | | exact Hy].
      intros z Hz. rewrite Hold.
      apply in_app_or in Hz. destruct Hz as [Hz|[<-|[]]]; [now apply Hpre|exact E].
Qed.

Lemma ChainNearest_perm :
  forall n L l, (List.length l <= n)%nat -> Permutation (ChainNearest n L l) l.
Proof.
  induction n as [|n IH]; intros L l Hn.
  - destruct l; [reflexivity|simpl in Hn; lia].
  - destruct l as [|v0 tl]; [reflexivity|].
    cbn [ChainNearest].
    set (r := FindClosest L tl 1 0 (GetDistance L v0)).
    assert (Hr : (r < List.length (v0 :: tl))%nat).
    { pose proof (FindClosest_lt L tl 1 0 (GetDistance L v0)) as H.
      simpl. subst r. lia. }
    etransitivity; [|apply (RemoveAt_perm v0 r (v0 :: tl) Hr)].
    apply perm_skip. apply IH.
    rewrite RemoveAt_length by exact Hr. simpl in *. lia.
Qed.

Lemma ChainNearest_Chained (Hs : flt_strict) :
  forall n L l, (List.length l <= n)%nat -> Chained L (ChainNearest n L l).
Proof.
  induction n as [|n IH]; intros L l Hn; [exact I|].
  destruct l as [|v0 tl]; [exact I|].
  cbn [ChainNearest].
  set (r := FindClosest L tl 1 0 (GetDistance L v0)).
  assert (Hr : (r < List.length (v0 :: tl))%nat).
  { pose proof (FindClosest_lt L tl 1 0 (GetDistance L v0)) as H.
    simpl. subst r. lia. }
  assert (Hlen : (List.length (RemoveAt r (v0 :: tl)) <= n)%nat).
  { rewrite RemoveAt_length by exact Hr. simpl in *. lia. }
  cbn [Chained]. split; [|now apply IH].
  intros y Hy.
  assert (Hin : In y (v0 :: tl)).
  { apply (Permutation_in y (RemoveAt_perm v0 r (v0 :: tl) Hr)).
    destruct Hy as [<-|Hy]; [now left|right].
    exact (Permutation_in y (ChainNearest_perm n _ _ Hlen) Hy). }
  pose proof (FindClosest_min Hs L v0 tl [v0] 0%nat) as Hmin.
  simpl in Hmin. apply Hmin; [lia| |exact Hin].
  intros z [<-|[]]. destruct Hs as [Hirr _]. apply Hirr.
Qed.

Lemma ChainNearest_fixed :
  forall l L, Chained L l -> ChainNearest (List.length l) L l = l.
Proof.
  induction l as [|x tl IH]; intros L Hc; [reflexivity|].
  destruct Hc as [Hmin Hc]. cbn [List.length ChainNearest].
  rewrite FindClosest_stay by (intros y Hy; apply Hmin; now right).
  simpl. unfold RemoveAt. simpl. f_equal. now apply IH.
Qed.

(** When the sort rewrites the array, the array becomes a rearrangement of
    the enabled, valid entities only. *)
Lemma SortForCacheLocality_result (w : Engine) (b : FComponentTypeBatch) :
  SortForCacheLocality w b = b
  \/ (2 <= Num (filter (IsActiveEntity w) (TickEntities b))
      /\ exists l, SortForCacheLocality w b = set_TickEntities b l
           /\ Permutation l (filter (IsActiveEntity w) (TickEntities b))).
Proof.
  unfold SortForCacheLocality.
  destruct (Num (TickEntities b) <? 2); [now left|].
  destruct (Num (filter (IsActiveEntity w) (TickEntities b)) <? 2) eqn:E2;
    [now left|].
  destruct (filter (IsActiveEntity w) (TickEntities b)) as [|v0 rest] eqn:Ef;
    [now left|].
  right. split; [apply Z.ltb_ge in E2; exact E2|].
  eexists. split; [reflexivity|].
  apply perm_skip. apply ChainNearest_perm. lia.
Qed.

Lemma SortForCacheLocality_active_perm (w : Engine) (b : FComponentTypeBatch) :
  Permutation (filter (IsActiveEntity w) (TickEntities (SortForCacheLocality w b)))
              (filter (IsActiveEntity w) (TickEntities b)).
Proof.
  destruct (SortForCacheLocality_result w b) as [->|(_ & l & -> & Hp)];
    [reflexivity|].
  simpl. rewrite filter_all; [exact Hp|].
  intros x Hx. apply (Permutation_in x Hp) in Hx.
  apply filter_In in Hx. tauto.
Qed.

(** C9: sorting an already sorted batch changes nothing: the second of two
    successive calls of SortForCacheLocality leaves the entity order (and
    the whole batch) as the first call left it. *)
Theorem SortForCacheLocality_idempotent (Hs : flt_strict) (w : Engine)
    (b : FComponentTypeBatch) :
  SortForCacheLocality w (SortForCacheLocality w b) = SortForCacheLocality w b.
Proof.
  destruct (Num (TickEntities b) <? 2) eqn:E1.
  { assert (Hb : SortForCacheLocality w b = b)
      by (unfold SortForCacheLocality; now rewrite E1).
    now rewrite !Hb. }
  destruct (Num (filter (IsActiveEntity w) (TickEntities b)) <? 2) eqn:E2.
  { assert (Hb : SortForCacheLocality w b = b)
      by (unfold SortForCacheLocality; now rewrite E1, E2).
    now rewrite !Hb. }
  destruct (filter (IsActiveEntity w) (TickEntities b)) as [|v0 rest] eqn:Ef.
  { cbn in E2. discriminate. }
  set (chain := ChainNearest (List.length rest) v0 rest).
  assert (Hb : SortForCacheLocality w b = set_TickEntities b (v0 :: chain)).
  { unfold SortForCacheLocality. now rewrite E1, Ef, E2. }
  assert (Hperm : Permutation chain rest) by (apply ChainNearest_perm; lia).
  assert (Hlen : List.length chain = List.length rest)
    by (now apply Permutation_length).
  assert (Hact : filter (IsActiveEntity w) (v0 :: chain) = v0 :: chain).
  { apply filter_all. intros x Hx.
    assert (Hin : In x (v0 :: rest)).
    { destruct Hx as [<-|Hx]; [now left|right].
      exact (Permutation_in x Hperm Hx). }
    rewrite <- Ef in Hin. apply filter_In in Hin. tauto. }
  assert (Hnum : (Num (v0 :: chain) <? 2) = false).
  { apply Z.ltb_ge in E2. apply Z.ltb_ge. unfold Num in *. simpl in *. lia. }
  rewrite Hb. unfold SortForCacheLocality. cbn [TickEntities set_TickEntities].
  rewrite Hact, Hnum.
  rewrite ChainNearest_fixed by (apply ChainNearest_Chained; [exact Hs|lia]).
  reflexivity.
Qed.

End SortForCacheLocalityFacts.

Section TickBatchFacts.

Context {FO : FloatOps}.

(** The sort touches [TickEntities] only, and keeps the enabled, valid
    entities. *)
Lemma SortIfEnabled_fields (w : Engine) (b : FComponentTypeBatch) :
  let b1 := if bSortByCacheLocality b then SortForCacheLocality w b else b in
  Flags b1 = Flags b /\ BatchTickFunction b1 = BatchTickFunction b
  /\ LastFrameTickCount b1 = LastFrameTickCount b
  /\ AverageTickTimeNs b1 = AverageTickTimeNs b
  /\ bSortByCacheLocality b1 = bSortByCacheLocality b
  /\ Permutation (filter (IsActiveEntity w) (TickEntities b1))
                 (filter (IsActiveEntity w) (TickEntities b)).
Proof.
  destruct (bSortByCacheLocality b) eqn:E; cbn zeta; [|now repeat split].
  pose proof (SortForCacheLocality_active_perm w b) as Hp.
  destruct (SortForCacheLocality_result w b) as [H|(_ & l & H & _)];
    rewrite H in Hp |- *; repeat split; assumption.
Qed.

Lemma concat_filter {A : Type} (f : A -> bool) (ls : list (list A)) :
  List.concat (map (filter f) ls) = filter f (List.concat ls).
Proof.
  induction ls as [|l ls IH]; simpl; [reflexivity|].
  now rewrite IH, filter_app.
Qed.

Lemma EntitiesPerThread_covers (n N : Z) :
  0 <= n -> 1 <= N ->
  1 <= EntitiesPerThread n N /\ n <= N * EntitiesPerThread n N.
Proof.
  intros Hn HN. unfold EntitiesPerThread. split; [lia|].
  pose proof (Z.div_mod (n + N - 1) N ltac:(lia)) as Hd.
  pose proof (Z.mod_pos_bound (n + N - 1) N ltac:(lia)) as Hm.
  nia.
Qed.

(** The first [k] views, put end to end, are the first [min (k * E) n]
    active entities. *)
Lemma ThreadView_prefix {A : Type} (l : list A) (E : Z) :
  1 <= E ->
  forall k : nat,
    List.concat (map (fun j => ThreadView l E (Z.of_nat j)) (seq 0 k))
    = firstn (Z.to_nat (Z.min (Z.of_nat k * E) (Num l))) l.
Proof.
  intros HE. induction k as [|k IH].
  - simpl. replace (Z.to_nat (Z.min 0 (Num l))) with 0%nat by (unfold Num; lia).
    reflexivity.
  - rewrite seq_S, map_app, concat_app, IH.
    cbn [Nat.add map List.concat]. rewrite app_nil_r, Nat2Z.inj_succ.
    unfold ThreadView, Num in *.
    destruct (Z.of_nat k * E >=? Z.min (Z.of_nat k * E + E) (Z.of_nat (List.length l)))
      eqn:Eg.
    + rewrite app_nil_r. apply Z.geb_le in Eg. f_equal. lia.
    + rewrite Z.geb_leb in Eg. apply Z.leb_gt in Eg.
      replace (Z.min (Z.of_nat k * E) (Z.of_nat (List.length l)))
        with (Z.of_nat k * E) by lia.
      rewrite <- firstn_plus. f_equal. lia.
Qed.

(** The views of the tasks are consecutive slices that together are the
    whole active array. *)
Lemma ThreadViews_concat {A : Type} (l : list A) (N : Z) :
  1 <= N -> List.concat (ThreadViews l N) = l.
Proof.
  intros HN. unfold ThreadViews.
  destruct (EntitiesPerThread_covers (Num l) N) as [HE Hc];
    [unfold Num; lia|exact HN|].
  rewrite ThreadView_prefix by exact HE.
  rewrite Z2Nat.id by lia.
  replace (Z.min _ _) with (Num l) by lia.
  unfold Num. rewrite Nat2Z.id. apply firstn_all.
Qed.

Lemma ThreadView_length {A : Type} (l : list A) (E k : Z) :
  0 <= k -> 1 <= E ->
  Z.of_nat (List.length (ThreadView l E k)) = Z.max 0 (Z.min E (Num l - k * E)).
Proof.
  intros Hk HE. unfold ThreadView, Num.
  destruct (k * E >=? Z.min (k * E + E) (Z.of_nat (List.length l))) eqn:Eg.
  - apply Z.geb_le in Eg. simpl. lia.
  - rewrite Z.geb_leb in Eg. apply Z.leb_gt in Eg.
    rewrite length_firstn, length_skipn. lia.
Qed.

Lemma TickBatch_reset (w : Engine) (El : Q) (b : FComponentTypeBatch) :
  TickBatch w El (set_LastFrameTickCount b 0) = TickBatch w El b.
Proof. reflexivity. Qed.

(** The two tick functions with the projections of the reset batch
    computed. *)
Lemma TickBatch_eq (w : Engine) (El : Q) (b : FComponentTypeBatch) :
  TickBatch w El b =
  let b0 := set_LastFrameTickCount b 0 in
  match BatchTickFunction b with
  | None => (b0, [])
  | Some f =>
      if Num (TickEntities b) =? 0 then (b0, [])
      else
        let b1 := if bSortByCacheLocality b then SortForCacheLocality w b0 else b0 in
        if EnumHasAnyFlags (Flags b1) LowPrio && Qltb (CurrentTime w) 30
        then (b1, [])
        else
          let Active := filter (IsActiveEntity w) (TickEntities b1) in
          if Num Active =? 0 then (b1, [])
          else (set_LastFrameTickCount
                  (set_AverageTickTimeNs b1 (El / inject_Z (Num Active)))
                  (Num Active),
                RunDispatcher w f Active)
  end.
Proof. reflexivity. Qed.

Lemma TickBatchParallel_eq (w : Engine) (El : Q) (b : FComponentTypeBatch) :
  TickBatchParallel w El b =
  let b0 := set_LastFrameTickCount b 0 in
  match BatchTickFunction b with
  | None => TickBatch w El b
  | Some _ =>
      if (Num (TickEntities b) =? 0) || negb (CanTickInParallel b)
      then TickBatch w El b
      else
        let b1 := if bSortByCacheLocality b then SortForCacheLocality w b0 else b0 in
        let Active := filter (IsActiveEntity w) (TickEntities b1) in
        if Num Active =? 0 then (b1, [])
        else if existsb (MightBeUnsafe w) Active then TickBatch w El b1
        else (set_AverageTickTimeNs (set_LastFrameTickCount b1 (Num Active))
                (El / inject_Z (Num Active)),
              List.concat (map RunTask
                 (ThreadViews Active (NumberOfWorkerThreadsToSpawn w))))
  end.
Proof. reflexivity. Qed.

Lemma Num_zero {A : Type} (l : list A) : (Num l =? 0) = true -> l = [].
Proof.
  intros H. apply Z.eqb_eq in H. unfold Num in H.
  destruct l; [reflexivity|simpl in H; lia].
Qed.

(** What the sequential tick calls when it is not held back by the clock
    test. *)
Lemma TickBatch_invoked (w : Engine) (El : Q) (b : FComponentTypeBatch)
    (f : BatchDispatcher) :
  BatchTickFunction b = Some f ->
  EnumHasAnyFlags (Flags b) LowPrio && Qltb (CurrentTime w) 30 = false ->
  forall e, In e (snd (TickBatch w El b))
    <-> (In e (TickEntities b) /\ IsActiveEntity w e = true
         /\ DispatcherCalls w f e = true).
Proof.
  intros Hf Hg e. rewrite TickBatch_eq. cbv zeta. rewrite Hf.
  destruct (Num (TickEntities b) =? 0) eqn:E0.
  { apply Num_zero in E0. rewrite E0. simpl. tauto. }
  pose proof (SortIfEnabled_fields w (set_LastFrameTickCount b 0))
    as (HF & _ & _ & _ & _ & Hp).
  cbv zeta in HF, Hp.
  change (bSortByCacheLocality (set_LastFrameTickCount b 0))
    with (bSortByCacheLocality b) in HF, Hp.
  change (Flags (set_LastFrameTickCount b 0)) with (Flags b) in HF.
  change (TickEntities (set_LastFrameTickCount b 0)) with (TickEntities b) in Hp.
  set (b1 := if bSortByCacheLocality b
             then SortForCacheLocality w (set_LastFrameTickCount b 0)
             else set_LastFrameTickCount b 0) in *.
  rewrite HF, Hg.
  assert (Hin : In e (filter (DispatcherCalls w f)
                        (filter (IsActiveEntity w) (TickEntities b1)))
                <-> In e (TickEntities b) /\ IsActiveEntity w e = true
                    /\ DispatcherCalls w f e = true).
  { rewrite filter_In. split.
    - intros [H1 H2]. apply (Permutation_in e Hp) in H1.
      apply filter_In in H1. tauto.
    - intros (H1 & H2 & H3). split; [|exact H3].
      apply (Permutation_in e (Permutation_sym Hp)).
      apply filter_In. tauto. }
  destruct (Num (filter (IsActiveEntity w) (TickEntities b1)) =? 0) eqn:E1.
  - apply Num_zero in E1. rewrite E1 in Hin. simpl in *. exact Hin.
  - cbn [snd]. unfold RunDispatcher. exact Hin.
Qed.

Lemma ThreadView_slice {A : Type} (l : list A) (E k : Z) :
  0 <= k -> 1 <= E ->
  ThreadView l E k
  = firstn (Z.to_nat (Z.min E (Num l - k * E))) (skipn (Z.to_nat (k * E)) l).
Proof.
  intros Hk HE. unfold ThreadView.
  destruct (k * E >=? Z.min (k * E + E) (Num l)) eqn:Eg.
  - apply Z.geb_le in Eg.
    replace (Z.to_nat (Z.min E (Num l - k * E))) with 0%nat by lia.
    reflexivity.
  - f_equal. lia.
Qed.

(** What holds of the parallel tick next to the sequential one.
    TickBatchParallel hands the batch to TickBatch when the batch is empty
    or not parallel-eligible, and when an enabled, valid entity is a
    primitive, scene or character-movement component; otherwise, with
    N >= 1 workers, it cuts the active array into the consecutive slices
    [k*E, k*E + E) (E = max 1 (ceil (active / N))), which put end to end
    are the active array, and calls every bound callable of every slice.
    It calls the updates of the same entities as TickBatch provided
    TickBatch is not held back by its own test (low-priority flag while the
    application clock is below 30 s) and every enabled, valid entity has a
    bound callable that the batch callable would call. *)
Lemma TickBatchParallel_contract (w : Engine) (El : Q) (b : FComponentTypeBatch)
    (f : BatchDispatcher)
    (Hf : BatchTickFunction b = Some f)
    (HN : 1 <= NumberOfWorkerThreadsToSpawn w) :
  let b1 := if bSortByCacheLocality b
            then SortForCacheLocality w (set_LastFrameTickCount b 0)
            else set_LastFrameTickCount b 0 in
  let Active := filter (IsActiveEntity w) (TickEntities b1) in
  let N := NumberOfWorkerThreadsToSpawn w in
  let E := EntitiesPerThread (Num Active) N in
  (Num (TickEntities b) = 0 \/ CanTickInParallel b = false ->
     TickBatchParallel w El b = TickBatch w El b)
  /\ (Num (TickEntities b) <> 0 -> CanTickInParallel b = true ->
      existsb (MightBeUnsafe w) Active = true ->
      TickBatchParallel w El b = TickBatch w El b1)
  /\ (Num (TickEntities b) <> 0 -> CanTickInParallel b = true ->
      existsb (MightBeUnsafe w) Active = false ->
      snd (TickBatchParallel w El b) = List.concat (map RunTask (ThreadViews Active N))
      /\ List.concat (ThreadViews Active N) = Active
      /\ ThreadViews Active N
         = map (fun k => firstn (Z.to_nat (Z.min E (Num Active - Z.of_nat k * E)))
                           (skipn (Z.to_nat (Z.of_nat k * E)) Active))
               (seq 0 (Z.to_nat N))
      /\ (1 <= Num Active -> E = (Num Active + N - 1) / N))
  /\ (EnumHasAnyFlags (Flags b) LowPrio && Qltb (CurrentTime w) 30 = false ->
      (forall e, In e (TickEntities b) -> IsActiveEntity w e = true ->
                 TickFunction e = true /\ DispatcherCalls w f e = true) ->
      forall e, In e (snd (TickBatchParallel w El b))
                <-> In e (snd (TickBatch w El b))).
Proof.
  intros b1 Active N E.
  pose proof (SortIfEnabled_fields w (set_LastFrameTickCount b 0))
    as (HF & HT & _ & _ & _ & Hp).
  cbv zeta in HF, HT, Hp.
  change (bSortByCacheLocality (set_LastFrameTickCount b 0))
    with (bSortByCacheLocality b) in HF, HT, Hp.
  change (Flags (set_LastFrameTickCount b 0)) with (Flags b) in HF.
  change (BatchTickFunction (set_LastFrameTickCount b 0))
    with (BatchTickFunction b) in HT.
  change (TickEntities (set_LastFrameTickCount b 0)) with (TickEntities b) in Hp.
  fold b1 in HF, HT, Hp. fold Active in Hp.
  assert (Hact : forall e, In e Active
                   <-> In e (TickEntities b) /\ IsActiveEntity w e = true).
  { intros e. rewrite <- filter_In. split; apply Permutation_in;
      [exact Hp|exact (Permutation_sym Hp)]. }
  assert (HE : 1 <= E /\ Num Active <= N * E).
  { apply EntitiesPerThread_covers; [unfold Num; lia|exact HN]. }
  assert (Hpar : Num (TickEntities b) <> 0 -> CanTickInParallel b = true ->
                 TickBatchParallel w El b
                 = if Num Active =? 0 then (b1, [])
                   else if existsb (MightBeUnsafe w) Active then TickBatch w El b1
                   else (set_AverageTickTimeNs
                           (set_LastFrameTickCount b1 (Num Active))
                           (El / inject_Z (Num Active)),
                         List.concat (map RunTask (ThreadViews Active N)))).
  { intros H0 Hc. rewrite TickBatchParallel_eq. cbv zeta. rewrite Hf, Hc.
    apply Z.eqb_neq in H0. rewrite H0. reflexivity. }
  assert (Hrun : List.concat (map RunTask (ThreadViews Active N))
                 = filter TickFunction Active).
  { unfold RunTask. rewrite concat_filter. f_equal.
    now apply ThreadViews_concat. }
  split; [|split; [|split]].
  - intros H. rewrite TickBatchParallel_eq. cbv zeta. rewrite Hf.
    destruct H as [H|H].
    + rewrite H. reflexivity.
    + rewrite H, orb_true_r. reflexivity.
  - intros H0 Hc Hu. rewrite (Hpar H0 Hc), Hu.
    destruct (Num Active =? 0) eqn:E0; [|reflexivity].
    apply Num_zero in E0. rewrite E0 in Hu. discriminate.
  - intros H0 Hc Hu. split; [|split; [|split]].
    + rewrite (Hpar H0 Hc), Hu.
      destruct (Num Active =? 0) eqn:E0; [|reflexivity].
      apply Num_zero in E0. rewrite Hrun, E0. reflexivity.
    + now apply ThreadViews_concat.
    + unfold ThreadViews. apply map_ext. intros k.
      apply ThreadView_slice; [lia|apply HE].
    + intros Hn. subst E. unfold EntitiesPerThread.
      assert (1 <= (Num Active + N - 1) / N); [|lia].
      apply Z.div_le_lower_bound; lia.
  - intros Hg Hall e.
    rewrite (TickBatch_invoked w El b f Hf Hg e).
    destruct (Z.eq_dec (Num (TickEntities b)) 0) as [H0|H0].
    { rewrite TickBatchParallel_eq. cbv zeta. rewrite Hf, H0.
      apply (TickBatch_invoked w El b f Hf Hg). }
    destruct (CanTickInParallel b) eqn:Hc.
    2:{ rewrite TickBatchParallel_eq. cbv zeta. rewrite Hf, Hc, orb_true_r.
        apply (TickBatch_invoked w El b f Hf Hg). }
    rewrite (Hpar H0 eq_refl).
    destruct (Num Active =? 0) eqn:E0.
    { apply Num_zero in E0. cbn [snd]. split; [intros []|].
      intros (H1 & H2 & _). rewrite <- E0. apply Hact. tauto. }
    destruct (existsb (MightBeUnsafe w) Active).
    + rewrite (TickBatch_invoked w El b1 f) by
        (rewrite ?HT, ?HF; assumption).
      split.
      * intros (H1 & H2 & H3).
        assert (In e Active) as Ha by (apply filter_In; tauto).
        apply Hact in Ha. tauto.
      * intros (H1 & H2 & H3).
        assert (In e Active) as Ha by (apply Hact; tauto).
        apply filter_In in Ha. tauto.
    + cbn [snd]. rewrite Hrun, filter_In, Hact. split.
      * intros [[H1 H2] _]. destruct (Hall e H1 H2). tauto.
      * intros (H1 & H2 & _). destruct (Hall e H1 H2). tauto.
Qed.

End TickBatchFacts.

Section OrchestratorFacts.

Context {FO : FloatOps}.

Lemma fold_left_preserves {S X : Type} (P : S -> Prop) (f : S -> X -> S) :
  (forall s x, P s -> P (f s x)) ->
  forall l s, P s -> P (fold_left f l s).
Proof.
  intros Hf. induction l as [|x l IH]; intros s Hs; simpl; [exact Hs|].
  apply IH, Hf, Hs.
Qed.

Lemma FindBatch_UpdateBatch (c c' : UClass)
    (f : FComponentTypeBatch -> FComponentTypeBatch) (tb : BatchMap) :
  FindBatch c' (UpdateBatch c f tb)
  = if Nat.eqb c' c then option_map f (FindBatch c tb) else FindBatch c' tb.
Proof.
  induction tb as [|[k b] tl IH]; simpl.
  - now destruct (Nat.eqb c' c).
  - destruct (Nat.eqb_spec k c) as [->|Hkc]; simpl.
    + destruct (Nat.eqb_spec c c') as [<-|Hcc'].
      * now rewrite Nat.eqb_refl.
      * destruct (Nat.eqb_spec c' c); [congruence|reflexivity].
    + destruct (Nat.eqb_spec k c') as [->|Hkc'].
      * destruct (Nat.eqb_spec c' c); [congruence|reflexivity].
      * exact IH.
Qed.

Lemma FindBatch_map (g : UClass -> FComponentTypeBatch -> FComponentTypeBatch)
    (c : UClass) (tb : BatchMap) :
  FindBatch c (map (fun kb => (fst kb, g (fst kb) (snd kb))) tb)
  = option_map (g c) (FindBatch c tb).
Proof.
  induction tb as [|[k b] tl IH]; simpl; [reflexivity|].
  destruct (Nat.eqb k c) eqn:E; [|exact IH].
  apply Nat.eqb_eq in E. now subst k.
Qed.

(** Neither tick path touches the flags of the batch. *)
Lemma TickBatch_Flags (w : Engine) (El : Q) (b : FComponentTypeBatch) :
  Flags (fst (TickBatch w El b)) = Flags b.
Proof.
  rewrite TickBatch_eq. cbv zeta.
  pose proof (SortIfEnabled_fields w (set_LastFrameTickCount b 0))
    as (HF & _).
  cbv zeta in HF.
  change (bSortByCacheLocality (set_LastFrameTickCount b 0))
    with (bSortByCacheLocality b) in HF.
  change (Flags (set_LastFrameTickCount b 0)) with (Flags b) in HF.
  destruct (BatchTickFunction b); [|reflexivity].
  destruct (Num (TickEntities b) =? 0); [reflexivity|].
  destruct (_ && _); [exact HF|].
  destruct (Num _ =? 0); exact HF.
Qed.

Lemma TickBatchParallel_Flags (w : Engine) (El : Q) (b : FComponentTypeBatch) :
  Flags (fst (TickBatchParallel w El b)) = Flags b.
Proof.
  rewrite TickBatchParallel_eq. cbv zeta.
  pose proof (SortIfEnabled_fields w (set_LastFrameTickCount b 0))
    as (HF & _).
  cbv zeta in HF.
  change (bSortByCacheLocality (set_LastFrameTickCount b 0))
    with (bSortByCacheLocality b) in HF.
  change (Flags (set_LastFrameTickCount b 0)) with (Flags b) in HF.
  destruct (BatchTickFunction b); [|apply TickBatch_Flags].
  destruct (_ || _); [apply TickBatch_Flags|].
  destruct (Num _ =? 0); [exact HF|].
  destruct (existsb _ _); [|exact HF].
  rewrite TickBatch_Flags. exact HF.
Qed.

Lemma SameSchedule_Due (s s' : UEnhancedTickSystem) :
  SameSchedule s s' -> forall c, DueThisFrame s' c = DueThisFrame s c.
Proof.
  intros (HF & _ & HFl) c. unfold DueThisFrame. specialize (HFl c).
  rewrite HF.
  destruct (FindBatch c (TypeBatches s')), (FindBatch c (TypeBatches s));
    simpl in HFl; try discriminate; [|reflexivity].
  injection HFl as ->. reflexivity.
Qed.

Lemma TickOneBatch_step (w : Engine) (s : UEnhancedTickSystem) (log : BatchLog)
    (c : UClass) :
  SameSchedule s (fst (TickOneBatch w (s, log) c))
  /\ map fst (snd (TickOneBatch w (s, log) c))
     = map fst log ++ (if DueThisFrame s c then [c] else []).
Proof.
  unfold TickOneBatch, DueThisFrame.
  destruct (FindBatch c (TypeBatches s)) as [Batch|] eqn:Ef.
  2:{ simpl. rewrite app_nil_r. repeat split. }
  destruct (_ && negb _); simpl.
  { rewrite app_nil_r. repeat split. }
  assert (Hfl : forall B', Flags B' = Flags Batch ->
            forall c', option_map Flags
                         (FindBatch c' (UpdateBatch c (fun _ => B') (TypeBatches s)))
                       = option_map Flags (FindBatch c' (TypeBatches s))).
  { intros B' HB c'. rewrite FindBatch_UpdateBatch.
    destruct (Nat.eqb c' c) eqn:E; [|reflexivity].
    apply Nat.eqb_eq in E. subst c'. rewrite Ef. simpl. now rewrite HB. }
  destruct (CanTickInParallel Batch && (Num (TickEntities Batch) >? 10)).
  - pose proof (TickBatchParallel_Flags w (ElapsedNs w c) Batch) as HB.
    destruct (TickBatchParallel w (ElapsedNs w c) Batch) as [B' inv].
    simpl in *. rewrite map_app. simpl. repeat split. now apply Hfl.
  - pose proof (TickBatch_Flags w (ElapsedNs w c) Batch) as HB.
    destruct (TickBatch w (ElapsedNs w c) Batch) as [B' inv].
    simpl in *. rewrite map_app. simpl. repeat split. now apply Hfl.
Qed.

Lemma SameSchedule_trans (a b c : UEnhancedTickSystem) :
  SameSchedule a b -> SameSchedule b c -> SameSchedule a c.
Proof.
  intros (H1 & H2 & H3) (H4 & H5 & H6).
  split; [congruence|split; [congruence|]].
  intros k. now rewrite H6, H3.
Qed.

Lemma SameSchedule_refl (a : UEnhancedTickSystem) : SameSchedule a a.
Proof. repeat split. Qed.

Lemma TickBatches_log (w : Engine) (l : list UClass) :
  forall s log,
    SameSchedule s (fst (fold_left (TickOneBatch w) l (s, log)))
    /\ map fst (snd (fold_left (TickOneBatch w) l (s, log)))
       = map fst log ++ filter (DueThisFrame s) l.
Proof.
  induction l as [|c l IH]; intros s log; cbn [fold_left filter fst snd].
  - rewrite app_nil_r. split; [apply SameSchedule_refl|reflexivity].
  - destruct (TickOneBatch_step w s log c) as [Hs Hl].
    destruct (TickOneBatch w (s, log) c) as [s1 log1] eqn:E1.
    simpl in Hs, Hl.
    destruct (IH s1 log1) as [Hs' Hl']. split.
    + eapply SameSchedule_trans; eassumption.
    + rewrite Hl', Hl, <- app_assoc. f_equal.
      rewrite (filter_ext _ _ (SameSchedule_Due s s1 Hs)).
      now destruct (DueThisFrame s c).
Qed.

Lemma TickGroups_log (w : Engine) (gs : list ETickingGroup) :
  forall s log,
    SameSchedule s (fst (fold_left (TickGroupBatches w) gs (s, log)))
    /\ map fst (snd (fold_left (TickGroupBatches w) gs (s, log)))
       = map fst log
         ++ flat_map (fun g => filter (DueThisFrame s) (GroupList s g)) gs.
Proof.
  induction gs as [|g gs IH]; intros s log; cbn [fold_left flat_map fst snd].
  - rewrite app_nil_r. split; [apply SameSchedule_refl|reflexivity].
  - assert (H1 : SameSchedule s (fst (TickGroupBatches w (s, log) g))
                 /\ map fst (snd (TickGroupBatches w (s, log) g))
                    = map fst log ++ filter (DueThisFrame s) (GroupList s g)).
    { unfold TickGroupBatches, GroupList. simpl.
      destruct (FindGroup g (GroupedBatches s)) as [l|].
      - apply TickBatches_log.
      - simpl. rewrite app_nil_r. split; [apply SameSchedule_refl|reflexivity]. }
    destruct H1 as [Hs Hl].
    destruct (TickGroupBatches w (s, log) g) as [s1 log1] eqn:E1.
    simpl in Hs, Hl.
    destruct (IH s1 log1) as [Hs' Hl']. split.
    + eapply SameSchedule_trans; eassumption.
    + rewrite Hl', Hl, <- app_assoc. f_equal. f_equal.
      apply flat_map_ext. intros g'.
      pose proof (SameSchedule_Due s s1 Hs) as HD.
      unfold GroupList. destruct Hs as (_ & -> & _).
      apply filter_ext. exact HD.
Qed.

(** Only [Tick] itself moves the frame counter. *)
Lemma AddToBatch_FrameCounter (s : UEnhancedTickSystem) (w : Engine) (c : UClass)
    (g : ETickingGroup) (d : BatchDispatcher) (F : Z) (e : FTickEntityData) :
  FrameCounter (AddToBatch s w c g d F e) = FrameCounter s.
Proof.
  unfold AddToBatch.
  destruct (EnumHasAnyFlags F SpatialAware && SpatialLock (SpatialBatch s));
    [|reflexivity].
  destruct (AddEntity _ _ _). reflexivity.
Qed.

Lemma ProcessRegistration_FrameCounter (w : Engine) (s : UEnhancedTickSystem)
    (r : UObject * Z) :
  FrameCounter (ProcessRegistration w s r) = FrameCounter s.
Proof.
  unfold ProcessRegistration. destruct r as [o F].
  repeat match goal with
         | |- context [if ?c then _ else _] => destruct c
         end; try reflexivity; apply AddToBatch_FrameCounter.
Qed.

Lemma UnregisterFromBatch_FrameCounter (o : UObject) (s : UEnhancedTickSystem)
    (c : UClass) :
  FrameCounter (UnregisterFromBatch o s c) = FrameCounter s.
Proof.
  unfold UnregisterFromBatch.
  destruct (FindBatch c (TypeBatches s)); [|reflexivity].
  destruct (FindObject o _ 0); reflexivity.
Qed.

Lemma ProcessDeferredOperations_FrameCounter (w : Engine) (s : UEnhancedTickSystem) :
  FrameCounter (ProcessDeferredOperations w s) = FrameCounter s.
Proof.
  unfold ProcessDeferredOperations, ProcessDeferredOperationsImpl,
    ProcessUnregistrations, ProcessRegistrations.
  cbn [FrameCounter set_Pending].
  set (s1 := fold_left (ProcessRegistration w) (PendingRegistrations s) s).
  assert (H1 : FrameCounter s1 = FrameCounter s).
  { subst s1.
    apply (fold_left_preserves (fun x => FrameCounter x = FrameCounter s));
      [|reflexivity].
    intros x r Hx. now rewrite ProcessRegistration_FrameCounter. }
  rewrite <- H1.
  apply (fold_left_preserves (fun x => FrameCounter x = FrameCounter s1));
    [|reflexivity].
  intros x o Hx. unfold ProcessUnregistration.
  destruct (negb (IsValid w o)); [exact Hx|].
  apply (fold_left_preserves (fun y => FrameCounter y = FrameCounter s1));
    [|exact Hx].
  intros y c Hy. now rewrite UnregisterFromBatch_FrameCounter.
Qed.

Lemma BeginFrame_FrameCounter (w : Engine) (s : UEnhancedTickSystem) :
  FrameCounter (BeginFrame w s) = Z.rem (FrameCounter s + 1) 1000.
Proof.
  unfold BeginFrame, SortBatchesByPriority, UpdateConditionalTicks.
  cbn [FrameCounter set_Core set_TypeBatches].
  now rewrite ProcessDeferredOperations_FrameCounter.
Qed.

Lemma HintBatch_FrameCounter (w : Engine) (s : UEnhancedTickSystem) (c : UClass) :
  FrameCounter (HintBatch w s c) = FrameCounter s.
Proof.
  unfold HintBatch.
  destruct (FindBatch c (TypeBatches s)); [|reflexivity].
  destruct (negb _); [reflexivity|].
  destruct (_ && negb _); [|reflexivity].
  destruct (fold_left _ _ _). reflexivity.
Qed.

Lemma OptimizeBatches_FrameCounter (w : Engine) (s : UEnhancedTickSystem) :
  FrameCounter (OptimizeBatches w s) = FrameCounter s.
Proof.
  unfold OptimizeBatches, ApplyOptimizationHints.
  cbn [FrameCounter set_TypeBatches set_Core].
  apply (fold_left_preserves (fun x => FrameCounter x = FrameCounter s));
    [|reflexivity].
  intros x c Hx. now rewrite HintBatch_FrameCounter.
Qed.

(** The batches a frame ticks are those due in the state in which its
    phases start, phase by phase in the order of the phase lists. *)
Lemma Tick_log (w : Engine) (s : UEnhancedTickSystem) :
  map fst (BatchTicks (snd (Tick w s)))
  = flat_map (fun g => filter (DueThisFrame (BeginFrame w s))
                              (GroupList (BeginFrame w s) g)) TickOrder
  /\ FrameCounter (fst (Tick w s)) = FrameCounter (BeginFrame w s).
Proof.
  unfold Tick.
  destruct (TickGroups_log w TickOrder (BeginFrame w s) []) as [Hs Hl].
  match goal with
  | |- context [fold_left ?f ?l ?a] =>
      change (fold_left (TickGroupBatches w) TickOrder (BeginFrame w s, []))
        with (fold_left f l a) in Hs, Hl;
      destruct (fold_left f l a) as [s1 log]
  end.
  cbn [fst snd BatchTicks map app] in *. split; [exact Hl|].
  destruct Hs as (HF & _).
  destruct (Z.rem (FrameCounter s1) 300 =? 0); [|exact HF].
  now rewrite OptimizeBatches_FrameCounter.
Qed.

Lemma TickedIn_spec (c : UClass) (l : FrameLog) :
  TickedIn c l = true <-> In c (map fst (BatchTicks l)).
Proof.
  unfold TickedIn. rewrite existsb_exists, in_map_iff. split.
  - intros [e [He Hc]]. exists e. apply Nat.eqb_eq in Hc. now split.
  - intros [e [<- He]]. exists e. split; [exact He|apply Nat.eqb_refl].
Qed.

(** In frame [k] of a run the counter reads [k + 1] more than at the start,
    modulo 1000. *)
Lemma RunFrames_nth (ws : list Engine) :
  forall s k pre log,
    0 <= FrameCounter s < 1000 ->
    nth_error (RunFrames ws s) k = Some (pre, log) ->
    FrameCounter pre = (FrameCounter s + Z.of_nat k + 1) mod 1000
    /\ exists w s', pre = BeginFrame w s' /\ log = snd (Tick w s').
Proof.
  induction ws as [|w ws IH]; intros s k pre log Hr Hn.
  - destruct k; discriminate.
  - assert (HB : FrameCounter (BeginFrame w s) = (FrameCounter s + 1) mod 1000).
    { rewrite BeginFrame_FrameCounter. apply Z.rem_mod_nonneg; lia. }
    destruct k as [|k]; cbn [RunFrames nth_error] in Hn.
    + remember (BeginFrame w s) as B eqn:EB.
      remember (snd (Tick w s)) as L eqn:EL.
      injection Hn as <- <-. split.
      * rewrite HB. f_equal. lia.
      * exists w, s. split; assumption.
    + destruct (IH _ _ _ _ ltac:(
          destruct (Tick_log w s) as [_ ->]; rewrite HB;
          apply Z.mod_pos_bound; lia) Hn) as [H1 H2].
      split; [|exact H2].
      rewrite H1. destruct (Tick_log w s) as [_ ->]. rewrite HB.
      rewrite Nat2Z.inj_succ.
      rewrite <- Z.add_assoc, Z.add_mod_idemp_l by lia. f_equal. lia.
Qed.

Lemma TickedIn_Due (w : Engine) (s : UEnhancedTickSystem) (c : UClass) :
  TickedIn c (snd (Tick w s)) = true
  <-> DueThisFrame (BeginFrame w s) c = true
      /\ exists g, In g TickOrder /\ In c (GroupList (BeginFrame w s) g).
Proof.
  rewrite TickedIn_spec. destruct (Tick_log w s) as [-> _].
  rewrite in_flat_map. split.
  - intros [g [Hg Hc]]. apply filter_In in Hc. split; [tauto|].
    exists g. tauto.
  - intros [Hd [g [Hg Hc]]]. exists g. split; [exact Hg|].
    apply filter_In. tauto.
Qed.

(** C1 (amended): in every frame the orchestrator first advances the frame
    counter to (old + 1) mod 1000; a batch of a phase list that is flagged
    low-priority is ticked in that frame exactly when the advanced counter
    is a multiple of 3, and a batch that is not flagged is ticked in every
    frame. A run that starts with the counter at 0 therefore has the
    counter at k + 1 in its frame k (0-indexed), and in its first nine
    frames a low-priority batch is ticked exactly in frames 2, 5 and 8. *)
Theorem LowPrio_throttle (ws : list Engine) (s0 : UEnhancedTickSystem)
    (k : nat) (pre : UEnhancedTickSystem) (log : FrameLog)
    (g : ETickingGroup) (c : UClass) (Batch : FComponentTypeBatch)
    (H0 : FrameCounter s0 = 0)
    (Hk : nth_error (RunFrames ws s0) k = Some (pre, log))
    (Hg : In g TickOrder)
    (Hc : In c (GroupList pre g))
    (Hb : FindBatch c (TypeBatches pre) = Some Batch) :
  FrameCounter pre = (Z.of_nat k + 1) mod 1000
  /\ (EnumHasAnyFlags (Flags Batch) LowPrio = true ->
      (TickedIn c log = true <-> Z.rem (FrameCounter pre) 3 = 0))
  /\ (EnumHasAnyFlags (Flags Batch) LowPrio = false -> TickedIn c log = true)
  /\ (EnumHasAnyFlags (Flags Batch) LowPrio = true -> (k < 9)%nat ->
      (TickedIn c log = true <-> k = 2%nat \/ k = 5%nat \/ k = 8%nat)).
Proof.
  destruct (RunFrames_nth ws s0 k pre log ltac:(lia) Hk)
    as [HF (w & s' & Hpre & Hlog)].
  rewrite H0 in HF. simpl in HF.
  assert (Hdue : TickedIn c log = true <-> DueThisFrame pre c = true).
  { rewrite Hlog, Hpre, TickedIn_Due. rewrite <- Hpre. split; [tauto|].
    intros Hd. split; [exact Hd|]. now exists g. }
  assert (Hlow : EnumHasAnyFlags (Flags Batch) LowPrio = true ->
                 (TickedIn c log = true <-> Z.rem (FrameCounter pre) 3 = 0)).
  { intros HL. rewrite Hdue. unfold DueThisFrame. rewrite Hb, HL. simpl.
    rewrite negb_involutive. apply Z.eqb_eq. }
  split; [exact HF|split; [exact Hlow|split]].
  - intros HL. apply Hdue. unfold DueThisFrame. now rewrite Hb, HL.
  - intros HL Hk9. rewrite (Hlow HL), HF.
    rewrite Z.mod_small by lia.
    do 9 (destruct k as [|k];
          [vm_compute; intuition (try lia; try discriminate)|]).
    lia.
Qed.

End OrchestratorFacts.

Section GateAndOptimizerFacts.

Context {FO : FloatOps}.

Lemma Qltb_lt (a b : Q) : Qltb a b = true <-> (a < b)%Q.
Proof.
  unfold Qltb. rewrite negb_true_iff. split.
  - intros H. apply Qnot_le_lt. intros Hle.
    apply Qle_bool_iff in Hle. congruence.
  - intros H. destruct (Qle_bool b a) eqn:E; [|reflexivity].
    apply Qle_bool_iff in E. exfalso. exact (Qlt_not_le _ _ H E).
Qed.

(** C10 (amended): while the application clock reads less than 30 seconds
    the sequential tick of a batch flagged low-priority calls no entity and
    leaves the rolling average as it was; the last-frame active count is
    not left alone but reset to 0. *)
Theorem TickBatch_LowPrio_clock_gate (w : Engine) (El : Q) (b : FComponentTypeBatch)
    (HL : EnumHasAnyFlags (Flags b) LowPrio = true)
    (Ht : (CurrentTime w < 30)%Q) :
  snd (TickBatch w El b) = []
  /\ AverageTickTimeNs (fst (TickBatch w El b)) = AverageTickTimeNs b
  /\ LastFrameTickCount (fst (TickBatch w El b)) = 0.
Proof.
  apply Qltb_lt in Ht. rewrite TickBatch_eq. cbv zeta.
  pose proof (SortIfEnabled_fields w (set_LastFrameTickCount b 0))
    as (HF & _ & HC & HA & _).
  cbv zeta in HF, HC, HA.
  change (bSortByCacheLocality (set_LastFrameTickCount b 0))
    with (bSortByCacheLocality b) in HF, HC, HA.
  change (Flags (set_LastFrameTickCount b 0)) with (Flags b) in HF.
  change (LastFrameTickCount (set_LastFrameTickCount b 0)) with 0 in HC.
  change (AverageTickTimeNs (set_LastFrameTickCount b 0))
    with (AverageTickTimeNs b) in HA.
  destruct (BatchTickFunction b); [|now repeat split].
  destruct (Num (TickEntities b) =? 0); [now repeat split|].
  rewrite HF, HL, Ht. cbn [andb fst snd]. now repeat split.
Qed.

Lemma HasFlag_set (F X : Z) : X <> 0 -> EnumHasAnyFlags (SetFlag F X) X = true.
Proof.
  intros HX. unfold EnumHasAnyFlags, SetFlag.
  rewrite Z.land_lor_distr_l, Z.land_diag.
  apply negb_true_iff, Z.eqb_neq. intros H.
  apply Z.lor_eq_0_iff in H. tauto.
Qed.

Lemma HasFlag_keep (F X Y : Z) :
  EnumHasAnyFlags F X = true -> EnumHasAnyFlags (SetFlag F Y) X = true.
Proof.
  unfold EnumHasAnyFlags, SetFlag. rewrite !negb_true_iff, !Z.eqb_neq.
  intros H H'. rewrite Z.land_lor_distr_l in H'.
  apply Z.lor_eq_0_iff in H'. tauto.
Qed.

(** What one pass of the loop of [AnalyzeCurrentState] does to a batch, by
    its thresholds. *)
Lemma AnalyzeBatch_spec (b : FComponentTypeBatch) :
  (WorthParallel b = true -> CanTickInParallel (AnalyzeBatch b) = true)
  /\ (Num (TickEntities b) < 5 -> bSortByCacheLocality (AnalyzeBatch b) = false)
  /\ TickEntities (AnalyzeBatch b) = TickEntities b.
Proof.
  unfold AnalyzeBatch, CanTickInParallel.
  split; [|split].
  - intros ->. cbn [TickEntities set_Flags AverageTickTimeNs Flags
                    set_bSortByCacheLocality].
    assert (H : EnumHasAnyFlags (SetFlag (Flags b) UseParallel) UseParallel = true)
      by (apply HasFlag_set; discriminate).
    destruct (Num (TickEntities b) <? 5);
      cbn [TickEntities set_Flags AverageTickTimeNs Flags set_bSortByCacheLocality];
      destruct (_ && _); cbn [Flags set_Flags]; try exact H;
      now apply HasFlag_keep.
  - intros H5. apply Z.ltb_lt in H5.
    destruct (WorthParallel b);
      cbn [TickEntities set_Flags]; rewrite H5;
      cbn [AverageTickTimeNs Flags set_bSortByCacheLocality];
      destruct (_ && _); reflexivity.
  - destruct (WorthParallel b); cbn [TickEntities set_Flags];
      destruct (Num (TickEntities b) <? 5);
      cbn [AverageTickTimeNs Flags set_bSortByCacheLocality];
      destruct (_ && _); reflexivity.
Qed.

(** The analysis loop alone, the first of the three steps of
    [OptimizeBatches]: it sets the UseParallel flag of a batch with a
    rolling average of 1500 ns and 20 entities, and switches cache-locality
    sorting off for a batch of 3 entities. *)
Lemma AnalyzeCurrentState_scenario (s : UEnhancedTickSystem) (c : UClass)
    (b : FComponentTypeBatch)
    (Hb : FindBatch c (TypeBatches s) = Some b) :
  exists b', FindBatch c (TypeBatches (AnalyzeCurrentState s)) = Some b'
    /\ ((AverageTickTimeNs b == 1500)%Q -> Num (TickEntities b) = 20 ->
        CanTickInParallel b' = true)
    /\ (Num (TickEntities b) = 3 -> bSortByCacheLocality b' = false).
Proof.
  exists (AnalyzeBatch b). split; [|split].
  - unfold AnalyzeCurrentState. cbn [TypeBatches set_Core].
    rewrite (FindBatch_map (fun _ => AnalyzeBatch)), Hb. reflexivity.
  - intros Ha Hn. apply AnalyzeBatch_spec.
    unfold WorthParallel. rewrite Hn. rewrite andb_true_r.
    apply Qltb_lt. rewrite Ha. reflexivity.
  - intros Hn. apply AnalyzeBatch_spec. lia.
Qed.

(** The last loop of [OptimizeBatches] takes the flag away again from a
    batch of character-movement components. *)
Lemma OptimizeCharacterMovementBatch_sequential (b : FComponentTypeBatch) :
  CanTickInParallel (OptimizeCharacterMovementBatch b) = false.
Proof.
  unfold CanTickInParallel, OptimizeCharacterMovementBatch, EnumHasAnyFlags,
    SetFlag, ClearFlag. cbn [Flags set_Flags set_BatchTickFunction].
  apply negb_false_iff, Z.eqb_eq.
  rewrite Z.land_lor_distr_l, <- Z.land_assoc.
  change (Z.land (Z.lxor UseParallel 255) UseParallel) with 0.
  change (Z.land SpatialAware UseParallel) with 0.
  now rewrite Z.land_0_r.
Qed.

Lemma HasFlag_set_other (F X Y : Z) :
  Z.land Y X = 0 -> EnumHasAnyFlags (SetFlag F Y) X = EnumHasAnyFlags F X.
Proof.
  intros H. unfold EnumHasAnyFlags, SetFlag.
  now rewrite Z.land_lor_distr_l, H, Z.lor_0_r.
Qed.

(** Writes through a batch reference or an entity pointer that leave the
    UseParallel flag and the sorting switch of every batch alone. *)
Lemma UpdateBatch_keeps (k c : UClass)
    (f : FComponentTypeBatch -> FComponentTypeBatch) (tb : BatchMap)
    (b : FComponentTypeBatch)
    (Hf : forall x, CanTickInParallel (f x) = CanTickInParallel x
                    /\ bSortByCacheLocality (f x) = bSortByCacheLocality x)
    (Hb : exists b', FindBatch c tb = Some b'
            /\ CanTickInParallel b' = CanTickInParallel b
            /\ bSortByCacheLocality b' = bSortByCacheLocality b) :
  exists b', FindBatch c (UpdateBatch k f tb) = Some b'
    /\ CanTickInParallel b' = CanTickInParallel b
    /\ bSortByCacheLocality b' = bSortByCacheLocality b.
Proof.
  destruct Hb as [b1 [H1 [H2 H3]]]. rewrite FindBatch_UpdateBatch.
  destruct (Nat.eqb_spec c k) as [->|_].
  - rewrite H1. cbn [option_map]. exists (f b1).
    destruct (Hf b1) as [Ha Hs]. rewrite Ha, Hs. now repeat split.
  - exists b1. now repeat split.
Qed.

Lemma AddEntity_keeps (tb : BatchMap) (sp : FSpatialEntityBatch) (p : EntityPtr)
    (c : UClass) (b : FComponentTypeBatch)
    (Hb : exists b', FindBatch c tb = Some b'
            /\ CanTickInParallel b' = CanTickInParallel b
            /\ bSortByCacheLocality b' = bSortByCacheLocality b) :
  exists b', FindBatch c (fst (AddEntity tb sp p)) = Some b'
    /\ CanTickInParallel b' = CanTickInParallel b
    /\ bSortByCacheLocality b' = bSortByCacheLocality b.
Proof.
  unfold AddEntity. destruct (Deref tb p); [|exact Hb].
  destruct (Nat.eqb (Object f) 0); [exact Hb|].
  cbn [fst]. destruct p as [|k i]; [exact Hb|].
  cbn [WriteEntity]. apply UpdateBatch_keeps; [|exact Hb].
  intros x. split; reflexivity.
Qed.

Lemma HintBatch_keeps (w : Engine) (s : UEnhancedTickSystem) (k c : UClass)
    (b : FComponentTypeBatch)
    (Hb : exists b', FindBatch c (TypeBatches s) = Some b'
            /\ CanTickInParallel b' = CanTickInParallel b
            /\ bSortByCacheLocality b' = bSortByCacheLocality b) :
  exists b', FindBatch c (TypeBatches (HintBatch w s k)) = Some b'
    /\ CanTickInParallel b' = CanTickInParallel b
    /\ bSortByCacheLocality b' = bSortByCacheLocality b.
Proof.
  unfold HintBatch.
  destruct (FindBatch k (TypeBatches s)) as [Batch|]; [|exact Hb].
  destruct (negb _); [exact Hb|].
  destruct (_ && negb _); [|exact Hb].
  match goal with
  | |- context [fold_left ?f ?l ?a] =>
      assert (H : exists b', FindBatch c (fst (fold_left f l a)) = Some b'
                    /\ CanTickInParallel b' = CanTickInParallel b
                    /\ bSortByCacheLocality b' = bSortByCacheLocality b)
  end.
  { apply (fold_left_preserves
             (fun st : BatchMap * FSpatialEntityBatch =>
                exists b', FindBatch c (fst st) = Some b'
                  /\ CanTickInParallel b' = CanTickInParallel b
                  /\ bSortByCacheLocality b' = bSortByCacheLocality b)).
    - intros st i Hst. unfold MoveToGrid.
      destruct (Deref (fst st) (SlotAt k i)); [|exact Hst].
      destruct (_ && _); [now apply AddEntity_keeps|exact Hst].
    - cbn [fst]. apply UpdateBatch_keeps; [|exact Hb].
      intros x. split; [|reflexivity].
      unfold CanTickInParallel. cbn [Flags set_Flags].
      now apply HasFlag_set_other. }
  destruct (fold_left _ _ _) as [tb2 sp2]. cbn [fst] in H.
  cbn [TypeBatches set_Core]. exact H.
Qed.

Lemma SpecializeBatch_sort (w : Engine) (c : UClass) (b : FComponentTypeBatch) :
  bSortByCacheLocality (SpecializeBatch w c b) = bSortByCacheLocality b.
Proof.
  unfold SpecializeBatch.
  destruct (IsChildOf w c UCharacterMovementComponent); [reflexivity|].
  destruct (IsChildOf w c UAIPerceptionComponent); reflexivity.
Qed.

Lemma SpecializeBatch_parallel (w : Engine) (c : UClass) (b : FComponentTypeBatch) :
  CanTickInParallel (SpecializeBatch w c b)
  = CanTickInParallel b && negb (IsChildOf w c UCharacterMovementComponent).
Proof.
  unfold SpecializeBatch.
  destruct (IsChildOf w c UCharacterMovementComponent).
  - rewrite OptimizeCharacterMovementBatch_sequential.
    now rewrite andb_false_r.
  - rewrite andb_true_r.
    destruct (IsChildOf w c UAIPerceptionComponent); [|reflexivity].
    unfold CanTickInParallel, OptimizeAIPerceptionBatch.
    cbn [Flags set_Flags set_BatchTickFunction].
    now apply HasFlag_set_other.
Qed.

(** C5 (amended): after one pass of OptimizeBatches (the analysis loop,
    the spatial hints, the loop for the special component types), a batch
    whose rolling average tick time is 1500 ns and which holds 20 entities
    has the UseParallel flag set exactly if its class does not derive from
    the character-movement component, for which the last loop clears the
    flag again; and a batch which holds 3 entities has cache-locality
    sorting switched off. *)
Theorem OptimizeBatches_scenario (w : Engine) (s : UEnhancedTickSystem)
    (c : UClass) (b : FComponentTypeBatch)
    (Hb : FindBatch c (TypeBatches s) = Some b) :
  exists b', FindBatch c (TypeBatches (OptimizeBatches w s)) = Some b'
    /\ ((AverageTickTimeNs b == 1500)%Q -> Num (TickEntities b) = 20 ->
        CanTickInParallel b'
        = negb (IsChildOf w c UCharacterMovementComponent))
    /\ (Num (TickEntities b) = 3 -> bSortByCacheLocality b' = false).
Proof.
  destruct (AnalyzeCurrentState_scenario s c b Hb) as [b1 [H1 [Hpar Hsort]]].
  assert (H2 : exists b2,
             FindBatch c (TypeBatches
                            (ApplyOptimizationHints w (AnalyzeCurrentState s)))
             = Some b2
             /\ CanTickInParallel b2 = CanTickInParallel b1
             /\ bSortByCacheLocality b2 = bSortByCacheLocality b1).
  { unfold ApplyOptimizationHints.
    apply (fold_left_preserves
             (fun t => exists b2, FindBatch c (TypeBatches t) = Some b2
                /\ CanTickInParallel b2 = CanTickInParallel b1
                /\ bSortByCacheLocality b2 = bSortByCacheLocality b1)).
    - intros t k Ht. now apply HintBatch_keeps.
    - exists b1. now repeat split. }
  destruct H2 as [b2 [H2 [Hp2 Hs2]]].
  exists (SpecializeBatch w c b2). split; [|split].
  - unfold OptimizeBatches. cbn [TypeBatches set_TypeBatches set_Core].
    rewrite (FindBatch_map (SpecializeBatch w)), H2. reflexivity.
  - intros Ha Hn. rewrite SpecializeBatch_parallel, Hp2, (Hpar Ha Hn).
    reflexivity.
  - intros Hn. rewrite SpecializeBatch_sort, Hs2. exact (Hsort Hn).
Qed.

End GateAndOptimizerFacts.

Section SortBatchesFacts.

Context {FO : FloatOps}.

(** The predicate of the sort is a strict weak ordering: it compares the
    triple (high flag, low flag, number of entities) lexicographically. *)
Lemma PriorityBefore_StrictWeak (tb : BatchMap) :
  StrictWeak (fun a b => PriorityBefore (BatchAt tb a) (BatchAt tb b)).
Proof.
  unfold StrictWeak, PriorityBefore. split.
  - intros x y.
    destruct (EnumHasAnyFlags (Flags (BatchAt tb x)) HighPrio),
             (EnumHasAnyFlags (Flags (BatchAt tb y)) HighPrio),
             (EnumHasAnyFlags (Flags (BatchAt tb x)) LowPrio),
             (EnumHasAnyFlags (Flags (BatchAt tb y)) LowPrio);
      cbn; try discriminate; try reflexivity;
      intros H; apply Z.gtb_lt in H; rewrite Z.gtb_ltb; apply Z.ltb_ge; lia.
  - intros x y z.
    destruct (EnumHasAnyFlags (Flags (BatchAt tb x)) HighPrio),
             (EnumHasAnyFlags (Flags (BatchAt tb y)) HighPrio),
             (EnumHasAnyFlags (Flags (BatchAt tb z)) HighPrio),
             (EnumHasAnyFlags (Flags (BatchAt tb x)) LowPrio),
             (EnumHasAnyFlags (Flags (BatchAt tb y)) LowPrio),
             (EnumHasAnyFlags (Flags (BatchAt tb z)) LowPrio);
      cbn; try discriminate; try reflexivity;
      rewrite !Z.gtb_ltb, !Z.ltb_ge; lia.
Qed.

Lemma FindGroup_map (f : list UClass -> list UClass) (g : ETickingGroup)
    (gb : GroupMap) :
  FindGroup g (map (fun p => (fst p, f (snd p))) gb)
  = option_map f (FindGroup g gb).
Proof.
  induction gb as [|[k v] tl IH]; simpl; [reflexivity|].
  destruct (ETickingGroup_eqb k g); [reflexivity|exact IH].
Qed.

Lemma StronglySorted_nth {A : Type} (R : A -> A -> Prop) (l : list A) :
  StronglySorted R l ->
  forall i j x y, (i < j)%nat ->
    nth_error l i = Some x -> nth_error l j = Some y -> R x y.
Proof.
  induction 1 as [|a l Hs IH Hall]; intros i j x y Hij Hi Hj.
  - destruct i; discriminate.
  - destruct j as [|j]; [lia|]. simpl in Hj.
    destruct i as [|i]; simpl in Hi.
    + injection Hi as <-. rewrite Forall_forall in Hall.
      apply Hall. eapply nth_error_In. exact Hj.
    + apply (IH i j); [lia|assumption|assumption].
Qed.

(** C6 (amended): the per-frame sort rearranges the batches of every phase
    so that, of any two of them, the earlier one is never one the
    predicate puts after the later one: a batch flagged high-priority is
    not after one that is not, among batches with the same high flag a
    batch flagged low-priority is not before one that is not, and among
    batches with the same two flags the one holding more entities
    (TickEntities.Num(), not the last-frame active count) is not after the
    one holding fewer. The order of batches that tie on all three is
    whatever the engine's sort leaves. *)
Theorem SortBatchesByPriority_order (w : Engine) (s : UEnhancedTickSystem)
    (g : ETickingGroup) (l : list UClass)
    (HS : SortContract w)
    (Hl : FindGroup g (GroupedBatches s) = Some l) :
  TypeBatches (SortBatchesByPriority w s) = TypeBatches s
  /\ exists l',
       FindGroup g (GroupedBatches (SortBatchesByPriority w s)) = Some l'
       /\ Permutation l' l
       /\ forall i j a b, (i < j)%nat ->
            nth_error l' i = Some a -> nth_error l' j = Some b ->
            let A := BatchAt (TypeBatches s) a in
            let B := BatchAt (TypeBatches s) b in
            let high X := EnumHasAnyFlags (Flags X) HighPrio in
            let low X := EnumHasAnyFlags (Flags X) LowPrio in
            (high B = true -> high A = true)
            /\ (high A = high B -> low A = true -> low B = true)
            /\ (high A = high B -> low A = low B ->
                Num (TickEntities B) <= Num (TickEntities A)).
Proof.
  split; [reflexivity|].
  set (before := fun a b => PriorityBefore (BatchAt (TypeBatches s) a)
                                          (BatchAt (TypeBatches s) b)).
  exists (ArraySort w before l).
  destruct (HS before l (PriorityBefore_StrictWeak (TypeBatches s)))
    as [Hperm Hsorted].
  split; [|split; [exact Hperm|]].
  - unfold SortBatchesByPriority. cbn [GroupedBatches set_Core].
    rewrite (FindGroup_map (ArraySort w before)), Hl. reflexivity.
  - intros i j a b Hij Ha Hb.
    pose proof (StronglySorted_nth _ _ Hsorted i j a b Hij Ha Hb) as H.
    cbv beta in H. unfold before, PriorityBefore in H. cbv zeta.
    destruct (EnumHasAnyFlags (Flags (BatchAt (TypeBatches s) a)) HighPrio),
             (EnumHasAnyFlags (Flags (BatchAt (TypeBatches s) b)) HighPrio),
             (EnumHasAnyFlags (Flags (BatchAt (TypeBatches s) a)) LowPrio),
             (EnumHasAnyFlags (Flags (BatchAt (TypeBatches s) b)) LowPrio);
      cbn in H; try discriminate;
      (split; [|split]); intros; try discriminate; try reflexivity;
      rewrite Z.gtb_ltb, Z.ltb_ge in H; exact H.
Qed.

End SortBatchesFacts.

Section SpatialGridFacts.

Context {FO : FloatOps}.

Lemma In_ZRange (lo hi x : Z) : In x (ZRange lo hi) <-> lo <= x <= hi.
Proof.
  unfold ZRange. rewrite in_map_iff. split.
  - intros [k [<- Hk]]. apply in_seq in Hk. lia.
  - intros H. exists (Z.to_nat (x - lo)). split; [lia|].
    apply in_seq. lia.
Qed.

Lemma In_NeighbourCell (C CX CY CZ dx dy dz c : Z) :
  In c (NeighbourCell C CX CY CZ dx dy dz)
  <-> (0 <= CX + dx <= 63 /\ 0 <= CY + dy <= 63 /\ 0 <= CZ + dz <= 15)
      /\ c = PackCell (CX + dx) (CY + dy) (CZ + dz) /\ c <> C.
Proof.
  unfold NeighbourCell. cbv zeta.
  destruct (CX + dx <? 0) eqn:E1; [apply Z.ltb_lt in E1; simpl; split; [tauto|lia]|].
  destruct (CX + dx >? 63) eqn:E2;
    [apply Z.gtb_lt in E2; simpl; split; [tauto|lia]|].
  destruct (CY + dy <? 0) eqn:E3; [apply Z.ltb_lt in E3; simpl; split; [tauto|lia]|].
  destruct (CY + dy >? 63) eqn:E4;
    [apply Z.gtb_lt in E4; simpl; split; [tauto|lia]|].
  destruct (CZ + dz <? 0) eqn:E5; [apply Z.ltb_lt in E5; simpl; split; [tauto|lia]|].
  destruct (CZ + dz >? 15) eqn:E6;
    [apply Z.gtb_lt in E6; simpl; split; [tauto|lia]|].
  apply Z.ltb_ge in E1, E3, E5.
  rewrite Z.gtb_ltb in E2, E4, E6. apply Z.ltb_ge in E2, E4, E6.
  cbn [orb].
  destruct (PackCell (CX + dx) (CY + dy) (CZ + dz) =? C) eqn:Ec; simpl.
  - apply Z.eqb_eq in Ec. split; [tauto|]. intros (_ & -> & H). tauto.
  - apply Z.eqb_neq in Ec. split.
    + intros [<-|[]]. split; [lia|]. split; [reflexivity|exact Ec].
    + intros (_ & -> & _). now left.
Qed.

(** C4 (amended): GetNearbyEntities returns exactly the members of the
    scanned cells that, read through their pointer, are enabled, have a
    non-null object and lie within the radius of the position; so every
    returned entity is within the radius, and every enabled entity with an
    object that is within the radius and is a member of a scanned cell is
    returned. The scanned cells are the centre cell and the cells of the
    cube of radius CeilToInt(Radius / GridCellSize) around the centre
    coordinates, cut to the packed range 0..63, 0..63, 0..15. *)
Theorem GetNearbyEntities_exact (tb : BatchMap) (sp : FSpatialEntityBatch)
    (P : FVector) (Radius : float) :
  (forall p, In p (GetNearbyEntities tb sp P Radius)
     <-> exists GridId Cell e,
           In GridId (NearbyGrids (GridCellSize sp) P Radius)
           /\ FindCell GridId (GridCells sp) = Some Cell
           /\ In p Cell
           /\ Deref tb p = Some e
           /\ bEnabled e = true /\ Object e <> 0%nat
           /\ fle (Distance P (Position e)) Radius = true)
  /\ (let Center := CalculateGridCell (GridCellSize sp) P in
      let GridRadius := CeilToInt (fdiv Radius (GridCellSize sp)) in
      let CenterX := Z.land (Z.shiftr Center 10) 63 in
      let CenterY := Z.land (Z.shiftr Center 4) 63 in
      let CenterZ := Z.land Center 15 in
      forall c, In c (NearbyGrids (GridCellSize sp) P Radius)
        <-> c = Center
            \/ exists X Y Z0,
                 (CenterX - GridRadius <= X <= CenterX + GridRadius /\ 0 <= X <= 63)
                 /\ (CenterY - GridRadius <= Y <= CenterY + GridRadius /\ 0 <= Y <= 63)
                 /\ (CenterZ - GridRadius <= Z0 <= CenterZ + GridRadius /\ 0 <= Z0 <= 15)
                 /\ c = PackCell X Y Z0).
Proof.
  split.
  - intros p. unfold GetNearbyEntities. rewrite in_flat_map. split.
    + intros [GridId [Hg Hp]].
      destruct (FindCell GridId (GridCells sp)) as [Cell|] eqn:Ef; [|destruct Hp].
      apply filter_In in Hp. destruct Hp as [Hin Hn].
      unfold IsNearby in Hn.
      destruct (Deref tb p) as [e|] eqn:Ed; [|discriminate].
      apply andb_true_iff in Hn. destruct Hn as [Hn Hd].
      apply andb_true_iff in Hn. destruct Hn as [He Ho].
      exists GridId, Cell, e. repeat split; try assumption.
      apply negb_true_iff, Nat.eqb_neq in Ho. exact Ho.
    + intros (GridId & Cell & e & Hg & Hf & Hin & Hd & He & Ho & Hr).
      exists GridId. split; [exact Hg|]. rewrite Hf.
      apply filter_In. split; [exact Hin|].
      unfold IsNearby. rewrite Hd, He, Hr.
      apply Nat.eqb_neq in Ho. now rewrite Ho.
  - cbv zeta. intros c. unfold NearbyGrids. cbv zeta.
    set (Center := CalculateGridCell (GridCellSize sp) P).
    set (R := CeilToInt (fdiv Radius (GridCellSize sp))).
    set (CX := Z.land (Z.shiftr Center 10) 63).
    set (CY := Z.land (Z.shiftr Center 4) 63).
    set (CZ := Z.land Center 15).
    cbn [In]. split.
    + intros [H|H]; [now left|].
      apply in_flat_map in H. destruct H as [dx [Hx H]].
      apply in_flat_map in H. destruct H as [dy [Hy H]].
      apply in_flat_map in H. destruct H as [dz [Hz H]].
      apply In_ZRange in Hx, Hy, Hz.
      apply In_NeighbourCell in H. destruct H as (Hb & -> & _).
      right. exists (CX + dx), (CY + dy), (CZ + dz).
      repeat split; lia.
    + intros [->|(X & Y & Z0 & HX & HY & HZ & ->)]; [now left|].
      destruct (Z.eq_dec Center (PackCell X Y Z0)) as [E|E]; [now left|right].
      apply in_flat_map. exists (X - CX). split; [apply In_ZRange; lia|].
      apply in_flat_map. exists (Y - CY). split; [apply In_ZRange; lia|].
      apply in_flat_map. exists (Z0 - CZ). split; [apply In_ZRange; lia|].
      apply In_NeighbourCell.
      replace (CX + (X - CX)) with X by lia.
      replace (CY + (Y - CY)) with Y by lia.
      replace (CZ + (Z0 - CZ)) with Z0 by lia.
      repeat split; lia.
Qed.

End SpatialGridFacts.

Section FlushFacts.

Context {FO : FloatOps}.

Lemma FindBatch_app_new (c c' : UClass) (b : FComponentTypeBatch) (tb : BatchMap) :
  FindBatch c' (tb ++ [(c, b)])
  = match FindBatch c' tb with
    | Some x => Some x
    | None => if Nat.eqb c c' then Some b else None
    end.
Proof.
  induction tb as [|[k x] tl IH]; simpl; [reflexivity|].
  destruct (Nat.eqb k c'); [reflexivity|exact IH].
Qed.

Lemma ObjectsOf_FindOrAdd (c c' : UClass) (tb : BatchMap) :
  ObjectsOf (FindOrAddBatch c tb) c' = ObjectsOf tb c'.
Proof.
  unfold ObjectsOf, FindOrAddBatch.
  destruct (FindBatch c tb) eqn:E; [reflexivity|].
  rewrite FindBatch_app_new.
  destruct (FindBatch c' tb); [reflexivity|].
  now destruct (Nat.eqb c c').
Qed.

Lemma FindBatch_FindOrAdd (c : UClass) (tb : BatchMap) :
  exists b, FindBatch c (FindOrAddBatch c tb) = Some b.
Proof.
  unfold FindOrAddBatch. destruct (FindBatch c tb) as [b|] eqn:E.
  - now exists b.
  - exists DefaultBatch. now rewrite FindBatch_app_new, E, Nat.eqb_refl.
Qed.

(** An update of a batch that keeps the objects of its descriptors keeps
    the objects of every batch. *)
Lemma ObjectsOf_UpdateBatch_same (c c' : UClass)
    (f : FComponentTypeBatch -> FComponentTypeBatch) (tb : BatchMap) :
  (forall b, map Object (TickEntities (f b)) = map Object (TickEntities b)) ->
  ObjectsOf (UpdateBatch c f tb) c' = ObjectsOf tb c'.
Proof.
  intros Hf. unfold ObjectsOf. rewrite FindBatch_UpdateBatch.
  destruct (Nat.eqb_spec c' c) as [->|]; [|reflexivity].
  destruct (FindBatch c tb); simpl; [apply Hf|reflexivity].
Qed.

Lemma ObjectsOf_UpdateBatch (c c' : UClass)
    (f : FComponentTypeBatch -> FComponentTypeBatch) (tb : BatchMap) :
  ObjectsOf (UpdateBatch c f tb) c'
  = if Nat.eqb c' c
    then match FindBatch c tb with
         | Some b => map Object (TickEntities (f b))
         | None => []
         end
    else ObjectsOf tb c'.
Proof.
  unfold ObjectsOf. rewrite FindBatch_UpdateBatch.
  destruct (Nat.eqb c' c); [|reflexivity].
  now destruct (FindBatch c tb).
Qed.

Lemma UpdateNth_objects (i : nat) (f : FTickEntityData -> FTickEntityData)
    (l : list FTickEntityData) :
  (forall e, Object (f e) = Object e) ->
  map Object (UpdateNth i f l) = map Object l.
Proof.
  intros Hf. revert i. induction l as [|x l IH]; intros i;
    [now destruct i|].
  destruct i; simpl; [now rewrite Hf|now rewrite IH].
Qed.

(** [AddEntity] writes a bucket id only. *)
Lemma AddEntity_objects (tb : BatchMap) (sp : FSpatialEntityBatch) (p : EntityPtr)
    (c : UClass) :
  ObjectsOf (fst (AddEntity tb sp p)) c = ObjectsOf tb c.
Proof.
  unfold AddEntity. destruct (Deref tb p); [|reflexivity].
  destruct (Nat.eqb (Object f) 0); [reflexivity|].
  cbn [fst]. unfold WriteEntity. destruct p; [reflexivity|].
  apply ObjectsOf_UpdateBatch_same. intros b.
  cbn [TickEntities set_TickEntities]. now apply UpdateNth_objects.
Qed.

(** The flush appends one descriptor to the batch of the class and leaves
    the other batches alone. *)
Lemma AddToBatch_objects (s : UEnhancedTickSystem) (w : Engine) (c : UClass)
    (g : ETickingGroup) (d : BatchDispatcher) (F : Z) (e : FTickEntityData)
    (c' : UClass) :
  ObjectsOf (TypeBatches (AddToBatch s w c g d F e)) c'
  = ObjectsOf (TypeBatches s) c' ++ (if Nat.eqb c' c then [Object e] else []).
Proof.
  unfold AddToBatch.
  set (tb1 := FindOrAddBatch c (TypeBatches s)).
  set (fresh := match FindBatch c tb1 with
                | Some Batch => IsEmpty (TypeName Batch)
                | None => false
                end).
  set (tb2 := if fresh
              then UpdateBatch c (fun b => InitBatch b (ClassName w c) g F d) tb1
              else tb1).
  set (tb3 := UpdateBatch c
                (fun b => set_TickEntities b (TickEntities b ++ [e])) tb2).
  assert (H2 : forall k, ObjectsOf tb2 k = ObjectsOf (TypeBatches s) k).
  { intros k. subst tb2. destruct fresh.
    - rewrite ObjectsOf_UpdateBatch_same by reflexivity.
      apply ObjectsOf_FindOrAdd.
    - apply ObjectsOf_FindOrAdd. }
  assert (Hex : exists b, FindBatch c tb2 = Some b).
  { destruct (FindBatch_FindOrAdd c (TypeBatches s)) as [b Hb]. fold tb1 in Hb.
    subst tb2. destruct fresh.
    - rewrite FindBatch_UpdateBatch, Nat.eqb_refl, Hb. simpl. eauto.
    - eauto. }
  assert (H3 : ObjectsOf tb3 c'
               = ObjectsOf (TypeBatches s) c'
                 ++ (if Nat.eqb c' c then [Object e] else [])).
  { subst tb3. rewrite ObjectsOf_UpdateBatch.
    destruct (Nat.eqb_spec c' c) as [->|].
    - destruct Hex as [b Hb]. rewrite Hb. cbn [TickEntities set_TickEntities].
      rewrite map_app. simpl. f_equal.
      rewrite <- H2. unfold ObjectsOf. now rewrite Hb.
    - rewrite app_nil_r. apply H2. }
  destruct (EnumHasAnyFlags F SpatialAware && SpatialLock (SpatialBatch s)).
  - pose proof (AddEntity_objects tb3 (SpatialBatch s)
                  (SlotAt c match FindBatch c tb2 with
                            | Some Batch => List.length (TickEntities Batch)
                            | None => 0%nat
                            end) c') as Ha.
    destruct (AddEntity tb3 _ _) as [tb4 sp4]. cbn [fst] in Ha.
    cbn [TypeBatches set_Core]. now rewrite Ha.
  - cbn [TypeBatches set_Core]. exact H3.
Qed.

Lemma ProcessRegistration_objects (w : Engine) (s : UEnhancedTickSystem)
    (o : UObject) (F : Z) (c : UClass) :
  ObjectsOf (TypeBatches (ProcessRegistration w s (o, F))) c
  = ObjectsOf (TypeBatches s) c
    ++ (if Registrable w o && Nat.eqb c (GetClass w o) then [o] else []).
Proof.
  unfold ProcessRegistration, Registrable.
  destruct (IsValid w o); cbn [negb andb]; [|now rewrite app_nil_r].
  destruct (Cast w UActorComponent o); cbn [orb andb].
  - destruct (negb (Nat.eqb (GetClass w o) 0) && ClassIsValid w (GetClass w o));
      cbn [negb andb]; [|now rewrite app_nil_r].
    now rewrite AddToBatch_objects.
  - destruct (Cast w AActor o); cbn [orb andb]; [|now rewrite app_nil_r].
    destruct (negb (Nat.eqb (GetClass w o) 0) && ClassIsValid w (GetClass w o));
      cbn [negb andb]; [|now rewrite app_nil_r].
    now rewrite AddToBatch_objects.
Qed.

(** The registration half of the flush appends, to the batch of each
    class, the registrable objects of that class in queue order. *)
Lemma ProcessRegistrations_objects (w : Engine) (regs : list (UObject * Z))
    (c : UClass) :
  forall s,
    ObjectsOf (TypeBatches (fold_left (ProcessRegistration w) regs s)) c
    = ObjectsOf (TypeBatches s) c
      ++ filter (fun o => Registrable w o && Nat.eqb c (GetClass w o))
                (map fst regs).
Proof.
  induction regs as [|[o F] regs IH]; intros s.
  - simpl. now rewrite app_nil_r.
  - cbn [fold_left]. rewrite IH, ProcessRegistration_objects, <- app_assoc.
    f_equal. cbn [map fst filter].
    now destruct (Registrable w o && Nat.eqb c (GetClass w o)).
Qed.

Lemma FindObject_RemoveAt (o : UObject) (l : list FTickEntityData) :
  forall k,
    match FindObject o l k with
    | Some i => exists j, i = (k + j)%nat
                  /\ map Object (RemoveAt j l) = RemoveFirst o (map Object l)
    | None => RemoveFirst o (map Object l) = map Object l
    end.
Proof.
  induction l as [|e l IH]; intros k; simpl; [reflexivity|].
  destruct (Nat.eqb (Object e) o) eqn:E.
  - exists 0%nat. split; [lia|reflexivity].
  - specialize (IH (S k)). destruct (FindObject o l (S k)) as [i|].
    + destruct IH as [j [Hi Hj]]. exists (S j). split; [lia|].
      change (RemoveAt (S j) (e :: l)) with (e :: RemoveAt j l).
      cbn [map]. now rewrite Hj.
    + now rewrite IH.
Qed.

(** The body of the unregistration loop takes the first descriptor of the
    object out of the batch it visits. *)
Lemma UnregisterFromBatch_objects (o : UObject) (s : UEnhancedTickSystem)
    (c c' : UClass) :
  ObjectsOf (TypeBatches (UnregisterFromBatch o s c)) c'
  = if Nat.eqb c' c then RemoveFirst o (ObjectsOf (TypeBatches s) c')
    else ObjectsOf (TypeBatches s) c'.
Proof.
  unfold UnregisterFromBatch.
  destruct (FindBatch c (TypeBatches s)) as [Batch|] eqn:Ef.
  - pose proof (FindObject_RemoveAt o (TickEntities Batch) 0) as H.
    destruct (FindObject o (TickEntities Batch) 0) as [i|].
    + destruct H as [j [-> Hj]]. cbn [TypeBatches set_Core].
      rewrite ObjectsOf_UpdateBatch.
      destruct (Nat.eqb_spec c' c) as [->|]; [|reflexivity].
      rewrite Ef. cbn [TickEntities set_TickEntities].
      unfold ObjectsOf. now rewrite Ef.
    + destruct (Nat.eqb_spec c' c) as [->|]; [|reflexivity].
      unfold ObjectsOf. now rewrite Ef, H.
  - destruct (Nat.eqb_spec c' c) as [->|]; [|reflexivity].
    unfold ObjectsOf. now rewrite Ef.
Qed.

Lemma count_RemoveFirst_other (o x : UObject) (l : list UObject) :
  x <> o -> count_occ Nat.eq_dec (RemoveFirst o l) x = count_occ Nat.eq_dec l x.
Proof.
  intros Hx. induction l as [|y l IH]; [reflexivity|].
  simpl. destruct (Nat.eqb_spec y o) as [->|Hy].
  - destruct (Nat.eq_dec o x); [congruence|reflexivity].
  - simpl. destruct (Nat.eq_dec y x); now rewrite IH.
Qed.



Lemma ProcessRegistrations_unregs (w : Engine) (regs : list (UObject * Z)) :
  forall s,
    PendingUnregistrations (fold_left (ProcessRegistration w) regs s)
    = PendingUnregistrations s.
Proof.
  intros s.
  apply (fold_left_preserves
           (fun t => PendingUnregistrations t = PendingUnregistrations s));
    [|reflexivity].
  intros t [o F] Ht. rewrite <- Ht. unfold ProcessRegistration.
  assert (HA : forall c g d e,
             PendingUnregistrations (AddToBatch t w c g d F e)
             = PendingUnregistrations t).
  { intros c g d e. unfold AddToBatch.
    destruct (EnumHasAnyFlags F SpatialAware && SpatialLock (SpatialBatch t));
      [|reflexivity].
    destruct (AddEntity _ _ _). reflexivity. }
  repeat match goal with
         | |- context [if ?c then _ else _] => destruct c
         end; try reflexivity; apply HA.
Qed.

Lemma count_filter_absent (f : UObject -> bool) (l : list UObject) (x : UObject) :
  ~ In x l -> count_occ Nat.eq_dec (filter f l) x = 0%nat.
Proof.
  intros H. apply count_occ_not_In. intros Hin.
  apply filter_In in Hin. tauto.
Qed.



Lemma count_RemoveFirst_self (o : UObject) (l : list UObject) :
  count_occ Nat.eq_dec (RemoveFirst o l) o = pred (count_occ Nat.eq_dec l o).
Proof.
  induction l as [|y l IH]; [reflexivity|].
  simpl. destruct (Nat.eqb_spec y o) as [->|Hy].
  - destruct (Nat.eq_dec o o); [reflexivity|congruence].
  - simpl. destruct (Nat.eq_dec y o); [congruence|exact IH].
Qed.

Lemma count_RemoveFirst_le (o x : UObject) (l : list UObject) :
  (count_occ Nat.eq_dec (RemoveFirst o l) x <= count_occ Nat.eq_dec l x)%nat.
Proof.
  destruct (Nat.eq_dec x o) as [->|Hx].
  - rewrite count_RemoveFirst_self. lia.
  - rewrite count_RemoveFirst_other by exact Hx. lia.
Qed.

(** No unregistration adds a descriptor. *)
Lemma ProcessUnregistration_le (w : Engine) (o x : UObject) (c : UClass)
    (s : UEnhancedTickSystem) :
  (DescriptorsOf (TypeBatches (ProcessUnregistration w s o)) c x
   <= DescriptorsOf (TypeBatches s) c x)%nat.
Proof.
  unfold ProcessUnregistration. destruct (negb (IsValid w o)); [lia|].
  apply (fold_left_preserves
           (fun t => (DescriptorsOf (TypeBatches t) c x
                      <= DescriptorsOf (TypeBatches s) c x)%nat)); [|lia].
  intros t k Ht. unfold DescriptorsOf in *.
  rewrite UnregisterFromBatch_objects.
  destruct (Nat.eqb c k); [|exact Ht].
  pose proof (count_RemoveFirst_le o x (ObjectsOf (TypeBatches t) c)). lia.
Qed.

Lemma FindBatch_key (c : UClass) (tb : BatchMap) (b : FComponentTypeBatch) :
  FindBatch c tb = Some b -> In c (map fst tb).
Proof.
  induction tb as [|[k v] tl IH]; simpl; [discriminate|].
  destruct (Nat.eqb_spec k c) as [->|]; [now left|].
  intros H. right. now apply IH.
Qed.

(** The unregistration of a live object takes one of its descriptors out of
    every batch that holds one. *)
Lemma ProcessUnregistration_self (w : Engine) (o : UObject) (c : UClass)
    (s : UEnhancedTickSystem) :
  IsValid w o = true ->
  (DescriptorsOf (TypeBatches s) c o <= 1)%nat ->
  DescriptorsOf (TypeBatches (ProcessUnregistration w s o)) c o = 0%nat.
Proof.
  intros Hv H1. unfold ProcessUnregistration. rewrite Hv. cbn [negb].
  assert (Hk : In c (map fst (TypeBatches s))
               \/ DescriptorsOf (TypeBatches s) c o = 0%nat).
  { unfold DescriptorsOf, ObjectsOf in *.
    destruct (FindBatch c (TypeBatches s)) eqn:E; [left|now right].
    eapply FindBatch_key; eassumption. }
  revert H1 Hk. generalize (map fst (TypeBatches s)) as keys. intros keys.
  revert s. induction keys as [|k keys IH]; intros s H1 Hk.
  - destruct Hk as [[]|Hk]. exact Hk.
  - cbn [fold_left].
    assert (Hstep : DescriptorsOf (TypeBatches (UnregisterFromBatch o s k)) c o
                    = if Nat.eqb c k
                      then pred (DescriptorsOf (TypeBatches s) c o)
                      else DescriptorsOf (TypeBatches s) c o).
    { unfold DescriptorsOf. rewrite UnregisterFromBatch_objects.
      destruct (Nat.eqb c k); [apply count_RemoveFirst_self|reflexivity]. }
    apply IH.
    + rewrite Hstep. destruct (Nat.eqb c k); lia.
    + rewrite Hstep. destruct (Nat.eqb_spec c k) as [->|Hne].
      * right. lia.
      * destruct Hk as [[Hk|Hk]|Hk]; [congruence|now left|now right].
Qed.

(** The batch half of the register-then-unregister law: an entity with no
    descriptor and no pending registration, registered and unregistered
    before the flush, has no descriptor in any batch after it. *)
Lemma register_then_unregister_batches (w : Engine) (s : UEnhancedTickSystem)
    (x : UObject) (F : Z) (c : UClass) :
  (forall k, DescriptorsOf (TypeBatches s) k x = 0%nat) ->
  ~ In x (map fst (PendingRegistrations s)) ->
  DescriptorsOf
    (TypeBatches (ProcessDeferredOperations w
       (UnregisterComponent w (RegisterComponent w s x F) x))) c x = 0%nat.
Proof.
  intros H0 Hnr.
  assert (Hfold : forall unregs t,
            (DescriptorsOf
               (TypeBatches (fold_left (ProcessUnregistration w) unregs t)) c x
             <= DescriptorsOf (TypeBatches t) c x)%nat).
  { induction unregs as [|o unregs IH]; intros t; cbn [fold_left]; [lia|].
    etransitivity; [apply IH|apply ProcessUnregistration_le]. }
  assert (Hregs : forall regs,
            (count_occ Nat.eq_dec (map fst regs) x <= 1)%nat ->
            (DescriptorsOf
               (TypeBatches (fold_left (ProcessRegistration w) regs s)) c x
             <= 1)%nat).
  { intros regs Hc. unfold DescriptorsOf.
    rewrite ProcessRegistrations_objects, count_occ_app.
    specialize (H0 c). unfold DescriptorsOf in H0. rewrite H0. simpl.
    etransitivity; [|exact Hc].
    clear Hc. induction (map fst regs) as [|o l IH]; simpl; [lia|].
    destruct (Registrable w o && Nat.eqb c (GetClass w o)); simpl;
      destruct (Nat.eq_dec o x); lia. }
  rewrite (count_occ_not_In Nat.eq_dec) in Hnr.
  unfold UnregisterComponent, RegisterComponent.
  destruct (IsValid w x) eqn:Hv; cbn [negb].
  - cbn [PendingRegistrations PendingUnregistrations set_Pending].
    unfold ProcessDeferredOperations, ProcessDeferredOperationsImpl,
      ProcessUnregistrations, ProcessRegistrations.
    cbn [TypeBatches PendingRegistrations PendingUnregistrations set_Pending].
    rewrite ProcessRegistrations_unregs.
    cbn [PendingUnregistrations set_Pending].
    rewrite fold_left_app. cbn [fold_left].
    apply ProcessUnregistration_self; [exact Hv|].
    etransitivity; [apply Hfold|].
    match goal with
    | |- (DescriptorsOf (TypeBatches (fold_left _ ?r ?t)) _ _ <= _)%nat =>
        change t with (set_Pending s r (PendingUnregistrations s ++ [x]))
    end.
    match goal with
    | |- (DescriptorsOf (TypeBatches (fold_left _ ?r _)) _ _ <= _)%nat =>
        pose proof (Hregs r) as Hr
    end.
    rewrite map_app, count_occ_app, Hnr in Hr. simpl in Hr.
    destruct (Nat.eq_dec x x); [|congruence].
    etransitivity; [|apply Hr; lia].
    unfold DescriptorsOf.
    rewrite !ProcessRegistrations_objects. reflexivity.
  - unfold ProcessDeferredOperations, ProcessDeferredOperationsImpl,
      ProcessUnregistrations, ProcessRegistrations.
    cbn [TypeBatches set_Pending].
    apply Nat.le_0_r. etransitivity; [apply Hfold|].
    unfold DescriptorsOf.
    rewrite ProcessRegistrations_objects, count_occ_app.
    specialize (H0 c). unfold DescriptorsOf in H0. rewrite H0. simpl.
    rewrite count_filter_absent; [lia|].
    now apply (count_occ_not_In Nat.eq_dec).
Qed.

End FlushFacts.

(** * The statements at concrete inputs *)

Lemma LatticeFloat_strict : @flt_strict LatticeFloat.
Proof.
  split; cbn [flt LatticeFloat].
  - intros a. destruct (Qltb a a) eqn:E; [|reflexivity].
    apply Qltb_lt in E. exfalso. exact (Qlt_irrefl a E).
  - intros a b c H1 H2. apply Qltb_lt in H1, H2. apply Qltb_lt.
    exact (Qlt_trans _ _ _ H1 H2).
Qed.

Lemma InsertSorted_perm {A : Type} (before : A -> A -> bool) (x : A) (l : list A) :
  Permutation (InsertSorted before x l) (x :: l).
Proof.
  induction l as [|y l IH]; simpl; [reflexivity|].
  destruct (before y x); [|reflexivity].
  etransitivity; [apply perm_skip, IH|apply perm_swap].
Qed.

Lemma InsertSorted_sorted {A : Type} (before : A -> A -> bool) (x : A) (l : list A) :
  StrictWeak before ->
  StronglySorted (fun a b => before b a = false) l ->
  StronglySorted (fun a b => before b a = false) (InsertSorted before x l).
Proof.
  intros [Hasym Hneg]. induction 1 as [|y l Hs IH Hall]; simpl.
  - constructor; constructor.
  - destruct (before y x) eqn:E.
    + constructor; [exact IH|].
      rewrite Forall_forall in *. intros z Hz.
      apply (Permutation_in z (InsertSorted_perm before x l)) in Hz.
      destruct Hz as [<-|Hz]; [now apply Hasym|now apply Hall].
    + constructor; [now constructor|].
      constructor; [exact E|].
      rewrite Forall_forall in *. intros z Hz.
      apply (Hneg z y x); [now apply Hall|exact E].
Qed.

(** Insertion sort keeps the promise of the engine's sort. *)
Lemma DemoEngine_SortContract (now : Q) : SortContract (DemoEngine now).
Proof.
  intros before l Hsw. cbn [ArraySort DemoEngine].
  induction l as [|x l [IHp IHs]]; simpl.
  - split; [reflexivity|constructor].
  - split.
    + etransitivity; [apply InsertSorted_perm|now apply perm_skip].
    + now apply InsertSorted_sorted.
Qed.

(** C1, counterexample: a fresh system with one low-priority batch, run
    for nine frames, ticks the batch in frames 2, 5 and 8, not in frames 0,
    3 and 6. *)
Lemma LowPrio_throttle_not_036 :
  EnumHasAnyFlags (Flags (BatchAt (TypeBatches (fst (nth 0 ThrottleRun
                      (ThrottleStart, {| BatchTicks := []; GridTicks := [] |}))))
                    7%nat)) LowPrio = true
  /\ FramesTicking 7%nat 0 (map snd ThrottleRun) = [2; 5; 8]%nat
  /\ FramesTicking 7%nat 0 (map snd ThrottleRun) <> [0; 3; 6]%nat.
Proof.
  split; [vm_compute; reflexivity|].
  assert (H : FramesTicking 7%nat 0 (map snd ThrottleRun) = [2; 5; 8]%nat)
    by (vm_compute; reflexivity).
  split; [exact H|]. rewrite H. discriminate.
Qed.

Lemma LowPrio_throttle_witness :
  TickedIn 7%nat (snd (nth 2 ThrottleRun
                         (ThrottleStart, {| BatchTicks := []; GridTicks := [] |})))
  = true
  <-> (2 = 2 \/ 2 = 5 \/ 2 = 8)%nat.
Proof.
  pose (d := (ThrottleStart, {| BatchTicks := []; GridTicks := [] |})).
  refine (proj2 (proj2 (proj2
    (LowPrio_throttle (repeat (DemoEngine 100) 9) ThrottleStart 2
       (fst (nth 2 ThrottleRun d)) (snd (nth 2 ThrottleRun d))
       TG_PrePhysics 7%nat
       (BatchAt (TypeBatches (fst (nth 2 ThrottleRun d))) 7%nat)
       eq_refl _ _ _ _))) _ _).
  - vm_compute. reflexivity.
  - simpl. tauto.
  - vm_compute. tauto.
  - vm_compute. reflexivity.
  - vm_compute. reflexivity.
  - lia.
Defined.

(** C2, failing input: a batch that is parallel-eligible and
    low-priority, with a batch callable and one enabled, valid entity that
    is no primitive, scene or character-movement component, while the
    clock reads 0 s. The parallel tick calls the entity; the sequential
    tick of the same batch, held back by its test on the clock, calls
    nobody: the two sets of invoked entities differ. *)
Lemma TickBatchParallel_differs_under_clock_gate :
  let b := DemoBatch (Z.lor UseParallel LowPrio) [DemoEntity 1%nat 0 true] in
  snd (TickBatchParallel (DemoEngine 0) 100 b) = [DemoEntity 1%nat 0 true]
  /\ snd (TickBatch (DemoEngine 0) 100 b) = [].
Proof. split; vm_compute; reflexivity. Qed.

Lemma TickBatchParallel_contract_witness :
  In (DemoEntity 3%nat 2 true)
     (snd (TickBatchParallel (DemoEngine 100) 100
             (DemoBatch UseParallel TwentyEntities)))
  <-> In (DemoEntity 3%nat 2 true)
         (snd (TickBatch (DemoEngine 100) 100
                 (DemoBatch UseParallel TwentyEntities))).
Proof.
  refine (proj2 (proj2 (proj2
    (TickBatchParallel_contract (DemoEngine 100) 100
       (DemoBatch UseParallel TwentyEntities) GenericTick eq_refl _))) _ _
    (DemoEntity 3%nat 2 true)).
  - vm_compute. discriminate.
  - reflexivity.
  - intros e He _.
    apply in_map_iff in He. destruct He as [k [<- _]]. split; reflexivity.
Defined.

(** C3, failing input: a batch of four entities of which the second is
    disabled. After the sort the batch holds three entities; the disabled
    one is gone. *)
Lemma SortForCacheLocality_drops_disabled :
  let b := DemoBatch FlagNone
             [DemoEntity 1%nat 0 true; DemoEntity 2%nat 5 false;
              DemoEntity 3%nat 30 true; DemoEntity 4%nat 10 true] in
  TickEntities (SortForCacheLocality (DemoEngine 100) b)
  = [DemoEntity 1%nat 0 true; DemoEntity 4%nat 10 true; DemoEntity 3%nat 30 true]
  /\ ~ Permutation (TickEntities (SortForCacheLocality (DemoEngine 100) b))
                   (TickEntities b).
Proof.
  cbv zeta. split; [vm_compute; reflexivity|].
  intros H. apply Permutation_length in H. vm_compute in H. discriminate.
Qed.

(** C4, counterexample: a disabled entity at the queried position, member
    of the centre cell, is not returned. *)
Lemma GetNearbyEntities_skips_disabled :
  let tb := fst DisabledInGrid in
  let sp := snd DisabledInGrid in
  GetNearbyEntities tb sp (0, 0, 0) (float_lit 100) = []
  /\ In 0 (NearbyGrids (GridCellSize sp) (0, 0, 0) (float_lit 100))
  /\ FindCell 0 (GridCells sp) = Some [SlotAt 7 0]
  /\ Deref tb (SlotAt 7 0) = Some (DemoEntity 1%nat 0 false)
  /\ fle (Distance (0, 0, 0) (Position (DemoEntity 1%nat 0 false))) (float_lit 100)
     = true.
Proof. cbv zeta. repeat split; vm_compute; tauto. Qed.

(** C5, counterexample: a batch of character-movement components with a
    rolling average of 1500 ns and 20 entities. After one pass of
    OptimizeBatches its UseParallel flag is not set: the only flag it
    carries is SpatialAware. *)
Lemma OptimizeBatches_scenario_not_parallel :
  (AverageTickTimeNs BusyBatch == 1500)%Q
  /\ Num (TickEntities BusyBatch) = 20
  /\ FindBatch 7%nat (TypeBatches BusySystem) = Some BusyBatch
  /\ option_map CanTickInParallel
       (FindBatch 7%nat (TypeBatches (OptimizeBatches MovementEngine BusySystem)))
     = Some false
  /\ option_map Flags
       (FindBatch 7%nat (TypeBatches (OptimizeBatches MovementEngine BusySystem)))
     = Some SpatialAware.
Proof. repeat split; vm_compute; reflexivity. Qed.

Lemma OptimizeBatches_scenario_witness :
  exists b',
    FindBatch 7%nat (TypeBatches (OptimizeBatches (DemoEngine 100) BusySystem))
    = Some b'
    /\ CanTickInParallel b' = true.
Proof.
  destruct (OptimizeBatches_scenario (DemoEngine 100) BusySystem 7%nat BusyBatch
              eq_refl) as [b' [H1 [H2 _]]].
  exists b'. split; [exact H1|].
  rewrite H2; reflexivity.
Defined.

(** C6, counterexample: two batches with equal flags, the first holding
    two entities and ticked for two in the last frame, the second holding
    three and ticked for one. The sort puts the second first: the order
    follows the number of entities held, against the last-frame counts. *)
Lemma SortBatchesByPriority_not_by_active_count :
  let s := SortBatchesByPriority (DemoEngine 100) (DemoSystem TieBatches) in
  FindGroup TG_PrePhysics (GroupedBatches s) = Some [2; 1]%nat
  /\ LastFrameTickCount (BatchAt (TypeBatches s) 2%nat)
     < LastFrameTickCount (BatchAt (TypeBatches s) 1%nat)
  /\ Flags (BatchAt (TypeBatches s) 2%nat) = Flags (BatchAt (TypeBatches s) 1%nat).
Proof. cbv zeta. repeat split; vm_compute; reflexivity. Qed.

Lemma SortBatchesByPriority_order_witness :
  TypeBatches (SortBatchesByPriority (DemoEngine 100) (DemoSystem TieBatches))
  = TieBatches.
Proof.
  exact (proj1 (SortBatchesByPriority_order (DemoEngine 100) (DemoSystem TieBatches)
                  TG_PrePhysics [1; 2]%nat
                  (DemoEngine_SortContract 100) eq_refl)).
Defined.

(** C7, failing input: components 1 and 2 of one class, both registered as
    spatially aware and both unregistered before the flush, 1 first. After
    the registrations the grid holds the slots 0 and 1 of the batch, and
    slot 1 is the descriptor of component 2. After the whole flush the
    batch is empty but the grid still holds slot 1: the removal of
    component 2 was asked for slot 0, where the removal of component 1 had
    moved its descriptor. *)
Lemma unregister_leaves_pointer_in_grid :
  let w := DemoEngine 100 in
  let mid := ProcessRegistrations w TwoInTwoOut in
  let final := ProcessDeferredOperations w TwoInTwoOut in
  GridCells (SpatialBatch mid) = [(0, [SlotAt 7 0; SlotAt 7 1])]
  /\ option_map Object (Deref (TypeBatches mid) (SlotAt 7 1)) = Some 2%nat
  /\ ObjectsOf (TypeBatches final) 7%nat = []
  /\ GridCells (SpatialBatch final) = [(0, [SlotAt 7 1])]
  /\ AllSpatialEntities (SpatialBatch final) = [SlotAt 7 1].
Proof. cbv zeta. repeat split; vm_compute; reflexivity. Qed.


(** C10, counterexample: a low-priority batch that was ticked for five
    entities in the last frame; its sequential tick at clock 0 s leaves the
    active count at 0, not at 5. *)
Lemma TickBatch_gate_resets_count :
  let b := set_LastFrameTickCount
             (DemoBatch LowPrio [DemoEntity 1%nat 0 true]) 5 in
  EnumHasAnyFlags (Flags b) LowPrio = true
  /\ LastFrameTickCount b = 5
  /\ LastFrameTickCount (fst (TickBatch (DemoEngine 0) 100 b)) = 0
  /\ LastFrameTickCount (fst (TickBatch (DemoEngine 0) 100 b))
     <> LastFrameTickCount b.
Proof. cbv zeta. repeat split; vm_compute; congruence. Qed.

Lemma TickBatch_LowPrio_clock_gate_witness :
  snd (TickBatch (DemoEngine 0) 100
         (DemoBatch LowPrio [DemoEntity 1%nat 0 true])) = []
  /\ AverageTickTimeNs (fst (TickBatch (DemoEngine 0) 100
                              (DemoBatch LowPrio [DemoEntity 1%nat 0 true])))
     = AverageTickTimeNs (DemoBatch LowPrio [DemoEntity 1%nat 0 true])
  /\ LastFrameTickCount (fst (TickBatch (DemoEngine 0) 100
                               (DemoBatch LowPrio [DemoEntity 1%nat 0 true])))
     = 0.
Proof.
  apply (TickBatch_LowPrio_clock_gate (DemoEngine 0) 100
           (DemoBatch LowPrio [DemoEntity 1%nat 0 true])); reflexivity.
Defined.

Lemma SortForCacheLocality_idempotent_witness :
  let b := DemoBatch FlagNone
             [DemoEntity 1%nat 0 true; DemoEntity 2%nat 5 false;
              DemoEntity 3%nat 30 true; DemoEntity 4%nat 10 true] in
  SortForCacheLocality (DemoEngine 100) (SortForCacheLocality (DemoEngine 100) b)
  = SortForCacheLocality (DemoEngine 100) b.
Proof.
  cbv zeta. apply SortForCacheLocality_idempotent. exact LatticeFloat_strict.
Defined.

(** * Further properties of the code *)

Section GridIdFacts.

(** The three fields of a grid id do not overlap, checked over the whole
    packed range. *)
Lemma PackCell_fields_in_range :
  forallb (fun X =>
    forallb (fun Y =>
      forallb (fun Z0 =>
        (CellXOf (PackCell X Y Z0) =? X) && (CellYOf (PackCell X Y Z0) =? Y)
        && (CellZOf (PackCell X Y Z0) =? Z0))
        (ZRange 0 15)) (ZRange 0 63)) (ZRange 0 63) = true.
Proof. vm_compute. reflexivity. Qed.

Lemma PackCell_mod (X Y Z0 : Z) :
  PackCell X Y Z0 = PackCell (X mod 64) (Y mod 64) (Z0 mod 16).
Proof.
  unfold PackCell.
  change 63 with (Z.ones 6). change 15 with (Z.ones 4).
  rewrite !Z.land_ones by lia.
  change (2 ^ 6) with 64. change (2 ^ 4) with 16.
  now rewrite !Z.mod_mod by lia.
Qed.

(** X1: taking a grid id apart gives back the cell coordinates it was
    packed from, reduced modulo 64, 64 and 16; within 0..63, 0..63, 0..15
    the coordinates come back unchanged. *)
Theorem PackCell_decode (X Y Z0 : Z) :
  CellXOf (PackCell X Y Z0) = X mod 64
  /\ CellYOf (PackCell X Y Z0) = Y mod 64
  /\ CellZOf (PackCell X Y Z0) = Z0 mod 16
  /\ 0 <= PackCell X Y Z0 < 65536.
Proof.
  rewrite PackCell_mod.
  pose proof (Z.mod_pos_bound X 64 ltac:(lia)) as HX.
  pose proof (Z.mod_pos_bound Y 64 ltac:(lia)) as HY.
  pose proof (Z.mod_pos_bound Z0 16 ltac:(lia)) as HZ.
  pose proof PackCell_fields_in_range as H.
  rewrite forallb_forall in H.
  specialize (H (X mod 64) ltac:(apply In_ZRange; lia)).
  rewrite forallb_forall in H.
  specialize (H (Y mod 64) ltac:(apply In_ZRange; lia)).
  rewrite forallb_forall in H.
  specialize (H (Z0 mod 16) ltac:(apply In_ZRange; lia)).
  apply andb_true_iff in H. destruct H as [H H3].
  apply andb_true_iff in H. destruct H as [H1 H2].
  apply Z.eqb_eq in H1, H2, H3.
  repeat split; try assumption.
  - unfold PackCell. apply Z.mod_pos_bound. lia.
  - unfold PackCell. apply Z.mod_pos_bound. lia.
Qed.

(** X2: two positions whose cell coordinates differ by multiples of 64, 64
    and 16 are filed under the same grid id: the grid wraps around every
    64 cells in X and Y and every 16 cells in Z. *)
Theorem PackCell_wraps (X Y Z0 a b c : Z) :
  PackCell (X + 64 * a) (Y + 64 * b) (Z0 + 16 * c) = PackCell X Y Z0.
Proof.
  rewrite PackCell_mod, (PackCell_mod X Y Z0).
  f_equal.
  - rewrite Z.mul_comm. apply Z.mod_add. lia.
  - rewrite Z.mul_comm. apply Z.mod_add. lia.
  - rewrite Z.mul_comm. apply Z.mod_add. lia.
Qed.

End GridIdFacts.

Section TickSafetyFacts.

Context {FO : FloatOps}.

Lemma Num_filter_le {A : Type} (f : A -> bool) (l : list A) :
  0 <= Num (filter f l) <= Num l.
Proof.
  unfold Num. pose proof (filter_length_le f l). lia.
Qed.

(** The batch after the optional sort holds no more entities than before,
    and the same enabled, valid ones. *)
Lemma SortIfEnabled_active (w : Engine) (b : FComponentTypeBatch) :
  let b1 := if bSortByCacheLocality b then SortForCacheLocality w b else b in
  Num (filter (IsActiveEntity w) (TickEntities b1))
  = Num (filter (IsActiveEntity w) (TickEntities b))
  /\ forall e, In e (filter (IsActiveEntity w) (TickEntities b1))
       <-> In e (TickEntities b) /\ IsActiveEntity w e = true.
Proof.
  pose proof (SortIfEnabled_fields w b) as (_ & _ & _ & _ & _ & Hp).
  cbv zeta in *. split.
  - unfold Num. now rewrite (Permutation_length Hp).
  - intros e. rewrite <- filter_In. split; apply Permutation_in;
      [exact Hp|exact (Permutation_sym Hp)].
Qed.

Lemma TickBatch_calls_and_count (w : Engine) (El : Q) (b : FComponentTypeBatch) :
  (forall e, In e (snd (TickBatch w El b)) ->
     In e (TickEntities b) /\ bEnabled e = true /\ IsValid w (Object e) = true)
  /\ 0 <= LastFrameTickCount (fst (TickBatch w El b))
       <= Num (filter (IsActiveEntity w) (TickEntities b)).
Proof.
  rewrite TickBatch_eq. cbv zeta.
  pose proof (SortIfEnabled_active w (set_LastFrameTickCount b 0)) as [Hn Hin].
  pose proof (SortIfEnabled_fields w (set_LastFrameTickCount b 0))
    as (_ & _ & HC & _).
  cbv zeta in Hn, Hin, HC.
  change (bSortByCacheLocality (set_LastFrameTickCount b 0))
    with (bSortByCacheLocality b) in Hn, Hin, HC.
  change (TickEntities (set_LastFrameTickCount b 0)) with (TickEntities b)
    in Hn, Hin.
  change (LastFrameTickCount (set_LastFrameTickCount b 0)) with 0 in HC.
  pose proof (Num_filter_le (IsActiveEntity w) (TickEntities b)) as Hle.
  destruct (BatchTickFunction b) as [f|]; [|split; [intros e []|simpl; lia]].
  destruct (Num (TickEntities b) =? 0); [split; [intros e []|simpl; lia]|].
  destruct (_ && Qltb _ _); [split; [intros e []|cbn [fst]; lia]|].
  destruct (Num _ =? 0) eqn:E0; [split; [intros e []|cbn [fst]; lia]|].
  cbn [fst snd LastFrameTickCount set_LastFrameTickCount]. split; [|lia].
  intros e He. unfold RunDispatcher in He. apply filter_In in He.
  destruct He as [He _]. apply Hin in He. destruct He as [H1 H2].
  unfold IsActiveEntity in H2. apply andb_true_iff in H2. tauto.
Qed.

(** X3: the sequential tick never calls the update of an entity that is
    disabled or whose object is not valid, and never of one that is not in
    the batch; the last-frame count it leaves is between 0 and the number
    of enabled, valid entities of the batch. *)
Theorem TickBatch_calls_only_active (w : Engine) (El : Q) (b : FComponentTypeBatch) :
  (forall e, In e (snd (TickBatch w El b)) ->
     In e (TickEntities b) /\ bEnabled e = true /\ IsValid w (Object e) = true)
  /\ 0 <= LastFrameTickCount (fst (TickBatch w El b))
       <= Num (filter (IsActiveEntity w) (TickEntities b)).
Proof.
  split.
  - intros e He. now apply (proj1 (TickBatch_calls_and_count w El b)).
  - apply (proj2 (TickBatch_calls_and_count w El b)).
Qed.

Lemma In_ThreadView {A : Type} (l : list A) (E k : Z) (x : A) :
  In x (ThreadView l E k) -> In x l.
Proof.
  unfold ThreadView. destruct (_ >=? _); [intros []|].
  intros H.
  set (n := Z.to_nat (k * E)) in *.
  set (m := Z.to_nat (Z.min (k * E + E) (Num l) - k * E)) in *.
  rewrite <- (firstn_skipn n l). apply in_or_app. right.
  rewrite <- (firstn_skipn m (skipn n l)). apply in_or_app. now left.
Qed.

(** X4: the parallel tick, whatever the number of workers, never calls the
    update of an entity that is disabled, whose object is not valid, or
    that is not in the batch. *)
Theorem TickBatchParallel_calls_only_active (w : Engine) (El : Q)
    (b : FComponentTypeBatch) :
  forall e, In e (snd (TickBatchParallel w El b)) ->
    In e (TickEntities b) /\ bEnabled e = true /\ IsValid w (Object e) = true.
Proof.
  intros e. rewrite TickBatchParallel_eq. cbv zeta.
  pose proof (SortIfEnabled_active w (set_LastFrameTickCount b 0)) as [_ Hin].
  cbv zeta in Hin.
  change (bSortByCacheLocality (set_LastFrameTickCount b 0))
    with (bSortByCacheLocality b) in Hin.
  change (TickEntities (set_LastFrameTickCount b 0)) with (TickEntities b) in Hin.
  destruct (BatchTickFunction b) as [f|];
    [|apply (proj1 (TickBatch_calls_and_count w El b))].
  destruct (_ || _); [apply (proj1 (TickBatch_calls_and_count w El b))|].
  destruct (Num _ =? 0); [intros []|].
  set (b1 := if bSortByCacheLocality b
             then SortForCacheLocality w (set_LastFrameTickCount b 0)
             else set_LastFrameTickCount b 0) in *.
  assert (Hact : forall x, In x (filter (IsActiveEntity w) (TickEntities b1)) ->
            In x (TickEntities b) /\ bEnabled x = true
            /\ IsValid w (Object x) = true).
  { intros x Hx. apply Hin in Hx. destruct Hx as [H1 H2].
    unfold IsActiveEntity in H2. apply andb_true_iff in H2. tauto. }
  destruct (existsb _ _).
  - intros He. apply (proj1 (TickBatch_calls_and_count w El b1)) in He.
    destruct He as (H1 & H2 & H3). apply Hact. apply filter_In.
    unfold IsActiveEntity. now rewrite H2, H3.
  - cbn [snd]. intros He. apply in_concat in He. destruct He as [view [Hv He]].
    apply in_map_iff in Hv. destruct Hv as [v [<- Hv]].
    unfold RunTask in He. apply filter_In in He. destruct He as [He _].
    unfold ThreadViews in Hv. apply in_map_iff in Hv.
    destruct Hv as [k [<- _]]. apply In_ThreadView in He. now apply Hact.
Qed.

Lemma Permutation_filter_same {A : Type} (f : A -> bool) (l l' : list A) :
  Permutation l l' -> Permutation (filter f l) (filter f l').
Proof.
  induction 1 as [|x l l' _ IH|x y l|l l' l'' _ IH1 _ IH2]; simpl.
  - constructor.
  - destruct (f x); [now constructor|exact IH].
  - destruct (f x), (f y); try apply Permutation_refl. apply perm_swap.
  - now apply Permutation_trans with (filter f l').
Qed.

Lemma existsb_Permutation {A : Type} (f : A -> bool) (l l' : list A) :
  Permutation l l' -> existsb f l = false -> existsb f l' = false.
Proof.
  intros Hp H. destruct (existsb f l') eqn:E; [|reflexivity].
  apply existsb_exists in E. destruct E as [x [Hx Hfx]].
  apply (Permutation_in _ (Permutation_sym Hp)) in Hx.
  rewrite <- H. symmetry. apply existsb_exists. now exists x.
Qed.

(** X5: on its own path, with at least one worker, the parallel tick makes
    one call per enabled, valid descriptor of the batch that has a bound
    update, and no other call: as a multiset, whatever the order in which
    the tasks run, the calls are the enabled, valid descriptors with a
    bound callable; the last-frame count is the number of enabled, valid
    descriptors. *)
Theorem TickBatchParallel_calls_each_once (w : Engine) (El : Q)
    (b : FComponentTypeBatch) (f : BatchDispatcher)
    (Hf : BatchTickFunction b = Some f)
    (Hpar : CanTickInParallel b = true)
    (HN : 1 <= NumberOfWorkerThreadsToSpawn w)
    (Hne : filter (IsActiveEntity w) (TickEntities b) <> [])
    (Hsafe : existsb (MightBeUnsafe w)
               (filter (IsActiveEntity w) (TickEntities b)) = false) :
  Permutation (snd (TickBatchParallel w El b))
              (filter TickFunction (filter (IsActiveEntity w) (TickEntities b)))
  /\ LastFrameTickCount (fst (TickBatchParallel w El b))
     = Num (filter (IsActiveEntity w) (TickEntities b)).
Proof.
  pose proof (SortIfEnabled_fields w (set_LastFrameTickCount b 0))
    as (_ & _ & _ & _ & _ & Hp).
  cbv zeta in Hp.
  change (bSortByCacheLocality (set_LastFrameTickCount b 0))
    with (bSortByCacheLocality b) in Hp.
  change (TickEntities (set_LastFrameTickCount b 0)) with (TickEntities b) in Hp.
  rewrite TickBatchParallel_eq. cbv zeta.
  set (b1 := if bSortByCacheLocality b
             then SortForCacheLocality w (set_LastFrameTickCount b 0)
             else set_LastFrameTickCount b 0) in *.
  set (Active := filter (IsActiveEntity w) (TickEntities b1)) in *.
  rewrite Hf, Hpar.
  assert (H0 : (Num (TickEntities b) =? 0) = false).
  { apply Z.eqb_neq. intros H. apply Z.eqb_eq, Num_zero in H.
    apply Hne. now rewrite H. }
  rewrite H0. cbn [orb negb].
  assert (H1 : (Num Active =? 0) = false).
  { apply Z.eqb_neq. intros H. apply Z.eqb_eq, Num_zero in H.
    rewrite H in Hp. apply Permutation_nil in Hp. contradiction. }
  rewrite H1.
  rewrite (existsb_Permutation _ _ _ (Permutation_sym Hp) Hsafe).
  cbn [fst snd LastFrameTickCount set_LastFrameTickCount]. split.
  - unfold RunTask. rewrite concat_filter, ThreadViews_concat by exact HN.
    now apply Permutation_filter_same.
  - unfold Num. now rewrite (Permutation_length Hp).
Qed.

(** X6: the tick of the spatial grid calls only entities that it can read
    through a grid pointer, whose object is valid, that are enabled and
    that have a bound update. *)
Theorem TickAllGrids_calls_only_active (w : Engine) (tb : BatchMap)
    (sp : FSpatialEntityBatch) :
  forall e, In e (TickAllGrids w tb sp) ->
    IsValid w (Object e) = true /\ bEnabled e = true /\ TickFunction e = true
    /\ exists g Cell p, In (g, Cell) (GridCells sp) /\ In p Cell
                        /\ Deref tb p = Some e.
Proof.
  intros e He. unfold TickAllGrids in He. apply in_flat_map in He.
  destruct He as [[g Cell] [Hc He]]. unfold TickCell in He. cbn [snd] in He.
  apply in_flat_map in He. destruct He as [p [Hp He]].
  destruct (Deref tb p) as [e'|] eqn:Ed; [|destruct He].
  destruct (IsValid w (Object e') && (bEnabled e' && TickFunction e')) eqn:E;
    [|destruct He].
  destruct He as [<-|[]].
  apply andb_true_iff in E. destruct E as [E1 E2].
  apply andb_true_iff in E2. destruct E2 as [E2 E3].
  repeat split; try assumption. now exists g, Cell, p.
Qed.

End TickSafetyFacts.

Section GreedyChainFacts.

Context {FO : FloatOps}.

(** X7: when at least two entities are enabled and valid, the sort leaves
    the batch holding exactly those entities, each once: the first of them
    in array order stays first, and every following entity is one than
    which no entity placed after it is strictly nearer to its predecessor
    (greedy nearest-neighbour chaining). *)
Theorem SortForCacheLocality_greedy_chain (Hs : flt_strict) (w : Engine)
    (b : FComponentTypeBatch) (v0 v1 : FTickEntityData)
    (rest : list FTickEntityData)
    (Hact : filter (IsActiveEntity w) (TickEntities b) = v0 :: v1 :: rest) :
  exists chain,
    TickEntities (SortForCacheLocality w b) = v0 :: chain
    /\ Permutation chain (v1 :: rest)
    /\ Chained v0 chain.
Proof.
  exists (ChainNearest (List.length (v1 :: rest)) v0 (v1 :: rest)).
  split; [|split].
  - unfold SortForCacheLocality.
    assert (H2 : (Num (filter (IsActiveEntity w) (TickEntities b)) <? 2) = false).
    { rewrite Hact. apply Z.ltb_ge. unfold Num. cbn [List.length]. lia. }
    assert (H1 : (Num (TickEntities b) <? 2) = false).
    { apply Z.ltb_ge. apply Z.ltb_ge in H2.
      pose proof (Num_filter_le (IsActiveEntity w) (TickEntities b)). lia. }
    rewrite H1, H2, Hact. reflexivity.
  - apply ChainNearest_perm. lia.
  - apply ChainNearest_Chained; [exact Hs|lia].
Qed.

(** X8: with fewer than two enabled, valid entities the sort leaves the
    batch exactly as it is, disabled entities included. *)
Theorem SortForCacheLocality_small_batch (w : Engine) (b : FComponentTypeBatch)
    (Hfew : Num (filter (IsActiveEntity w) (TickEntities b)) < 2) :
  SortForCacheLocality w b = b.
Proof.
  destruct (SortForCacheLocality_result w b) as [H|[H _]]; [exact H|lia].
Qed.

End GreedyChainFacts.

Section GridMembershipFacts.

Context {FO : FloatOps}.

Lemma EntityPtr_eqb_eq (p q : EntityPtr) : EntityPtr_eqb p q = true <-> p = q.
Proof.
  destruct p as [|c i], q as [|d j]; simpl; split; try discriminate;
    try reflexivity.
  - intros H. apply andb_true_iff in H. destruct H as [H1 H2].
    apply Nat.eqb_eq in H1, H2. now subst.
  - intros H. injection H as -> ->. now rewrite !Nat.eqb_refl.
Qed.

Lemma nth_error_UpdateNth {A : Type} (f : A -> A) (l : list A) :
  forall i j,
    nth_error (UpdateNth i f l) j
    = if Nat.eqb j i then option_map f (nth_error l j) else nth_error l j.
Proof.
  induction l as [|x l IH]; intros i j.
  - destruct i, j; cbn; try reflexivity; now destruct (Nat.eqb _ _).
  - destruct i as [|i], j as [|j]; simpl; try reflexivity. apply IH.
Qed.

Lemma FindCell_CellAdd (g g' : Z) (p : EntityPtr) (cells : CellMap) :
  FindCell g' (CellAdd g p cells)
  = if g' =? g
    then Some (match FindCell g cells with
               | Some v => v ++ [p]
               | None => [p]
               end)
    else FindCell g' cells.
Proof.
  induction cells as [|[k v] tl IH]; simpl.
  - rewrite (Z.eqb_sym g g'). now destruct (g' =? g).
  - destruct (Z.eqb_spec k g) as [->|Hk]; simpl.
    + rewrite (Z.eqb_sym g g'). now destruct (g' =? g).
    + destruct (Z.eqb_spec k g') as [->|Hk'].
      * destruct (Z.eqb_spec g' g); [congruence|reflexivity].
      * exact IH.
Qed.

(** What [AddEntity] leaves behind for a pointer it accepts. *)
Lemma AddEntity_accepts (tb : BatchMap) (sp : FSpatialEntityBatch) (c : nat)
    (i : nat) (e : FTickEntityData) :
  Deref tb (SlotAt c i) = Some e -> Object e <> 0%nat ->
  let g := CalculateGridCell (GridCellSize sp) (Position e) in
  AddEntity tb sp (SlotAt c i)
  = (WriteEntity tb (SlotAt c i) (fun e => set_SpatialBucketId e g),
     set_Grid sp (CellAdd g (SlotAt c i) (GridCells sp))
              (AllSpatialEntities sp ++ [SlotAt c i])).
Proof.
  intros Hd Ho. unfold AddEntity. rewrite Hd.
  apply Nat.eqb_neq in Ho. now rewrite Ho.
Qed.

Lemma Deref_WriteEntity (tb : BatchMap) (c i : nat) (e : FTickEntityData)
    (f : FTickEntityData -> FTickEntityData) :
  Deref tb (SlotAt c i) = Some e ->
  Deref (WriteEntity tb (SlotAt c i) f) (SlotAt c i) = Some (f e).
Proof.
  unfold Deref, WriteEntity. rewrite FindBatch_UpdateBatch, Nat.eqb_refl.
  destruct (FindBatch c tb) as [b|]; [|discriminate].
  cbn [option_map TickEntities set_TickEntities]. intros H.
  now rewrite nth_error_UpdateNth, Nat.eqb_refl, H.
Qed.

(** X9: after [AddEntity] of a descriptor with an object, the descriptor
    carries the grid id computed from its cached position, and the grid
    holds its pointer in the cell of that id and in the flat list; the
    cells of other ids are as before. *)
Theorem AddEntity_files_under_cell (tb : BatchMap) (sp : FSpatialEntityBatch)
    (c i : nat) (e : FTickEntityData)
    (Hd : Deref tb (SlotAt c i) = Some e)
    (Ho : Object e <> 0%nat) :
  let g := CalculateGridCell (GridCellSize sp) (Position e) in
  let tb' := fst (AddEntity tb sp (SlotAt c i)) in
  let sp' := snd (AddEntity tb sp (SlotAt c i)) in
  Deref tb' (SlotAt c i) = Some (set_SpatialBucketId e g)
  /\ (exists Cell, FindCell g (GridCells sp') = Some Cell /\ In (SlotAt c i) Cell)
  /\ In (SlotAt c i) (AllSpatialEntities sp')
  /\ forall g', g' <> g -> FindCell g' (GridCells sp') = FindCell g' (GridCells sp).
Proof.
  cbv zeta. rewrite (AddEntity_accepts tb sp c i e Hd Ho). cbv zeta.
  cbn [fst snd GridCells AllSpatialEntities set_Grid].
  split.
  { exact (Deref_WriteEntity tb c i e
             (fun e0 => set_SpatialBucketId e0
                          (CalculateGridCell (GridCellSize sp) (Position e))) Hd). }
  split; [|split].
  - rewrite FindCell_CellAdd, Z.eqb_refl. eexists. split; [reflexivity|].
    destruct (FindCell _ _); [apply in_or_app; right|]; now left.
  - apply in_or_app. right. now left.
  - intros g' Hg. rewrite FindCell_CellAdd.
    apply Z.eqb_neq in Hg. now rewrite Hg.
Qed.

Lemma RemoveItem_app_absent (p : EntityPtr) (v : list EntityPtr) :
  ~ In p v -> RemoveItem p (v ++ [p]) = v.
Proof.
  intros Hn. unfold RemoveItem. rewrite filter_app. simpl.
  assert (Hpp : EntityPtr_eqb p p = true) by now apply EntityPtr_eqb_eq.
  rewrite Hpp. simpl. rewrite app_nil_r. apply filter_all.
  intros q Hq. apply negb_true_iff.
  destruct (EntityPtr_eqb q p) eqn:E; [|reflexivity].
  apply EntityPtr_eqb_eq in E. subst. contradiction.
Qed.

Lemma CellSet_CellAdd (g : Z) (p : EntityPtr) (v : list EntityPtr) (cells : CellMap) :
  FindCell g cells = Some v -> CellSet g v (CellAdd g p cells) = cells.
Proof.
  induction cells as [|[k u] tl IH]; simpl; [discriminate|].
  destruct (Z.eqb_spec k g) as [->|Hk]; simpl.
  - intros H. injection H as ->. now rewrite Z.eqb_refl.
  - intros H. apply Z.eqb_neq in Hk. rewrite Hk. now rewrite IH.
Qed.

Lemma CellRemoveKey_CellAdd (g : Z) (p : EntityPtr) (cells : CellMap) :
  FindCell g cells = None -> CellRemoveKey g (CellAdd g p cells) = cells.
Proof.
  unfold CellRemoveKey.
  induction cells as [|[k u] tl IH]; simpl.
  - now rewrite Z.eqb_refl.
  - destruct (Z.eqb_spec k g) as [->|Hk]; [discriminate|].
    intros H. simpl. apply Z.eqb_neq in Hk. rewrite Hk. simpl. now rewrite IH.
Qed.

(** X10: removing an entity right after adding it gives the grid back as
    it was, provided the grid did not hold the pointer already and had no
    empty cell under the entity's id. *)
Theorem AddEntity_RemoveEntity (tb : BatchMap) (sp : FSpatialEntityBatch)
    (c i : nat) (e : FTickEntityData)
    (Hd : Deref tb (SlotAt c i) = Some e)
    (Ho : Object e <> 0%nat)
    (Hall : ~ In (SlotAt c i) (AllSpatialEntities sp))
    (Hcell : forall v,
       FindCell (CalculateGridCell (GridCellSize sp) (Position e)) (GridCells sp)
       = Some v -> v <> [] /\ ~ In (SlotAt c i) v) :
  RemoveEntity (fst (AddEntity tb sp (SlotAt c i)))
               (snd (AddEntity tb sp (SlotAt c i))) (SlotAt c i)
  = sp.
Proof.
  rewrite (AddEntity_accepts tb sp c i e Hd Ho). cbv zeta. cbn [fst snd].
  set (g := CalculateGridCell (GridCellSize sp) (Position e)) in *.
  unfold RemoveEntity.
  rewrite (Deref_WriteEntity tb c i e _ Hd).
  cbn [Object set_SpatialBucketId SpatialBucketId GridCells AllSpatialEntities
       set_Grid].
  apply Nat.eqb_neq in Ho. rewrite Ho.
  rewrite FindCell_CellAdd, Z.eqb_refl.
  rewrite (RemoveItem_app_absent _ _ Hall).
  destruct (FindCell g (GridCells sp)) as [v|] eqn:Ef.
  - destruct (Hcell v eq_refl) as [Hne Hnin].
    rewrite (RemoveItem_app_absent _ _ Hnin).
    assert (Hn : (Num v =? 0) = false).
    { apply Z.eqb_neq. intros H. apply Z.eqb_eq, Num_zero in H. contradiction. }
    rewrite Hn, (CellSet_CellAdd g _ v _ Ef). now destruct sp.
  - assert (Hp : RemoveItem (SlotAt c i) [SlotAt c i] = []).
    { apply (RemoveItem_app_absent (SlotAt c i) []). intros []. }
    rewrite Hp. cbn [Num List.length Z.of_nat Z.eqb].
    rewrite (CellRemoveKey_CellAdd g _ _ Ef). now destruct sp.
Qed.

(** X11: an enabled entity that has been added to the grid is found by a
    query centred on its own cached position, for every radius that the
    distance of the position to itself does not exceed. *)
Theorem AddEntity_then_GetNearbyEntities (tb : BatchMap)
    (sp : FSpatialEntityBatch) (c i : nat) (e : FTickEntityData)
    (Radius : float)
    (Hd : Deref tb (SlotAt c i) = Some e)
    (Ho : Object e <> 0%nat)
    (He : bEnabled e = true)
    (Hr : fle (Distance (Position e) (Position e)) Radius = true) :
  In (SlotAt c i)
     (GetNearbyEntities (fst (AddEntity tb sp (SlotAt c i)))
                        (snd (AddEntity tb sp (SlotAt c i)))
                        (Position e) Radius).
Proof.
  rewrite (AddEntity_accepts tb sp c i e Hd Ho). cbv zeta. cbn [fst snd].
  set (g := CalculateGridCell (GridCellSize sp) (Position e)).
  unfold GetNearbyEntities. apply in_flat_map. exists g. split.
  - unfold NearbyGrids. cbn [GridCellSize set_Grid]. now left.
  - cbn [GridCells set_Grid]. rewrite FindCell_CellAdd, Z.eqb_refl.
    apply filter_In. split.
    + destruct (FindCell g (GridCells sp)); [apply in_or_app; right|]; now left.
    + unfold IsNearby. rewrite (Deref_WriteEntity tb c i e _ Hd).
      cbn [bEnabled Object Position set_SpatialBucketId].
      apply Nat.eqb_neq in Ho. now rewrite He, Ho, Hr.
Qed.

End GridMembershipFacts.

Section BatchKeyFacts.

Context {FO : FloatOps}.

Lemma keys_UpdateBatch (c : nat) (f : FComponentTypeBatch -> FComponentTypeBatch)
    (tb : BatchMap) :
  map fst (UpdateBatch c f tb) = map fst tb.
Proof.
  induction tb as [|[k b] tl IH]; simpl; [reflexivity|].
  destruct (Nat.eqb k c); simpl; [reflexivity|now rewrite IH].
Qed.

Lemma FindBatch_None_absent (c : nat) (tb : BatchMap) :
  FindBatch c tb = None -> ~ In c (map fst tb).
Proof.
  induction tb as [|[k b] tl IH]; simpl; [tauto|].
  destruct (Nat.eqb_spec k c) as [->|Hk]; [discriminate|].
  intros H [Hc|Hc]; [congruence|now apply IH].
Qed.

Lemma keys_AddEntity (tb : BatchMap) (sp : FSpatialEntityBatch) (p : EntityPtr) :
  map fst (fst (AddEntity tb sp p)) = map fst tb.
Proof.
  unfold AddEntity. destruct (Deref tb p); [|reflexivity].
  destruct (Nat.eqb (Object f) 0); [reflexivity|].
  cbn [fst]. destruct p; [reflexivity|]. apply keys_UpdateBatch.
Qed.

Lemma KeysGrow_same (tb tb' : BatchMap) :
  map fst tb' = map fst tb -> KeysGrow tb tb'.
Proof.
  intros H. split; [exists []; now rewrite app_nil_r|now rewrite H].
Qed.

Lemma KeysGrow_trans (a b c : BatchMap) :
  KeysGrow a b -> KeysGrow b c -> KeysGrow a c.
Proof.
  intros [[x Hx] Hn] [[y Hy] Hm]. split; [|tauto].
  exists (x ++ y). now rewrite Hy, Hx, app_assoc.
Qed.

Lemma KeysGrow_fold {X : Type} (f : UEnhancedTickSystem -> X -> UEnhancedTickSystem) :
  (forall s x, KeysGrow (TypeBatches s) (TypeBatches (f s x))) ->
  forall l s, KeysGrow (TypeBatches s) (TypeBatches (fold_left f l s)).
Proof.
  intros Hf. induction l as [|x l IH]; intros s; cbn [fold_left].
  - now apply KeysGrow_same.
  - eapply KeysGrow_trans; [apply Hf|apply IH].
Qed.

Lemma KeysGrow_FindOrAdd (c : nat) (tb : BatchMap) :
  KeysGrow tb (FindOrAddBatch c tb).
Proof.
  unfold FindOrAddBatch. destruct (FindBatch c tb) eqn:E.
  - now apply KeysGrow_same.
  - split; [exists [c]; now rewrite map_app|].
    intros Hn. rewrite map_app. simpl.
    apply NoDup_app; [exact Hn|constructor; [intros []|constructor]|].
    intros x Hx [Hc|[]]. subst x. now apply (FindBatch_None_absent c tb).
Qed.

Lemma KeysGrow_AddToBatch (s : UEnhancedTickSystem) (w : Engine) (c : nat)
    (g : ETickingGroup) (d : BatchDispatcher) (F : Z) (e : FTickEntityData) :
  KeysGrow (TypeBatches s) (TypeBatches (AddToBatch s w c g d F e)).
Proof.
  eapply KeysGrow_trans; [apply (KeysGrow_FindOrAdd c)|].
  apply KeysGrow_same. unfold AddToBatch.
  set (tb1 := FindOrAddBatch c (TypeBatches s)).
  set (fresh := match FindBatch c tb1 with
                | Some Batch => IsEmpty (TypeName Batch)
                | None => false
                end).
  set (tb2 := if fresh
              then UpdateBatch c (fun b => InitBatch b (ClassName w c) g F d) tb1
              else tb1).
  set (tb3 := UpdateBatch c
                (fun b => set_TickEntities b (TickEntities b ++ [e])) tb2).
  assert (H : map fst tb3 = map fst tb1).
  { subst tb3 tb2. rewrite keys_UpdateBatch.
    destruct fresh; [apply keys_UpdateBatch|reflexivity]. }
  destruct (EnumHasAnyFlags F SpatialAware && SpatialLock (SpatialBatch s)).
  - match goal with
    | |- context [AddEntity ?t ?sp ?p] =>
        pose proof (keys_AddEntity t sp p) as Ha;
        destruct (AddEntity t sp p) as [tb4 sp4]
    end.
    cbn [fst] in Ha. cbn [TypeBatches set_Core]. now rewrite Ha.
  - cbn [TypeBatches set_Core]. exact H.
Qed.

Lemma KeysGrow_flush (w : Engine) (s : UEnhancedTickSystem) :
  KeysGrow (TypeBatches s) (TypeBatches (ProcessDeferredOperations w s)).
Proof.
  unfold ProcessDeferredOperations, ProcessDeferredOperationsImpl,
    ProcessUnregistrations, ProcessRegistrations.
  cbn [TypeBatches set_Pending].
  eapply KeysGrow_trans.
  - apply (KeysGrow_fold (ProcessRegistration w)).
    intros t [o F]. unfold ProcessRegistration.
    repeat match goal with
           | |- context [if ?c then _ else _] => destruct c
           end; try (now apply KeysGrow_same); apply KeysGrow_AddToBatch.
  - apply (KeysGrow_fold (ProcessUnregistration w)).
    intros t o. unfold ProcessUnregistration.
    destruct (negb (IsValid w o)); [now apply KeysGrow_same|].
    apply (KeysGrow_fold (UnregisterFromBatch o)).
    intros u c. apply KeysGrow_same. unfold UnregisterFromBatch.
    destruct (FindBatch c (TypeBatches u)); [|reflexivity].
    destruct (FindObject o _ 0); [|reflexivity].
    cbn [TypeBatches set_Core]. apply keys_UpdateBatch.
Qed.

Lemma keys_map_snd (g : nat * FComponentTypeBatch -> nat * FComponentTypeBatch)
    (tb : BatchMap) :
  (forall kb, fst (g kb) = fst kb) -> map fst (map g tb) = map fst tb.
Proof.
  intros Hg. rewrite map_map. apply map_ext. exact Hg.
Qed.

Lemma keys_TickGroups (w : Engine) (gs : list ETickingGroup) :
  forall acc,
    map fst (TypeBatches (fst (fold_left (TickGroupBatches w) gs acc)))
    = map fst (TypeBatches (fst acc)).
Proof.
  assert (Hone : forall acc c,
            map fst (TypeBatches (fst (TickOneBatch w acc c)))
            = map fst (TypeBatches (fst acc))).
  { intros [s log] c. unfold TickOneBatch.
    destruct (FindBatch c (TypeBatches s)) as [Batch|]; [|reflexivity].
    destruct (_ && negb _); [reflexivity|].
    destruct (CanTickInParallel Batch && (Num (TickEntities Batch) >? 10));
      [destruct (TickBatchParallel w (ElapsedNs w c) Batch) as [B' inv]
      |destruct (TickBatch w (ElapsedNs w c) Batch) as [B' inv]];
      cbn [fst TypeBatches set_Core]; apply keys_UpdateBatch. }
  assert (Hl : forall l acc,
            map fst (TypeBatches (fst (fold_left (TickOneBatch w) l acc)))
            = map fst (TypeBatches (fst acc))).
  { induction l as [|c l IH]; intros acc; cbn [fold_left]; [reflexivity|].
    now rewrite IH, Hone. }
  induction gs as [|g gs IH]; intros acc; cbn [fold_left]; [reflexivity|].
  rewrite IH. unfold TickGroupBatches.
  destruct (FindGroup g (GroupedBatches (fst acc))); [apply Hl|reflexivity].
Qed.

Lemma keys_OptimizeBatches (w : Engine) (s : UEnhancedTickSystem) :
  map fst (TypeBatches (OptimizeBatches w s)) = map fst (TypeBatches s).
Proof.
  unfold OptimizeBatches. cbn [TypeBatches set_TypeBatches set_Core].
  rewrite keys_map_snd by reflexivity.
  unfold ApplyOptimizationHints.
  transitivity (map fst (TypeBatches (AnalyzeCurrentState s)));
    [|unfold AnalyzeCurrentState; cbn [TypeBatches set_Core];
      now apply keys_map_snd].
  apply (fold_left_preserves
           (fun t => map fst (TypeBatches t)
                     = map fst (TypeBatches (AnalyzeCurrentState s))));
    [|reflexivity].
  intros t c Ht. rewrite <- Ht. unfold HintBatch.
  destruct (FindBatch c (TypeBatches t)) as [Batch|]; [|reflexivity].
  destruct (negb _); [reflexivity|].
  destruct (_ && negb _); [|reflexivity].
  match goal with
  | |- context [fold_left ?f ?l ?a] =>
      assert (H : map fst (fst (fold_left f l a)) = map fst (fst a))
  end.
  { apply (fold_left_preserves
             (fun st : BatchMap * FSpatialEntityBatch =>
                map fst (fst st) = map fst
                  (UpdateBatch c
                     (fun b => set_Flags b (SetFlag (Flags b) SpatialAware))
                     (TypeBatches t)))); [|reflexivity].
    intros st i Hst. rewrite <- Hst. unfold MoveToGrid.
    destruct (Deref (fst st) (SlotAt c i)); [|reflexivity].
    destruct (_ && _); [apply keys_AddEntity|reflexivity]. }
  destruct (fold_left _ _ _) as [tb2 sp2]. cbn [fst] in H.
  cbn [TypeBatches set_Core]. rewrite H. apply keys_UpdateBatch.
Qed.

(** X12: a frame never removes or reorders batches: the classes that have
    a batch after [Tick] are those that had one before, in the same order,
    followed by the classes that got a batch in the flush; and if no class
    had two batches before, none has two after. *)
Theorem Tick_keeps_batches (w : Engine) (s : UEnhancedTickSystem) :
  (exists created,
     map fst (TypeBatches (fst (Tick w s))) = map fst (TypeBatches s) ++ created)
  /\ (NoDup (map fst (TypeBatches s)) ->
      NoDup (map fst (TypeBatches (fst (Tick w s))))).
Proof.
  assert (HB : KeysGrow (TypeBatches s) (TypeBatches (BeginFrame w s))).
  { unfold BeginFrame, SortBatchesByPriority, UpdateConditionalTicks.
    cbn [TypeBatches set_Core set_TypeBatches].
    eapply KeysGrow_trans;
      [apply (KeysGrow_flush w (set_FrameCounter s (Z.rem (FrameCounter s + 1) 1000)))|].
    apply KeysGrow_same. apply keys_map_snd. intros kb.
    now destruct (negb _). }
  eapply KeysGrow_trans; [exact HB|]. apply KeysGrow_same.
  unfold Tick.
  pose proof (keys_TickGroups w TickOrder (BeginFrame w s, [])) as Hk.
  match goal with
  | |- context [fold_left ?f ?l ?a] =>
      change (fold_left (TickGroupBatches w) TickOrder (BeginFrame w s, []))
        with (fold_left f l a) in Hk;
      destruct (fold_left f l a) as [s1 log]
  end.
  cbn [fst] in *. rewrite <- Hk.
  destruct (Z.rem (FrameCounter s1) 300 =? 0);
    [apply keys_OptimizeBatches|reflexivity].
Qed.

End BatchKeyFacts.

Section RegistrationAndOptimizerFacts.

Context {FO : FloatOps}.

(** X13: for a scene, primitive or character-movement component,
    RegisterComponent never queues the UseParallel flag, whatever the
    caller passed, and queues each of the six other flags exactly as
    passed. *)
Theorem RegisterComponent_strips_UseParallel (w : Engine)
    (s : UEnhancedTickSystem) (Component : nat) (F : Z)
    (Hv : IsValid w Component = true)
    (Hunsafe : IsA w Component USceneComponent
               || IsA w Component UPrimitiveComponent
               || IsA w Component UCharacterMovementComponent = true) :
  exists F',
    PendingRegistrations (RegisterComponent w s Component F)
    = PendingRegistrations s ++ [(Component, F')]
    /\ EnumHasAnyFlags F' UseParallel = false
    /\ forall X, In X [CacheHot; Conditional; HighPrio; LowPrio; SpatialAware;
                       StateDependent] ->
         EnumHasAnyFlags F' X = EnumHasAnyFlags F X.
Proof.
  unfold RegisterComponent. rewrite Hv, Hunsafe. cbn [negb andb].
  destruct (EnumHasAnyFlags F UseParallel) eqn:E.
  - exists (ClearFlag F UseParallel). split; [reflexivity|]. split.
    + unfold EnumHasAnyFlags, ClearFlag. rewrite <- Z.land_assoc.
      change (Z.land (Z.lxor UseParallel 255) UseParallel) with 0.
      now rewrite Z.land_0_r.
    + intros X HX. unfold EnumHasAnyFlags, ClearFlag.
      rewrite <- Z.land_assoc.
      simpl in HX.
      repeat (destruct HX as [<-|HX]; [reflexivity|]). destruct HX.
  - exists F. split; [reflexivity|]. split; [exact E|reflexivity].
Qed.

(** X14: the refresh of conditional ticks touches only batches flagged
    Conditional; it changes no descriptor's object and no batch's size;
    afterwards no enabled descriptor of a Conditional batch has an invalid
    object, and a descriptor of a valid component is enabled exactly if
    the component is active. *)
Theorem UpdateConditionalTicks_refresh (w : Engine) (s : UEnhancedTickSystem)
    (c : nat) (b : FComponentTypeBatch)
    (Hb : FindBatch c (TypeBatches s) = Some b) :
  exists b',
    FindBatch c (TypeBatches (UpdateConditionalTicks w s)) = Some b'
    /\ map Object (TickEntities b') = map Object (TickEntities b)
    /\ (EnumHasAnyFlags (Flags b) Conditional = false -> b' = b)
    /\ (EnumHasAnyFlags (Flags b) Conditional = true ->
        forall e, In e (TickEntities b') ->
          (bEnabled e = true -> IsValid w (Object e) = true)
          /\ (IsValid w (Object e) = true ->
              Cast w UActorComponent (Object e) = true ->
              bEnabled e = IsActive w (Object e))).
Proof.
  unfold UpdateConditionalTicks. cbn [TypeBatches set_TypeBatches set_Core].
  assert (Hfind : FindBatch c
            (map (fun kb : nat * FComponentTypeBatch =>
                    if negb (EnumHasAnyFlags (Flags (snd kb)) Conditional) then kb
                    else (fst kb,
                          set_TickEntities (snd kb)
                            (map (RefreshEnabled w) (TickEntities (snd kb)))))
                 (TypeBatches s))
          = Some (if negb (EnumHasAnyFlags (Flags b) Conditional) then b
                  else set_TickEntities b
                         (map (RefreshEnabled w) (TickEntities b)))).
  { revert Hb. induction (TypeBatches s) as [|[k x] tl IH]; [discriminate|].
    cbn [map snd fst FindBatch]. intros H.
    destruct (Nat.eqb k c) eqn:Ek.
    - injection H as ->.
      destruct (negb (EnumHasAnyFlags (Flags b) Conditional));
        cbn [FindBatch]; now rewrite Ek.
    - destruct (negb (EnumHasAnyFlags (Flags x) Conditional));
        cbn [FindBatch]; rewrite Ek; now apply IH. }
  rewrite Hfind. eexists. split; [reflexivity|].
  assert (Hobj : forall e, Object (RefreshEnabled w e) = Object e).
  { intros e. unfold RefreshEnabled.
    repeat match goal with
           | |- context [if ?t then _ else _] => destruct t
           end; reflexivity. }
  destruct (EnumHasAnyFlags (Flags b) Conditional); cbn [negb].
  - split; [|split; [discriminate|]].
    + cbn [TickEntities set_TickEntities]. rewrite map_map.
      apply map_ext. exact Hobj.
    + intros _ e He. cbn [TickEntities set_TickEntities] in He.
      apply in_map_iff in He. destruct He as [e0 [<- _]].
      rewrite Hobj. unfold RefreshEnabled.
      destruct (IsValid w (Object e0)) eqn:Ev; cbn [negb].
      * split; [reflexivity|]. intros _ Hc. now rewrite Hc.
      * split; [discriminate|discriminate].
  - split; [reflexivity|]. split; [reflexivity|discriminate].
Qed.

(** X15: after a pass of OptimizeBatches the batch of a class derived
    from the character-movement component is bound to the sequential
    character-movement callable, is not parallel-eligible whatever the
    measurements were, and is flagged spatial-aware. *)
Theorem OptimizeBatches_character_movement (w : Engine) (s : UEnhancedTickSystem)
    (c : nat) (b' : FComponentTypeBatch)
    (Hc : IsChildOf w c UCharacterMovementComponent = true)
    (Hb : FindBatch c (TypeBatches (OptimizeBatches w s)) = Some b') :
  CanTickInParallel b' = false
  /\ BatchTickFunction b' = Some CharacterMovementTick
  /\ EnumHasAnyFlags (Flags b') SpatialAware = true.
Proof.
  unfold OptimizeBatches in Hb. cbn [TypeBatches set_TypeBatches set_Core] in Hb.
  rewrite (FindBatch_map (SpecializeBatch w)) in Hb.
  destruct (FindBatch c _) as [b2|]; [|discriminate].
  cbn [option_map] in Hb. injection Hb as <-.
  unfold SpecializeBatch. rewrite Hc. split; [|split].
  - apply OptimizeCharacterMovementBatch_sequential.
  - reflexivity.
  - unfold OptimizeCharacterMovementBatch.
    cbn [Flags set_Flags set_BatchTickFunction].
    apply HasFlag_set. discriminate.
Qed.

(** X16: the analysis pass only adds flags: every flag a batch had it
    still has; a batch flagged high-priority is not made low-priority; and
    the entities of the batch are untouched. *)
Theorem AnalyzeCurrentState_only_adds_flags (s : UEnhancedTickSystem) (c : nat)
    (b : FComponentTypeBatch)
    (Hb : FindBatch c (TypeBatches s) = Some b) :
  exists b',
    FindBatch c (TypeBatches (AnalyzeCurrentState s)) = Some b'
    /\ (forall X, EnumHasAnyFlags (Flags b) X = true ->
                  EnumHasAnyFlags (Flags b') X = true)
    /\ (EnumHasAnyFlags (Flags b) HighPrio = true ->
        EnumHasAnyFlags (Flags b') LowPrio = EnumHasAnyFlags (Flags b) LowPrio)
    /\ TickEntities b' = TickEntities b.
Proof.
  exists (AnalyzeBatch b). split.
  { unfold AnalyzeCurrentState. cbn [TypeBatches set_Core].
    rewrite (FindBatch_map (fun _ => AnalyzeBatch)), Hb. reflexivity. }
  split; [|split; [|apply AnalyzeBatch_spec]].
  - intros X HX. unfold AnalyzeBatch.
    destruct (WorthParallel b);
      cbn [TickEntities set_Flags];
      destruct (Num (TickEntities b) <? 5);
      cbn [AverageTickTimeNs Flags set_Flags set_bSortByCacheLocality];
      destruct (_ && _); cbn [Flags set_Flags];
      repeat apply HasFlag_keep; exact HX.
  - intros HH. unfold AnalyzeBatch.
    assert (HH' : EnumHasAnyFlags (SetFlag (Flags b) UseParallel) HighPrio = true)
      by now apply HasFlag_keep.
    destruct (WorthParallel b);
      cbn [TickEntities set_Flags];
      destruct (Num (TickEntities b) <? 5);
      cbn [AverageTickTimeNs Flags set_Flags set_bSortByCacheLocality];
      rewrite ?HH, ?HH', ?andb_false_r; cbn [negb andb];
      try reflexivity; now apply HasFlag_set_other.
Qed.

(** X17: the throttle is not "one frame in three" across the wrap of the
    counter: in the frame that advances the counter from 998 to 999 and in
    the next one, which wraps it to 0, every low-priority batch of a phase
    list is ticked, two frames in a row. *)
Theorem LowPrio_ticked_twice_at_wrap (w : Engine) (s : UEnhancedTickSystem)
    (g : ETickingGroup) (c : nat) (Batch : FComponentTypeBatch)
    (Hfc : FrameCounter s = 998 \/ FrameCounter s = 999)
    (Hg : In g TickOrder)
    (Hc : In c (GroupList (BeginFrame w s) g))
    (Hb : FindBatch c (TypeBatches (BeginFrame w s)) = Some Batch) :
  TickedIn c (snd (Tick w s)) = true
  /\ FrameCounter (fst (Tick w s)) = (FrameCounter s + 1) mod 1000.
Proof.
  destruct (Tick_log w s) as [_ HF].
  pose proof (BeginFrame_FrameCounter w s) as HB.
  split.
  - apply TickedIn_Due. split; [|exists g; split; assumption].
    unfold DueThisFrame. rewrite Hb, HB.
    destruct Hfc as [-> | ->];
      [change (Z.rem (Z.rem (998 + 1) 1000) 3 =? 0) with true
      |change (Z.rem (Z.rem (999 + 1) 1000) 3 =? 0) with true];
      cbn [negb]; now rewrite andb_false_r.
  - rewrite HF, HB. destruct Hfc as [-> | ->]; reflexivity.
Qed.

End RegistrationAndOptimizerFacts.

Section AggregatorFacts.

Lemma ETickingGroup_eqb_eq (a b : ETickingGroup) :
  ETickingGroup_eqb a b = true <-> a = b.
Proof. destruct a, b; simpl; split; intros H; congruence. Qed.

Lemma In_AddUnique (o x : nat) (l : list nat) :
  In x (AddUnique o l) <-> x = o \/ In x l.
Proof.
  unfold AddUnique. destruct (existsb (Nat.eqb o) l) eqn:E.
  - split; [tauto|]. intros [->|H]; [|exact H].
    apply existsb_exists in E. destruct E as [y [Hy Ey]].
    apply Nat.eqb_eq in Ey. now subst.
  - rewrite in_app_iff. simpl. split; intros H; [|destruct H as [->|H]]; try tauto.
    destruct H as [H|[->|[]]]; tauto.
Qed.

Lemma NoDup_AddUnique (o : nat) (l : list nat) :
  NoDup l -> NoDup (AddUnique o l).
Proof.
  intros Hn. unfold AddUnique. destruct (existsb (Nat.eqb o) l) eqn:E;
    [exact Hn|].
  apply NoDup_app; [exact Hn|constructor; [intros []|constructor]|].
  intros x Hx [Ho|[]]. subst x.
  assert (Hex : existsb (Nat.eqb o) l = true); [|congruence].
  apply existsb_exists. exists o. split; [exact Hx|apply Nat.eqb_refl].
Qed.

Lemma AddUnique_present (o : nat) (l : list nat) :
  In o l -> AddUnique o l = l.
Proof.
  intros H. unfold AddUnique.
  assert (Hex : existsb (Nat.eqb o) l = true).
  { apply existsb_exists. exists o. split; [exact H|apply Nat.eqb_refl]. }
  now rewrite Hex.
Qed.

Lemma AggList_AddUnique (g g' : ETickingGroup) (o : nat) (m : AggGroupMap) :
  AggList (AggAddUnique g o m) g'
  = if ETickingGroup_eqb g' g then AddUnique o (AggList m g) else AggList m g'.
Proof.
  unfold AggList. induction m as [|[k v] tl IH]; simpl.
  - destruct (ETickingGroup_eqb g g') eqn:E1, (ETickingGroup_eqb g' g) eqn:E2;
      try reflexivity.
    + apply ETickingGroup_eqb_eq in E1. subst.
      destruct g'; discriminate.
    + apply ETickingGroup_eqb_eq in E2. subst.
      destruct g; discriminate.
  - destruct (ETickingGroup_eqb k g) eqn:Ekg; simpl.
    + apply ETickingGroup_eqb_eq in Ekg. subst k.
      destruct (ETickingGroup_eqb g g') eqn:E1, (ETickingGroup_eqb g' g) eqn:E2;
        try reflexivity.
      * apply ETickingGroup_eqb_eq in E1. subst. destruct g'; discriminate.
      * apply ETickingGroup_eqb_eq in E2. subst. destruct g; discriminate.
    + destruct (ETickingGroup_eqb k g') eqn:Ekg'.
      * apply ETickingGroup_eqb_eq in Ekg'. subst k.
        destruct (ETickingGroup_eqb g' g) eqn:E2; [|reflexivity].
        apply ETickingGroup_eqb_eq in E2. subst. destruct g; discriminate.
      * exact IH.
Qed.

Lemma AggList_RemoveAll (o : nat) (m : AggGroupMap) (g : ETickingGroup) :
  AggList (AggRemoveAll o m) g
  = filter (fun x => negb (Nat.eqb x o)) (AggList m g).
Proof.
  unfold AggList, AggRemoveAll. induction m as [|[k v] tl IH]; simpl;
    [reflexivity|].
  destruct (ETickingGroup_eqb k g); [reflexivity|exact IH].
Qed.

Lemma AggNoDup_AddUnique (g : ETickingGroup) (o : nat) (m : AggGroupMap) :
  AggNoDup m -> AggNoDup (AggAddUnique g o m).
Proof.
  unfold AggNoDup. induction m as [|[k v] tl IH]; intros Hm k' v' Hin; simpl in Hin.
  - destruct Hin as [H|[]]. injection H as <- <-.
    constructor; [intros []|constructor].
  - destruct (ETickingGroup_eqb k g).
    + destruct Hin as [H|H].
      * injection H as <- <-. apply NoDup_AddUnique.
        apply (Hm k v). now left.
      * apply (Hm k' v'). now right.
    + destruct Hin as [H|H].
      * injection H as <- <-. apply (Hm k v). now left.
      * apply (IH (fun a b Hab => Hm a b (or_intror Hab)) k' v' H).
Qed.

(** X18: registering a component with the aggregator files it once: the
    arrays stay free of duplicates, the component is in the array of its
    tick group, the arrays of the other groups are untouched, and
    registering it again changes nothing. *)
Theorem RegisterTickableComponent_files_once (w : AggregatorEngine)
    (s : UTickAggregatorSubsystem) (Component : nat)
    (Hv : AggIsValid w Component = true) :
  let s' := RegisterTickableComponent w s Component in
  let g := AggComponentTickGroup w Component in
  (AggNoDup (GroupedComponents s) -> AggNoDup (GroupedComponents s'))
  /\ In Component (AggList (GroupedComponents s') g)
  /\ (forall g', g' <> g ->
        AggList (GroupedComponents s') g' = AggList (GroupedComponents s) g')
  /\ (forall g', AggList (GroupedComponents
                            (RegisterTickableComponent w s' Component)) g'
                 = AggList (GroupedComponents s') g').
Proof.
  cbv zeta. unfold RegisterTickableComponent, GetComponentTickGroup.
  rewrite Hv. cbn [GroupedComponents]. rewrite ?Hv.
  split; [apply AggNoDup_AddUnique|]. split; [|split].
  - rewrite AggList_AddUnique.
    assert (H : ETickingGroup_eqb (AggComponentTickGroup w Component)
                                  (AggComponentTickGroup w Component) = true)
      by now apply ETickingGroup_eqb_eq.
    rewrite H. apply In_AddUnique. now left.
  - intros g' Hg. rewrite AggList_AddUnique.
    destruct (ETickingGroup_eqb g' _) eqn:E; [|reflexivity].
    apply ETickingGroup_eqb_eq in E. contradiction.
  - intros g'. rewrite !AggList_AddUnique.
    destruct (ETickingGroup_eqb g' _) eqn:E; [|reflexivity].
    assert (H : ETickingGroup_eqb (AggComponentTickGroup w Component)
                                  (AggComponentTickGroup w Component) = true)
      by now apply ETickingGroup_eqb_eq.
    rewrite H. apply AddUnique_present. apply In_AddUnique. now left.
Qed.

Lemma In_TickGroupObjects_component (w : AggregatorEngine)
    (s : UTickAggregatorSubsystem) (g : ETickingGroup) (c : nat) :
  In (CallTickComponent c) (TickGroupObjects w s g)
  <-> WeakGet w c = true /\ In c (AggList (GroupedComponents s) g).
Proof.
  unfold TickGroupObjects, AggList. rewrite in_app_iff. split.
  - intros [H|H].
    + destruct (AggFind g (GroupedComponents s)); [|destruct H].
      apply in_map_iff in H. destruct H as [x [Hx H]]. injection Hx as ->.
      apply filter_In in H. tauto.
    + destruct (AggFind g (GroupedActors s)); [|destruct H].
      apply in_map_iff in H. destruct H as [x [Hx _]]. discriminate.
  - intros [Hw H]. left.
    destruct (AggFind g (GroupedComponents s)); [|destruct H].
    apply in_map_iff. exists c. split; [reflexivity|].
    apply filter_In. tauto.
Qed.

(** X19: a tick of the aggregator calls TickComponent of a component
    exactly if its weak pointer still resolves and it is in the array of
    one of the seven phases; a component filed under any other tick group
    (TG_NewlySpawned) is registered but never ticked. *)
Theorem AggregatorTick_calls (w : AggregatorEngine) (s : UTickAggregatorSubsystem)
    (c : nat) :
  In (CallTickComponent c) (AggregatorTick w s)
  <-> WeakGet w c = true
      /\ exists g, g <> TG_NewlySpawned /\ In c (AggList (GroupedComponents s) g).
Proof.
  unfold AggregatorTick. rewrite in_flat_map. split.
  - intros [g [Hg H]]. apply In_TickGroupObjects_component in H.
    split; [tauto|]. exists g. split; [|tauto].
    intros ->. simpl in Hg. intuition discriminate.
  - intros [Hw [g [Hg H]]]. exists g. split.
    + destruct g; simpl; tauto.
    + apply In_TickGroupObjects_component. tauto.
Qed.

(** X20: after a live component is unregistered it is in no array, so no
    later tick of the aggregator calls it, whatever was registered before;
    the other components stay where they were. *)
Theorem UnregisterTickableComponent_stops_ticks (w w' : AggregatorEngine)
    (s : UTickAggregatorSubsystem) (Component : nat)
    (Hv : AggIsValid w Component = true) :
  let s' := UnregisterTickableComponent w s Component in
  ~ In (CallTickComponent Component) (AggregatorTick w' s')
  /\ forall g x, x <> Component ->
       (In x (AggList (GroupedComponents s') g)
        <-> In x (AggList (GroupedComponents s) g)).
Proof.
  cbv zeta. unfold UnregisterTickableComponent. rewrite Hv. split.
  - intros H. unfold AggregatorTick in H. apply in_flat_map in H.
    destruct H as [g [_ H]]. apply In_TickGroupObjects_component in H.
    destruct H as [_ H]. cbn [GroupedComponents] in H. rewrite AggList_RemoveAll in H.
    apply filter_In in H. destruct H as [_ H].
    now rewrite Nat.eqb_refl in H.
  - intros g x Hx. cbn [GroupedComponents]. rewrite AggList_RemoveAll, filter_In.
    apply Nat.eqb_neq in Hx. rewrite Hx. simpl. tauto.
Qed.

(** X21: registering a live component that is in no array and then
    unregistering it gives every array back as it was. *)
Theorem Register_then_Unregister_component (w : AggregatorEngine)
    (s : UTickAggregatorSubsystem) (Component : nat)
    (Hv : AggIsValid w Component = true)
    (Hnew : forall g, ~ In Component (AggList (GroupedComponents s) g)) :
  forall g,
    AggList (GroupedComponents
               (UnregisterTickableComponent w
                  (RegisterTickableComponent w s Component) Component)) g
    = AggList (GroupedComponents s) g.
Proof.
  intros g. unfold UnregisterTickableComponent, RegisterTickableComponent,
    GetComponentTickGroup.
  rewrite Hv. cbn [GroupedComponents]. rewrite ?Hv.
  rewrite AggList_RemoveAll, AggList_AddUnique.
  assert (Hf : forall l, ~ In Component l ->
             filter (fun x => negb (Nat.eqb x Component)) l = l).
  { intros l Hl. apply filter_all. intros x Hx.
    apply negb_true_iff, Nat.eqb_neq. intros ->. contradiction. }
  destruct (ETickingGroup_eqb g _) eqn:E; [|now apply Hf].
  apply ETickingGroup_eqb_eq in E. subst g.
  unfold AddUnique.
  destruct (existsb _ _) eqn:Ex; [now apply Hf|].
  rewrite filter_app. simpl. rewrite Nat.eqb_refl. simpl.
  rewrite app_nil_r. now apply Hf.
Qed.

(** X22: a live actor is filed by the aggregator under the tick group of
    its tick function only if it has a root component; without one it is
    filed under TG_PrePhysics, whatever its tick group. *)
Theorem RegisterTickableActor_group (w : AggregatorEngine)
    (s : UTickAggregatorSubsystem) (Actor : nat)
    (Hv : AggIsValid w Actor = true) :
  In Actor (AggList (GroupedActors (RegisterTickableActor w s Actor))
              (if HasRootComponent w Actor then AggActorTickGroup w Actor
               else TG_PrePhysics))
  /\ GroupedComponents (RegisterTickableActor w s Actor) = GroupedComponents s.
Proof.
  unfold RegisterTickableActor, GetActorTickGroup. rewrite Hv. cbn [andb].
  split; [|reflexivity]. cbn [GroupedActors]. rewrite AggList_AddUnique.
  assert (H : forall g, ETickingGroup_eqb g g = true)
    by (intros g; now apply ETickingGroup_eqb_eq).
  rewrite H. apply In_AddUnique. now left.
Qed.

End AggregatorFacts.

(** * The further properties at concrete inputs *)

Lemma TickBatchParallel_calls_only_active_witness :
  In (DemoEntity 1%nat 0 true)
     (TickEntities (DemoBatch UseParallel
                      [DemoEntity 1%nat 0 true; DemoEntity 2%nat 5 true]))
  /\ bEnabled (DemoEntity 1%nat 0 true) = true
  /\ IsValid (DemoEngine 100) (Object (DemoEntity 1%nat 0 true)) = true.
Proof.
  apply (TickBatchParallel_calls_only_active (DemoEngine 100) 100
           (DemoBatch UseParallel
              [DemoEntity 1%nat 0 true; DemoEntity 2%nat 5 true])).
  vm_compute. left. reflexivity.
Defined.

Lemma TickBatchParallel_calls_each_once_witness :
  Permutation
    (snd (TickBatchParallel (DemoEngine 100) 100
            (DemoBatch UseParallel
               [DemoEntity 1%nat 0 true; DemoEntity 2%nat 5 true])))
    [DemoEntity 1%nat 0 true; DemoEntity 2%nat 5 true].
Proof.
  refine (proj1 (TickBatchParallel_calls_each_once (DemoEngine 100) 100
           (DemoBatch UseParallel
              [DemoEntity 1%nat 0 true; DemoEntity 2%nat 5 true])
           GenericTick eq_refl eq_refl _ _ _)).
  - vm_compute. discriminate.
  - vm_compute. discriminate.
  - vm_compute. reflexivity.
Defined.

Lemma TickAllGrids_calls_only_active_witness :
  IsValid (DemoEngine 100) (Object (DemoEntity 1%nat 0 true)) = true.
Proof.
  refine (proj1 (TickAllGrids_calls_only_active (DemoEngine 100)
                   (fst EnabledInGrid) (snd EnabledInGrid)
                   (DemoEntity 1%nat 0 true) _)).
  vm_compute. left. reflexivity.
Defined.

Lemma SortForCacheLocality_greedy_chain_witness :
  exists chain,
    TickEntities (SortForCacheLocality (DemoEngine 100)
                    (DemoBatch FlagNone
                       [DemoEntity 1%nat 0 true; DemoEntity 2%nat 5 false;
                        DemoEntity 3%nat 30 true; DemoEntity 4%nat 10 true]))
    = DemoEntity 1%nat 0 true :: chain
    /\ Permutation chain [DemoEntity 3%nat 30 true; DemoEntity 4%nat 10 true]
    /\ Chained (DemoEntity 1%nat 0 true) chain.
Proof.
  exact (SortForCacheLocality_greedy_chain LatticeFloat_strict (DemoEngine 100)
           (DemoBatch FlagNone
              [DemoEntity 1%nat 0 true; DemoEntity 2%nat 5 false;
               DemoEntity 3%nat 30 true; DemoEntity 4%nat 10 true])
           (DemoEntity 1%nat 0 true) (DemoEntity 3%nat 30 true)
           [DemoEntity 4%nat 10 true] eq_refl).
Defined.

Lemma SortForCacheLocality_small_batch_witness :
  SortForCacheLocality (DemoEngine 100)
    (DemoBatch FlagNone [DemoEntity 1%nat 0 true; DemoEntity 2%nat 5 false])
  = DemoBatch FlagNone [DemoEntity 1%nat 0 true; DemoEntity 2%nat 5 false].
Proof.
  apply SortForCacheLocality_small_batch. vm_compute. reflexivity.
Defined.

Lemma AddEntity_files_under_cell_witness :
  In (SlotAt 7 0)
     (AllSpatialEntities
        (snd (AddEntity (OneBatch FlagNone [DemoEntity 1%nat 0 true]) EmptyGrid
                        (SlotAt 7 0)))).
Proof.
  refine (proj1 (proj2 (proj2
    (AddEntity_files_under_cell (OneBatch FlagNone [DemoEntity 1%nat 0 true])
       EmptyGrid 7%nat 0%nat (DemoEntity 1%nat 0 true) eq_refl _)))).
  discriminate.
Defined.

Lemma AddEntity_RemoveEntity_witness :
  RemoveEntity
    (fst (AddEntity (OneBatch FlagNone [DemoEntity 1%nat 0 true]) EmptyGrid
                    (SlotAt 7 0)))
    (snd (AddEntity (OneBatch FlagNone [DemoEntity 1%nat 0 true]) EmptyGrid
                    (SlotAt 7 0)))
    (SlotAt 7 0)
  = EmptyGrid.
Proof.
  apply (AddEntity_RemoveEntity (OneBatch FlagNone [DemoEntity 1%nat 0 true])
           EmptyGrid 7%nat 0%nat (DemoEntity 1%nat 0 true)).
  - reflexivity.
  - discriminate.
  - simpl. tauto.
  - intros v H. vm_compute in H. discriminate.
Defined.

Lemma AddEntity_then_GetNearbyEntities_witness :
  In (SlotAt 7 0)
     (GetNearbyEntities
        (fst (AddEntity (OneBatch FlagNone [DemoEntity 1%nat 0 true]) EmptyGrid
                        (SlotAt 7 0)))
        (snd (AddEntity (OneBatch FlagNone [DemoEntity 1%nat 0 true]) EmptyGrid
                        (SlotAt 7 0)))
        (Position (DemoEntity 1%nat 0 true)) (float_lit 100)).
Proof.
  apply (AddEntity_then_GetNearbyEntities
           (OneBatch FlagNone [DemoEntity 1%nat 0 true]) EmptyGrid 7%nat 0%nat
           (DemoEntity 1%nat 0 true) (float_lit 100)).
  - reflexivity.
  - discriminate.
  - reflexivity.
  - vm_compute. reflexivity.
Defined.

Lemma RegisterComponent_strips_UseParallel_witness :
  exists F',
    PendingRegistrations
      (RegisterComponent AnyClassEngine NewSystem 1%nat (Z.lor UseParallel LowPrio))
    = [(1%nat, F')]
    /\ EnumHasAnyFlags F' UseParallel = false.
Proof.
  destruct (RegisterComponent_strips_UseParallel AnyClassEngine NewSystem 1%nat
              (Z.lor UseParallel LowPrio) eq_refl eq_refl) as [F' [H1 [H2 _]]].
  exists F'. split; assumption.
Defined.

Lemma UpdateConditionalTicks_refresh_witness :
  exists b',
    FindBatch 7%nat
      (TypeBatches (UpdateConditionalTicks (DemoEngine 100)
         (DemoSystem (OneBatch Conditional [DemoEntity 60%nat 0 true]))))
    = Some b'
    /\ map Object (TickEntities b') = [60%nat].
Proof.
  destruct (UpdateConditionalTicks_refresh (DemoEngine 100)
              (DemoSystem (OneBatch Conditional [DemoEntity 60%nat 0 true]))
              7%nat (DemoBatch Conditional [DemoEntity 60%nat 0 true]) eq_refl)
    as [b' [H1 [H2 _]]].
  exists b'. split; assumption.
Defined.

Lemma OptimizeBatches_character_movement_witness :
  CanTickInParallel
    (BatchAt (TypeBatches (OptimizeBatches AnyClassEngine
                (DemoSystem (OneBatch UseParallel [DemoEntity 1%nat 0 true]))))
             7%nat)
  = false.
Proof.
  refine (proj1 (OptimizeBatches_character_movement AnyClassEngine
           (DemoSystem (OneBatch UseParallel [DemoEntity 1%nat 0 true]))
           7%nat _ eq_refl _)).
  vm_compute. reflexivity.
Defined.

Lemma AnalyzeCurrentState_only_adds_flags_witness :
  exists b',
    FindBatch 7%nat
      (TypeBatches (AnalyzeCurrentState
         (DemoSystem (OneBatch HighPrio [DemoEntity 1%nat 0 true]))))
    = Some b'
    /\ EnumHasAnyFlags (Flags b') LowPrio = false.
Proof.
  destruct (AnalyzeCurrentState_only_adds_flags
              (DemoSystem (OneBatch HighPrio [DemoEntity 1%nat 0 true]))
              7%nat (DemoBatch HighPrio [DemoEntity 1%nat 0 true]) eq_refl)
    as [b' [H1 [_ [H2 _]]]].
  exists b'. split; [exact H1|]. rewrite H2; reflexivity.
Defined.

Lemma LowPrio_ticked_twice_at_wrap_witness :
  TickedIn 7%nat
    (snd (Tick (DemoEngine 100)
            (set_FrameCounter
               (DemoSystem (OneBatch LowPrio [DemoEntity 1%nat 0 true])) 998)))
  = true.
Proof.
  refine (proj1 (LowPrio_ticked_twice_at_wrap (DemoEngine 100)
           (set_FrameCounter
              (DemoSystem (OneBatch LowPrio [DemoEntity 1%nat 0 true])) 998)
           TG_PrePhysics 7%nat
           (DemoBatch LowPrio [DemoEntity 1%nat 0 true]) _ _ _ _)).
  - left. reflexivity.
  - simpl. tauto.
  - vm_compute. tauto.
  - vm_compute. reflexivity.
Defined.

Lemma RegisterTickableComponent_files_once_witness :
  In 3%nat
     (AggList (GroupedComponents
                 (RegisterTickableComponent DemoAggEngine NewAggregator 3%nat))
              TG_PrePhysics).
Proof.
  exact (proj1 (proj2 (RegisterTickableComponent_files_once DemoAggEngine
                         NewAggregator 3%nat eq_refl))).
Defined.

Lemma UnregisterTickableComponent_stops_ticks_witness :
  ~ In (CallTickComponent 3%nat)
       (AggregatorTick DemoAggEngine
          (UnregisterTickableComponent DemoAggEngine
             (RegisterTickableComponent DemoAggEngine NewAggregator 3%nat)
             3%nat)).
Proof.
  exact (proj1 (UnregisterTickableComponent_stops_ticks DemoAggEngine
                  DemoAggEngine
                  (RegisterTickableComponent DemoAggEngine NewAggregator 3%nat)
                  3%nat eq_refl)).
Defined.

Lemma Register_then_Unregister_component_witness :
  AggList (GroupedComponents
             (UnregisterTickableComponent DemoAggEngine
                (RegisterTickableComponent DemoAggEngine NewAggregator 3%nat)
                3%nat)) TG_PrePhysics
  = AggList (GroupedComponents NewAggregator) TG_PrePhysics.
Proof.
  apply (Register_then_Unregister_component DemoAggEngine NewAggregator 3%nat).
  - reflexivity.
  - intros g. destruct g; vm_compute; tauto.
Defined.

Lemma RegisterTickableActor_group_witness :
  In 5%nat
     (AggList (GroupedActors
                 (RegisterTickableActor DemoAggEngine NewAggregator 5%nat))
              TG_PostPhysics).
Proof.
  exact (proj1 (RegisterTickableActor_group DemoAggEngine NewAggregator 5%nat
                  eq_refl)).
Defined.
